(** * transcribe_scenes: the resumable scene-splitting pipeline

    A shallow embedding of [split_video.py] and [transcribe.py]: the
    scanner that decides which videos still have to be processed, the
    per-video scene loop, and the CSV ledger that doubles as output and as
    resumability checkpoint.  Scene detection, splitting, audio extraction
    and speech recognition are external collaborators; they appear as
    a class of oracles and as events of the execution trace.  The files
    that the collaborators write are not part of the file system of the
    model, which holds the directories and the ledger; what is stated
    about them is stated about the events. *)

From Stdlib Require Import Ascii String List Arith ZArith Lia Bool.
From Stdlib Require Import Decimal DecimalString DecimalNat.
From stdpp Require Import base option list strings gmap.

Local Open Scope Z_scope.

(** ** Python strings *)

Module PyStr.

(** [len(s)] *)
Definition len (s : string) : nat := String.length s.

(** [s[:n]] for [0 <= n] *)
Fixpoint take (n : nat) (s : string) : string :=
  match n, s with
  | O, _ => ""
  | S _, EmptyString => ""
  | S n', String c s' => String c (take n' s')
  end.

(** [s[n:]] for [0 <= n] *)
Fixpoint drop (n : nat) (s : string) : string :=
  match n, s with
  | O, _ => s
  | S _, EmptyString => ""
  | S n', String _ s' => drop n' s'
  end.

(** [s[i:j]] for [0 <= i], [0 <= j] *)
Definition slice (i j : nat) (s : string) : string :=
  drop i (take j s).

(** [s.endswith(suffix)] *)
Definition endswith (s suffix : string) : bool :=
  (len suffix <=? len s)%nat
  && String.eqb (drop (len s - len suffix) s) suffix.

(** [s.endswith((x1, ..., xn))]: some member of the tuple is a suffix. *)
Definition endswith_any (s : string) (suffixes : list string) : bool :=
  existsb (endswith s) suffixes.

(** [s.rfind(c)] for a one-character needle: the highest index holding
    [c], or [-1].  [rfind_from i] walks a string whose first character
    has index [i]. *)
Fixpoint rfind_from (i : Z) (s : string) (c : ascii) : Z :=
  match s with
  | EmptyString => -1
  | String d s' =>
      let r := rfind_from (i + 1) s' c in
      if r >=? 0 then r else if Ascii.eqb d c then i else -1
  end.

Definition rfind (s : string) (c : ascii) : Z := rfind_from 0 s c.

(** Is some character of [s] different from [c]? *)
Fixpoint has_other (c : ascii) (s : string) : bool :=
  match s with
  | EmptyString => false
  | String d s' => negb (Ascii.eqb d c) || has_other c s'
  end.

Definition lower_ascii (c : ascii) : ascii :=
  let n := nat_of_ascii c in
  if ((65 <=? n) && (n <=? 90))%nat then ascii_of_nat (n + 32) else c.

(** [s.lower()] on ASCII letters *)
Fixpoint lower (s : string) : string :=
  match s with
  | EmptyString => EmptyString
  | String c s' => String (lower_ascii c) (lower s')
  end.

(** [str(n)] for a non-negative integer *)
Definition str (n : nat) : string := NilEmpty.string_of_uint (Nat.to_uint n).

(** [int(s)] for a string of decimal digits; [None] stands for
    [ValueError]. *)
Definition int (s : string) : option nat :=
  match s with
  | EmptyString => None
  | _ => Nat.of_uint <$> NilEmpty.uint_of_string s
  end.

Fixpoint zeros (n : nat) : string :=
  match n with
  | O => ""
  | S n' => String "0" (zeros n')
  end.

(** [s.zfill(width)]: left-pad with ["0"], after a leading sign. *)
Definition zfill (width : nat) (s : string) : string :=
  let fill := zeros (width - len s) in
  match s with
  | String c s' =>
      if Ascii.eqb c "+" || Ascii.eqb c "-"
      then String c (fill +:+ s')
      else fill +:+ s
  | EmptyString => fill
  end.

End PyStr.

(** ** [os.path] on file names *)

(** [os.path.splitext] (posix flavour, as in [genericpath._splitext]):
    split at the last dot after the last separator, unless everything
    between the separator and that dot is dots. *)
Definition splitext (p : string) : string * string :=
  let sepIndex := PyStr.rfind p "/" in
  let dotIndex := PyStr.rfind p "." in
  if dotIndex >? sepIndex then
    if PyStr.has_other "."
         (PyStr.slice (Z.to_nat (sepIndex + 1)) (Z.to_nat dotIndex) p)
    then (PyStr.take (Z.to_nat dotIndex) p, PyStr.drop (Z.to_nat dotIndex) p)
    else (p, "")
  else (p, "").

(** The extension allow-list shared by both scanners. *)
Definition video_extensions : list string := [".mp4"; ".avi"; ".mov"; ".mkv"].

Definition is_video_file (file : string) : bool :=
  PyStr.endswith_any file video_extensions.

(** ** The world: a file system and an execution trace *)

(** A path is the list of its components below the working directory; the
    empty path is the working directory itself.  [os.path.join dir name]
    with a single directory entry [name] appends one component. *)
Abbreviation path := (list string).

Definition os_path_join (dir : path) (name : string) : path := dir ++ [name].

(** The text of a path, as it is written into a ledger cell. *)
Definition path_text (p : path) : string := String.concat "/" p.

(** A regular file is a CSV file: the rows of cells that [csv.writer]
    wrote into it. *)
Inductive node :=
| Dir
| File (rows : list (list string)).

Inductive exn :=
| TypeError
| StopIteration
| IndexError
| FileNotFoundError
| FileExistsError
| NotADirectoryError
| IsADirectoryError
| OSError.

Inductive outcome (A : Type) :=
| Ok (a : A)
| Raise (e : exn).
Arguments Ok {A} a.
Arguments Raise {A} e.

Global Instance node_eq_dec : EqDecision node.
Proof. solve_decision. Defined.

Global Instance exn_eq_dec : EqDecision exn.
Proof. solve_decision. Defined.

(** Time codes of the scene detector are opaque; the ledger holds their
    CSV text: that of [t.get_seconds()] and that of [t] itself. *)
Class FrameTimecode := {
  Timecode : Type;
  seconds_text : Timecode -> string;
  timecode_text : Timecode -> string
}.

Section Pipeline.

Context {frame_timecode : FrameTimecode}.

Definition scene_bounds : Type := Timecode * Timecode.

(** What the run does to the outside, in order. *)
Inductive event :=
| EMakedirs (dir : path)
| ERmtree (dir : path)
| ECreate (file : path)
| EListdir (dir : path)
| EDetect (video : path) (start_in_scene : bool)
| ESaveImages (video : path) (scene_list : list scene_bounds)
              (output_dir : path) (image_name_template : string)
| ESplitVideo (video : path) (scene_list : list scene_bounds)
              (output_dir : path) (output_file_template : string)
| EVideoToAudio (input output : path)
| ETranscribe (audio : path)
| EWriteRow (csv_file : path) (row : list string)
| EPipeline (task model : string).

Record world := World {
  fs : gmap path node;
  trace : list event
}.

(** The external collaborators: the scene detector, the speech
    recogniser, and the loading of the recogniser, which gives the error
    it raises, if any.  Their answers may depend on everything that
    happened before. *)
Class Collaborators := {
  detect_scenes : world -> path -> bool -> list scene_bounds;
  transcriber : world -> path -> gmap string string;
  pipeline_error : world -> option exn
}.

Context {collaborators : Collaborators}.

(** *** A state and exception monad *)

Definition M (A : Type) : Type := world -> outcome A * world.

Definition ret {A} (a : A) : M A := fun w => (Ok a, w).

Definition bind {A B} (m : M A) (k : A -> M B) : M B :=
  fun w =>
    match m w with
    | (Ok a, w') => k a w'
    | (Raise e, w') => (Raise e, w')
    end.

Definition raise {A} (e : exn) : M A := fun w => (Raise e, w).

(** [try: m except e: pass] *)
Definition except_pass (e : exn) (m : M unit) : M unit :=
  fun w =>
    match m w with
    | (Raise e', w') => if decide (e' = e) then (Ok tt, w') else (Raise e', w')
    | r => r
    end.

(** [if b: m] *)
Definition when (b : bool) (m : M unit) : M unit :=
  if b then m else ret tt.

Definition log (e : event) : M unit :=
  fun w => (Ok tt, World (fs w) (trace w ++ [e])).

Global Instance M_ret : MRet M := @ret.
Global Instance M_bind : MBind M := fun A B k m => bind m k.

Fixpoint for_each {A} (l : list A) (body : A -> M unit) : M unit :=
  match l with
  | [] => ret tt
  | x :: l' => body x ;; for_each l' body
  end.

Fixpoint fold_m {A B} (body : B -> A -> M B) (acc : B) (l : list A) : M B :=
  match l with
  | [] => ret acc
  | x :: l' => acc' ← body acc x ; fold_m body acc' l'
  end.

(** [enumerate(l)] *)
Fixpoint enumerate_from {A} (i : nat) (l : list A) : list (nat * A) :=
  match l with
  | [] => []
  | x :: l' => (i, x) :: enumerate_from (S i) l'
  end.

Definition enumerate {A} (l : list A) : list (nat * A) := enumerate_from 0 l.

(** *** File-system primitives *)

Definition node_at (m : gmap path node) (p : path) : option node :=
  match p with
  | [] => Some Dir
  | _ => m !! p
  end.

Definition is_dir (m : gmap path node) (p : path) : bool :=
  match node_at m p with
  | Some Dir => true
  | _ => false
  end.

(** The error of a path that does not resolve, found by walking down
    from the working directory: a component below a regular file is
    [NotADirectoryError] (ENOTDIR), a missing one [FileNotFoundError]
    (ENOENT). *)
Fixpoint resolve_error (m : gmap path node) (above : path)
    (below : list string) : exn :=
  match below with
  | [] => FileNotFoundError
  | name :: below' =>
      match node_at m above with
      | Some Dir => resolve_error m (above ++ [name]) below'
      | Some (File _) => NotADirectoryError
      | None => FileNotFoundError
      end
  end.

Definition missing_error (m : gmap path node) (p : path) : exn :=
  resolve_error m [] p.

(** [os.path.exists] *)
Definition path_exists (p : path) : M bool :=
  fun w => (Ok (bool_decide (is_Some (node_at (fs w) p))), w).

Definition set_fs (m : gmap path node) : M unit :=
  fun w => (Ok tt, World m (trace w)).

Definition get_fs : M (gmap path node) :=
  fun w => (Ok (fs w), w).

(** [os.mkdir] *)
Definition mkdir (p : path) : M unit :=
  m ← get_fs ;
  match node_at m p with
  | Some _ => raise FileExistsError
  | None =>
      match node_at m (removelast p) with
      | Some Dir => set_fs (<[p := Dir]> m)
      | Some (File _) => raise NotADirectoryError
      | None => raise (missing_error m (removelast p))
      end
  end.

(** The last step of [os.makedirs]: [mkdir], whose failure is forgiven
    when [exist_ok] is set and the directory is there. *)
Definition mkdir_leaf (name : path) (exist_ok : bool) : M unit :=
  fun w =>
    match mkdir name w with
    | (Raise e, w') =>
        if exist_ok && is_dir (fs w') name
        then (Ok tt, w') else (Raise e, w')
    | r => r
    end.

(** [os.makedirs], on the reversed path: [tail :: rhead] is
    [head/tail].  Missing ancestors are created first, then the leaf. *)
Fixpoint makedirs_rev (rname : list string) (exist_ok : bool) : M unit :=
  match rname with
  | [] => raise FileNotFoundError
  | tail :: rhead =>
      head_exists ← path_exists (rev rhead) ;
      when (negb head_exists)
        (except_pass FileExistsError (makedirs_rev rhead exist_ok)) ;;
      mkdir_leaf (rev rname) exist_ok
  end.

Definition makedirs (name : path) (exist_ok : bool) : M unit :=
  log (EMakedirs name) ;;
  makedirs_rev (rev name) exist_ok.

(** [shutil.rmtree]: the directory and everything below it. *)
Definition rmtree (dir : path) : M unit :=
  log (ERmtree dir) ;;
  m ← get_fs ;
  match node_at m dir with
  | Some Dir => set_fs (filter (fun kv => ¬ (dir `prefix_of` kv.1)) m)
  | Some (File _) => raise NotADirectoryError
  | None => raise (missing_error m dir)
  end.

(** Opening a file that is not there for writing needs its directory. *)
Definition parent_check (file : path) (m : gmap path node)
    (k : M unit) : M unit :=
  match node_at m (removelast file) with
  | Some Dir => k
  | Some (File _) => raise NotADirectoryError
  | None => raise (missing_error m (removelast file))
  end.

(** [with open(file, "w") as f: csv.writer(f).writerow(...)]: the file
    is created or truncated and holds [rows] afterwards. *)
Definition open_w (file : path) (rows : list (list string)) : M unit :=
  log (ECreate file) ;;
  m ← get_fs ;
  match node_at m file with
  | Some Dir => raise IsADirectoryError
  | _ => parent_check file m (set_fs (<[file := File rows]> m))
  end.

(** [open(file, "a")]: the file is created empty when it is missing. *)
Definition open_a (file : path) : M unit :=
  m ← get_fs ;
  match node_at m file with
  | Some (File _) => ret tt
  | Some Dir => raise IsADirectoryError
  | None => parent_check file m (set_fs (<[file := File []]> m))
  end.

(** [csv.writer(f).writerow(row)] on a file opened for appending. *)
Definition writerow (file : path) (row : list string) : M unit :=
  log (EWriteRow file row) ;;
  m ← get_fs ;
  match m !! file with
  | Some (File rows) => set_fs (<[file := File (rows ++ [row])]> m)
  | _ => ret tt
  end.

(** What a file opened for reading without [newline=""] hands on: every
    carriage return with a line feed behind it, and every other carriage
    return, as one line feed. *)
Fixpoint universal_newlines (s : string) : string :=
  match s with
  | EmptyString => EmptyString
  | String c s' =>
      if Ascii.eqb c "013" then
        String "010"
          match s' with
          | String d s'' =>
              if Ascii.eqb d "010" then universal_newlines s''
              else universal_newlines s'
          | EmptyString => EmptyString
          end
      else String c (universal_newlines s')
  end.

(** [csv.reader(f)] on such a file, on a POSIX system: the rows that
    were written, with the line ends inside their cells translated.  The
    limit of [csv] on the length of a field (131072 characters) is not
    modelled: the properties that need a ledger to be read take its
    fields to be within the limit. *)
Definition csv_reader (rows : list (list string)) : list (list string) :=
  map (map universal_newlines) rows.

(** [with open(file, "r") as f: list(csv.reader(f))] *)
Definition read_csv (file : path) : M (list (list string)) :=
  m ← get_fs ;
  match node_at m file with
  | Some (File rows) => ret (csv_reader rows)
  | Some Dir => raise IsADirectoryError
  | None => raise (missing_error m file)
  end.

(** [[row[0] for row in rows]]; [None] is the [IndexError] of an empty
    row. *)
Fixpoint first_cells (rows : list (list string)) : option (list string) :=
  match rows with
  | [] => Some []
  | [] :: _ => None
  | (c :: _) :: rows' => cons c <$> first_cells rows'
  end.

Definition first_column (rows : list (list string)) : M (list string) :=
  match first_cells rows with
  | Some cells => ret cells
  | None => raise IndexError
  end.

(** The entry of [dir] that the path [p] names, if [p] is one. *)
Fixpoint child_name (dir p : path) : option string :=
  match dir, p with
  | [], [name] => Some name
  | d :: dir', c :: p' => if decide (d = c) then child_name dir' p' else None
  | _, _ => None
  end.

Definition entries (m : gmap path node) (dir : path) : list string :=
  omap (fun kv => child_name dir kv.1) (map_to_list m).

(** [os.listdir] *)
Definition listdir (dir : path) : M (list string) :=
  log (EListdir dir) ;;
  m ← get_fs ;
  match node_at m dir with
  | Some Dir => ret (entries m dir)
  | Some (File _) => raise NotADirectoryError
  | None => raise (missing_error m dir)
  end.

(** *** Calls to the collaborators *)

(** A call of a library is an event of the trace.  The calls that work
    on a video are taken to return: the clips, images and audio files
    they write stay outside the file system of the model, and so does
    their failing, that of [video_to_audio] on a clip without audio
    track included.  The loading of the recogniser, which every run of
    [transcribe.py] starts with, may raise. *)

(** [open_video], [detect_scenes] and [get_scene_list]. *)
Definition detect (video : path) (start_in_scene : bool)
    : M (list scene_bounds) :=
  fun w =>
    (Ok (detect_scenes w video start_in_scene),
     World (fs w) (trace w ++ [EDetect video start_in_scene])).

Definition save_images (video : path) (scene_list : list scene_bounds)
    (output_dir : path) (image_name_template : string) : M unit :=
  log (ESaveImages video scene_list output_dir image_name_template).

Definition split_video_ffmpeg (input_video_path : path)
    (scene_list : list scene_bounds) (output_dir : path)
    (output_file_template : string) : M unit :=
  log (ESplitVideo input_video_path scene_list output_dir
         output_file_template).

Definition video_to_audio (input output : path) : M unit :=
  log (EVideoToAudio input output).

Definition transcribe (audio : path) : M (gmap string string) :=
  fun w =>
    (Ok (transcriber w audio),
     World (fs w) (trace w ++ [ETranscribe audio])).

(** [transformers.pipeline(task, model)]: the speech recogniser is
    loaded, or the call raises. *)
Definition pipeline (task model : string) : M unit :=
  fun w =>
    let w' := World (fs w) (trace w ++ [EPipeline task model]) in
    match pipeline_error w with
    | Some e => (Raise e, w')
    | None => (Ok tt, w')
    end.

(** ** split_video.py *)

Definition split_header : list string :=
  ["video_name"; "scene_number"; "start_time"; "end_time"].

(** The ledger row of scene [idx] (0-based) of a video. *)
Definition split_row (video_name : string) (idx : nat)
    (bounds : scene_bounds) : list string :=
  [video_name; PyStr.str (idx + 1);
   seconds_text bounds.1; seconds_text bounds.2].

(** The guard of the loop over the directory listing: [true] means
    [continue]. *)
Definition split_skips (processed_videos : gset string)
    (video_file : string) : bool :=
  negb (is_video_file video_file)
  || bool_decide ((splitext video_file).1 ∈ processed_videos).

(** Lines 43-77: what is done for a video that passed the guard. *)
Definition split_one (input_folder images_output_folder
    video_output_folder csv_file : path) (video_file : string) : M unit :=
  let video_name := (splitext video_file).1 in
  let video_path := os_path_join input_folder video_file in
  scene_list ← detect video_path false ;
  save_images video_path scene_list images_output_folder
    "$VIDEO_NAME-Scene-$SCENE_NUMBER-$IMAGE_NUMBER" ;;
  split_video_ffmpeg video_path scene_list video_output_folder
    "$VIDEO_NAME-Scene-$SCENE_NUMBER.mp4" ;;
  open_a csv_file ;;
  for_each (enumerate scene_list)
    (fun entry => writerow csv_file (split_row video_name entry.1 entry.2)).

(** Lines 36-77: the loop body with its guard. *)
Definition split_step (input_folder images_output_folder
    video_output_folder csv_file : path) (processed_videos : gset string)
    (video_file : string) : M unit :=
  if split_skips processed_videos video_file
  then ret tt
  else split_one input_folder images_output_folder video_output_folder
         csv_file video_file.

(** Lines 26-30: skip the header, collect the first cells. *)
Definition read_processed (csv_file : path) : M (gset string) :=
  rows ← read_csv csv_file ;
  match rows with
  | [] => raise StopIteration
  | _ :: body => cells ← first_column body ; ret (list_to_set cells)
  end.

Definition split_video_scenes (input_folder output_folder csv_file : path)
    : M unit :=
  makedirs output_folder true ;;
  let images_output_folder := os_path_join output_folder "images" in
  makedirs images_output_folder true ;;
  let video_output_folder := os_path_join output_folder "videos" in
  makedirs video_output_folder true ;;
  csv_exists ← path_exists csv_file ;
  when (negb csv_exists) (open_w csv_file [split_header]) ;;
  processed_videos ← read_processed csv_file ;
  vids ← listdir input_folder ;
  for_each vids
    (split_step input_folder images_output_folder video_output_folder
       csv_file processed_videos).

(** The files of a listing that pass the guard, in listing order. *)
Definition split_todo (vids : list string) (processed_videos : gset string)
    : list string :=
  filter (fun video_file => split_skips processed_videos video_file = false)
    vids.

Fixpoint keyword_arg (param : string) (kwargs : list (string * path))
    : option path :=
  match kwargs with
  | [] => None
  | (keyword, value) :: kwargs' =>
      if decide (keyword = param) then Some value
      else keyword_arg param kwargs'
  end.

(** Binding of a call by keywords to a parameter list without defaults:
    a parameter left without argument, or a keyword that names no
    parameter, is a [TypeError] ([None]). *)
Definition bind_keywords (params : list string)
    (kwargs : list (string * path)) : option (list path) :=
  if forallb (fun kw => bool_decide (kw.1 ∈ params)) kwargs
  then mapM (fun param => keyword_arg param kwargs) params
  else None.

(** Line 11: the signature. *)
Definition split_video_scenes_params : list string :=
  ["input_folder"; "output_folder"; "csv_file"].

(** Line 80: the module-level call. *)
Definition split_video_script : M unit :=
  match bind_keywords split_video_scenes_params
          [("input_folder", ["vids"]); ("output_folder", ["vids-split"])]
  with
  | Some [input_folder; output_folder; csv_file] =>
      split_video_scenes input_folder output_folder csv_file
  | _ => raise TypeError
  end.

(** ** transcribe.py *)

Definition transcribe_header : list string :=
  ["video"; "screen_nr"; "scene"; "image"; "start_time"; "end_time";
   "transcription"].

Definition init_folder (output_folder : path) : M (list string) :=
  let file := os_path_join output_folder "scenes.csv" in
  folder_exists ← path_exists output_folder ;
  if negb folder_exists then
    makedirs output_folder false ;;
    makedirs (os_path_join output_folder "videos") false ;;
    open_w file [transcribe_header] ;;
    ret []
  else
    rows ← read_csv file ;
    first_column rows.

(** The dictionary that [scene_generator] yields. *)
Record scene_record := SceneRecord {
  video : string;
  scene_nr : string;
  scene : path;
  image : path;
  audio : path;
  start_time : Timecode;
  end_time : Timecode
}.

(** Lines 79-97: the record of scene [i] (0-based). *)
Definition make_scene (input_file file_ext : string)
    (scenes_dir images_dir audio_dir : path) (i : nat)
    (bounds : scene_bounds) : scene_record :=
  let scene_nr := PyStr.zfill 3 (PyStr.str (i + 1)) in
  let scene_file := scene_nr +:+ file_ext in
  let image_file := scene_nr +:+ ".jpg" in
  let audio_file := scene_nr +:+ ".mp3" in
  {| video := input_file;
     scene_nr := scene_nr;
     scene := os_path_join scenes_dir scene_file;
     image := os_path_join images_dir image_file;
     audio := os_path_join audio_dir audio_file;
     start_time := bounds.1;
     end_time := bounds.2 |}.

(** Lines 58-61: the directories of one video, emptied and created. *)
Definition make_video_dirs (video_dir scenes_dir images_dir audio_dir : path)
    : M unit :=
  video_dir_exists ← path_exists video_dir ;
  when video_dir_exists (rmtree video_dir) ;;
  for_each [video_dir; scenes_dir; images_dir; audio_dir]
    (fun create_dir => makedirs create_dir false).

(** Lines 78-98: the loop that yields; [body] is the body of
    [for scene in scene_generator(...)], run between two yields with the
    variables of the consuming loop in [acc]. *)
Definition yield_scenes {A} (input_file file_ext : string)
    (scenes_dir images_dir audio_dir : path)
    (scene_list : list scene_bounds) (body : A -> scene_record -> M A)
    (acc : A) : M A :=
  fold_m
    (fun acc entry =>
       let yielded :=
         make_scene input_file file_ext scenes_dir images_dir audio_dir
           entry.1 entry.2 in
       video_to_audio yielded.(scene) yielded.(audio) ;;
       body acc yielded)
    acc (enumerate scene_list).

(** The generator, together with the loop that consumes it. *)
Definition scene_generator {A} (input_folder : path) (input_file : string)
    (output_folder : path) (body : A -> scene_record -> M A) (acc : A)
    : M A :=
  let input_path := os_path_join input_folder input_file in
  scene_list ← detect input_path true ;
  let file_name := (splitext input_file).1 in
  let file_ext := (splitext input_file).2 in
  let videos_dir := os_path_join output_folder "videos" in
  let video_dir := os_path_join videos_dir file_name in
  let scenes_dir := os_path_join video_dir "scenes" in
  let audio_dir := os_path_join video_dir "audio" in
  let images_dir := os_path_join video_dir "images" in
  make_video_dirs video_dir scenes_dir images_dir audio_dir ;;
  save_images input_path scene_list images_dir "$SCENE_NUMBER" ;;
  split_video_ffmpeg input_path scene_list scenes_dir
    ("$SCENE_NUMBER" +:+ file_ext) ;;
  yield_scenes input_file file_ext scenes_dir images_dir audio_dir
    scene_list body acc.

Definition no_transcription : string := "NO TRANSCRIPTION FOUND".

(** [res.get("text", "NO TRANSCRIPTION FOUND")] *)
Definition transcription_of (res : gmap string string) : string :=
  default no_transcription (res !! "text").

Definition transcribe_row (sc : scene_record) (transcription : string)
    : list string :=
  [sc.(video); sc.(scene_nr); path_text sc.(scene);
   path_text sc.(image); timecode_text sc.(start_time);
   timecode_text sc.(end_time); transcription].

(** Lines 117-129: the body of the loop over the scenes. *)
Definition transcribe_scene (rows : list (list string))
    (sc : scene_record) : M (list (list string)) :=
  res ← transcribe sc.(audio) ;
  ret (rows ++ [transcribe_row sc (transcription_of res)]).

(** Lines 110-132: one video. *)
Definition transcribe_one (output_folder input_folder output_csv : path)
    (input_file : string) : M unit :=
  rows ← scene_generator input_folder input_file output_folder
           transcribe_scene [] ;
  for_each rows (writerow output_csv).

Definition main (output_folder input_folder : path)
    (input_files : list string) : M unit :=
  pipeline "automatic-speech-recognition" "distil-whisper/distil-large-v3" ;;
  let output_csv := os_path_join output_folder "scenes.csv" in
  open_a output_csv ;;
  for_each input_files
    (transcribe_one output_folder input_folder output_csv).

(** Lines 143-149: the scan that builds [todo]. *)
Fixpoint scan_todo (files done todo : list string) : list string :=
  match files with
  | [] => todo
  | file :: files' =>
      if negb (is_video_file file) then scan_todo files' done todo
      else if bool_decide (file ∈ done) then scan_todo files' done todo
      else scan_todo files' done (todo ++ [file])
  end.

Definition transcribe_todo (files done : list string) : list string :=
  scan_todo files done [].

(** Lines 142-151, for [folder] and [--output] already parsed. *)
Definition transcribe_script (folder output : path) : M unit :=
  done ← init_folder output ;
  files ← listdir folder ;
  main output folder (transcribe_todo files done).

End Pipeline.

(** ** Sample inputs *)

Module Sample.

(** Time codes that are plain numbers of seconds. *)
Definition seconds : FrameTimecode :=
  {| Timecode := nat; seconds_text := PyStr.str; timecode_text := PyStr.str |}.

Definition three_scenes : list (@scene_bounds seconds) :=
  [(0, 5); (5, 9); (9, 12)]%nat.

(** A detector that finds three scenes in every video, and a recogniser
    that hears nothing: its result holds the text [""]. *)
Definition three_silent_scenes : @Collaborators seconds :=
  {| detect_scenes := fun _ _ _ => three_scenes;
     transcriber := fun _ _ => {[ "text" := "" ]};
     pipeline_error := fun _ => None |}.

(** A recogniser whose result has no ["text"] entry at all. *)
Definition three_textless_scenes : @Collaborators seconds :=
  {| detect_scenes := fun _ _ _ => three_scenes;
     transcriber := fun _ _ => ∅;
     pipeline_error := fun _ => None |}.

(** The folder [vids] with [a.mp4] and [notes.txt], nothing else. *)
Definition vids_folder : gmap path node :=
  <[ ["vids"; "a.mp4"] := File [] ]>
    (<[ ["vids"; "notes.txt"] := File [] ]> (<[ ["vids"] := Dir ]> ∅)).

Definition fresh : @world seconds := World vids_folder [].

(** The same folder next to an output folder [out] whose ledger was
    emptied. *)
Definition emptied_ledger : @world seconds :=
  World (<[ ["out"; "scenes.csv"] := File [] ]>
           (<[ ["out"] := Dir ]> vids_folder)) [].

(** An output folder [out] that lost its ledger. *)
Definition lost_ledger : @world seconds :=
  World (<[ ["out"] := Dir ]> vids_folder) [].

(** The ledger of a run that logged [a.mp4]. *)
Definition logged_rows : list (list string) :=
  [transcribe_header;
   ["a.mp4"; "001"; "out/videos/a/scenes/001.mp4";
    "out/videos/a/images/001.jpg"; "0"; "5"; "hello"]].

(** An output folder [out] left by a run that logged [a.mp4], with a
    stale file in the directory of that video. *)
Definition logged_a : @world seconds :=
  World (<[ ["out"; "scenes.csv"] := File logged_rows ]>
           (<[ ["out"; "videos"; "a"; "stale.txt"] := File [] ]>
              (<[ ["out"; "videos"; "a"] := Dir ]>
                 (<[ ["out"; "videos"] := Dir ]>
                    (<[ ["out"] := Dir ]> vids_folder))))) [].

(** The same, with a file [a.mov] next to [a.mp4] in [vids]. *)
Definition logged_a_beside_a_mov : @world seconds :=
  World (<[ ["vids"; "a.mov"] := File [] ]> (fs logged_a)) [].

(** The first scene of [a.mp4] as [scene_generator] yields it. *)
Definition first_bounds : @scene_bounds seconds := (0, 5)%nat.

Definition scene_1 : @scene_record seconds :=
  make_scene "a.mp4" ".mp4" ["out"; "videos"; "a"; "scenes"]
    ["out"; "videos"; "a"; "images"] ["out"; "videos"; "a"; "audio"]
    0 first_bounds.

(** A first run of [transcribe.py] on the fresh folder, and its trace. *)
Definition first_run : @world seconds :=
  (transcribe_script (collaborators := three_silent_scenes)
     ["vids"] ["out"] fresh).2.

Definition first_run_trace : list (@event seconds) :=
  Eval vm_compute in trace first_run.

(** A detector that finds no scene at all. *)
Definition no_scenes : @Collaborators seconds :=
  {| detect_scenes := fun _ _ _ => [];
     transcriber := fun _ _ => ∅;
     pipeline_error := fun _ => None |}.

(** An output folder [out] whose ledger holds the header of
    [split_video.py] and nothing else. *)
Definition header_only : @world seconds :=
  World (<[ ["out"; "scenes.csv"] := File [split_header] ]>
           (<[ ["out"] := Dir ]> vids_folder)) [].


(** An output folder [out] where [videos] is a regular file. *)
Definition blocked_videos : @world seconds :=
  World (<[ ["out"; "scenes.csv"] := File [transcribe_header] ]>
           (<[ ["out"; "videos"] := File [] ]>
              (<[ ["out"] := Dir ]> vids_folder))) [].

(** The folder [vids] with [a.mp4] and [a.mov], next to an output folder
    [out] with a new ledger. *)
Definition two_of_a_name : @world seconds :=
  World (<[ ["out"; "scenes.csv"] := File [transcribe_header] ]>
           (<[ ["out"; "videos"] := Dir ]>
              (<[ ["out"] := Dir ]>
                 (<[ ["vids"; "a.mov"] := File [] ]> vids_folder)))) [].

(** The ledger that a run of [transcribe.py] on that folder leaves. *)
Definition two_of_a_name_ledger : list (list string) :=
  Eval vm_compute in
    match
      fs (transcribe_script (collaborators := three_silent_scenes)
            ["vids"] ["out"] two_of_a_name).2 !! ["out"; "scenes.csv"]
    with
    | Some (File rows) => rows
    | _ => []
    end.

End Sample.

(** * Vocabulary of the properties *)

Section Vocabulary.

Context {frame_timecode : FrameTimecode}.

(** [m] relates the world it starts in to the world it leaves, whether
    it returns or raises. *)
Definition always (R : world -> world -> Prop) {A} (m : M A) : Prop :=
  forall w, R w (m w).2.

(** From [m] to [m'] nothing changed but directories appearing on the way
    to [p]. *)
Definition grows (p : path) (m m' : gmap path node) : Prop :=
  forall q,
    m' !! q = m !! q
    \/ (m !! q = None /\ m' !! q = Some Dir /\ q `prefix_of` p).

(** The same for worlds; the trace stands still. *)
Definition grows_quietly (p : path) (w w' : world) : Prop :=
  grows p (fs w) (fs w') /\ trace w' = trace w.

(** No proper ancestor of [p] is a regular file. *)
Definition no_file_above (m : gmap path node) (p : path) : Prop :=
  forall q rows, q `prefix_of` p -> q <> p -> node_at m q <> Some (File rows).

(** The events that [w'] has in addition to [w] all satisfy [P]. *)
Definition logs (P : event -> Prop) (w w' : world) : Prop :=
  exists added, trace w' = trace w ++ added /\ Forall P added.

(** A step that leaves the file system alone and logs [added]. *)
Definition only_logs (added : list event) (w w' : world) : Prop :=
  fs w' = fs w /\ trace w' = trace w ++ added.

(** Outside the region [D], every entry of [w] is still there in [w']. *)
Definition keeps (D : path -> Prop) (w w' : world) : Prop :=
  forall q n, ~ D q -> fs w !! q = Some n -> fs w' !! q = Some n.

(** The file [csv_file], where it is one, has only grown, by rows that
    satisfy [Q]. *)
Definition appends (csv_file : path) (Q : list string -> Prop)
    (w w' : world) : Prop :=
  forall rows,
    fs w !! csv_file = Some (File rows) ->
    exists new, fs w' !! csv_file = Some (File (rows ++ new)) /\ Forall Q new.

(** The file system after [new] rows were appended to [csv_file]. *)
Definition append_rows (csv_file : path) (new : list (list string))
    (m : gmap path node) : gmap path node :=
  match m !! csv_file with
  | Some (File rows) => <[csv_file := File (rows ++ new)]> m
  | _ => m
  end.

Definition is_row (e : event) : bool :=
  match e with
  | EWriteRow _ _ => true
  | _ => false
  end.

Definition is_dir_event (e : event) : bool :=
  match e with
  | ERmtree _ | EMakedirs _ => true
  | _ => false
  end.

(** A trace made of whole videos: the events [pre] that produce the
    artifacts of a video, then its ledger [rows], with events that write
    no row in between. *)
Inductive run_log (block : list event -> list (list string) -> Prop)
    (csv_file : path) : list event -> Prop :=
| run_log_nil : run_log block csv_file []
| run_log_skip e rest :
    is_row e = false ->
    run_log block csv_file rest ->
    run_log block csv_file (e :: rest)
| run_log_video pre rows rest :
    block pre rows ->
    run_log block csv_file rest ->
    run_log block csv_file (pre ++ map (EWriteRow csv_file) rows ++ rest).

(** The trace of [w'] continues that of [w] with whole videos. *)
Definition logs_videos (block : list event -> list (list string) -> Prop)
    (csv_file : path) (w w' : world) : Prop :=
  exists added, trace w' = trace w ++ added /\ run_log block csv_file added.

(** The ledger rows of [split_video.py] for a scene list. *)
Definition split_rows (video_name : string) (scene_list : list scene_bounds)
    : list (list string) :=
  map (fun entry => split_row video_name entry.1 entry.2)
    (enumerate scene_list).

(** What [split_video.py] does for a video before it writes its rows. *)
Definition split_artifacts (input_folder images videos : path)
    (video_file : string) (scene_list : list scene_bounds) : list event :=
  let video_path := os_path_join input_folder video_file in
  [EDetect video_path false;
   ESaveImages video_path scene_list images
     "$VIDEO_NAME-Scene-$SCENE_NUMBER-$IMAGE_NUMBER";
   ESplitVideo video_path scene_list videos
     "$VIDEO_NAME-Scene-$SCENE_NUMBER.mp4"].

Definition split_block (input_folder images videos : path)
    (pre : list event) (rows : list (list string)) : Prop :=
  exists video_file scene_list,
    pre = split_artifacts input_folder images videos video_file scene_list
    /\ rows = split_rows (splitext video_file).1 scene_list.

(** The directory of a video below the output folder of [transcribe.py],
    and its three subdirectories. *)
Definition video_dir_of (output_folder : path) (input_file : string) : path :=
  os_path_join (os_path_join output_folder "videos") (splitext input_file).1.

Definition scenes_dir_of (output_folder : path) (input_file : string) : path :=
  os_path_join (video_dir_of output_folder input_file) "scenes".

Definition images_dir_of (output_folder : path) (input_file : string) : path :=
  os_path_join (video_dir_of output_folder input_file) "images".

Definition audio_dir_of (output_folder : path) (input_file : string) : path :=
  os_path_join (video_dir_of output_folder input_file) "audio".

(** The records that [scene_generator] yields for a scene list. *)
Definition yielded_scenes (output_folder : path) (input_file : string)
    (scene_list : list scene_bounds) : list scene_record :=
  map (fun entry =>
         make_scene input_file (splitext input_file).2
           (scenes_dir_of output_folder input_file)
           (images_dir_of output_folder input_file)
           (audio_dir_of output_folder input_file) entry.1 entry.2)
    (enumerate scene_list).

(** The audio extraction and the transcription of each scene in turn. *)
Definition scene_events (scenes : list scene_record) : list event :=
  flat_map (fun sc => [EVideoToAudio sc.(scene) sc.(audio);
                       ETranscribe sc.(audio)]) scenes.

(** What [transcribe.py] does for a video before it writes its rows:
    detection, the directories ([setup]), images and clips, then audio and
    transcription scene by scene. *)
Definition transcribe_artifacts (input_folder output_folder : path)
    (input_file : string) (scene_list : list scene_bounds)
    (setup : list event) : list event :=
  let input_path := os_path_join input_folder input_file in
  EDetect input_path true
  :: setup
  ++ [ESaveImages input_path scene_list
        (images_dir_of output_folder input_file) "$SCENE_NUMBER";
      ESplitVideo input_path scene_list
        (scenes_dir_of output_folder input_file)
        ("$SCENE_NUMBER" +:+ (splitext input_file).2)]
  ++ scene_events (yielded_scenes output_folder input_file scene_list).

Definition transcribe_block (input_folder output_folder : path)
    (pre : list event) (rows : list (list string)) : Prop :=
  exists input_file scene_list setup texts,
    pre = transcribe_artifacts input_folder output_folder input_file
            scene_list setup
    /\ Forall (fun e => is_dir_event e = true) setup
    /\ length texts = length scene_list
    /\ rows = zip_with transcribe_row
                (yielded_scenes output_folder input_file scene_list) texts.


(** Lines 13-17 of [split_video.py]: the output directories. *)
Definition split_setup (output_folder : path) : M unit :=
  makedirs output_folder true ;;
  makedirs (os_path_join output_folder "images") true ;;
  makedirs (os_path_join output_folder "videos") true.

(** The file [csv_file] holds exactly [rows]. *)
Definition ledger_is (csv_file : path) (rows : list (list string))
    (w : world) : Prop :=
  node_at (fs w) csv_file = Some (File rows).

(** The text holds no carriage return: it is read back as it was
    written. *)
Fixpoint no_carriage_return (s : string) : bool :=
  match s with
  | EmptyString => true
  | String c s' => negb (Ascii.eqb c "013") && no_carriage_return s'
  end.

(** Every field of the rows is within the limit that [csv] puts on the
    length of a field when it reads. *)
Definition within_field_limit (rows : list (list string)) : Prop :=
  Forall (Forall (fun cell => Z.of_nat (String.length cell) <= 131072)) rows.

(** Every proper ancestor of [p] is a directory, as it is for a path that
    exists. *)
Definition dirs_above (m : gmap path node) (p : path) : Prop :=
  forall q, q `prefix_of` p -> q <> p -> node_at m q = Some Dir.

(** The videos of [input_folder] that [split_video.py] logs under
    [video_name]. *)
Definition named (input_folder : path) (video_name : string) (video : path)
    : Prop :=
  exists video_file,
    video = os_path_join input_folder video_file
    /\ (splitext video_file).1 = video_name.

(** Two relations at once. *)
Definition both (R1 R2 : world -> world -> Prop) (w w' : world) : Prop :=
  R1 w w' /\ R2 w w'.

(** [m] relates start and end when it starts in a world where [I]
    holds. *)
Definition from (I : world -> Prop) (R : world -> world -> Prop) {A}
    (m : M A) : Prop :=
  forall w, I w -> R w (m w).2.

(** The video an event works on, and the video name a written row starts
    with. *)
Definition event_video (e : event) : option path :=
  match e with
  | EDetect video _ | ESaveImages video _ _ _ | ESplitVideo video _ _ _ =>
      Some video
  | _ => None
  end.

Definition written_name (e : event) : option string :=
  match e with
  | EWriteRow _ row => head row
  | _ => None
  end.

(** The event is no work on one of the videos [is_video], and no row
    under [name]. *)
Definition spares (is_video : path -> Prop) (name : string) (e : event)
    : Prop :=
  (forall video, event_video e = Some video -> ~ is_video video)
  /\ written_name e <> Some name.

(** The paths below the working directory that an event makes, removes,
    fills, reads or writes; the video that is opened, the folder that is
    listed and the recogniser that is loaded are none of them. *)
Definition event_paths (e : event) : list path :=
  match e with
  | EMakedirs dir | ERmtree dir => [dir]
  | ECreate file => [file]
  | ESaveImages _ _ output_dir _ | ESplitVideo _ _ output_dir _ => [output_dir]
  | EVideoToAudio input output => [input; output]
  | ETranscribe audio => [audio]
  | EWriteRow csv_file _ => [csv_file]
  | EListdir _ | EDetect _ _ | EPipeline _ _ => []
  end.

(** The event stays out of the directory [dir]: none of its paths lies
    in [dir], and none is a directory that [dir] lies in. *)
Definition stays_out_of (dir : path) (e : event) : Prop :=
  Forall (fun p => ~ dir `prefix_of` p /\ ~ p `prefix_of` dir) (event_paths e).

(** From [w] to [w'] nothing changed at the paths of [U]: no entry was
    changed, removed or added there. *)
Definition unchanged (U : path -> Prop) (w w' : world) : Prop :=
  forall q, U q -> fs w' !! q = fs w !! q.

(** What [transcribe.py] may log while it works on [input_file]: the
    detection on that file, the removal of its directory, and work in
    that directory; then rows that start with its name. *)
Definition video_event (input_folder output_folder : path)
    (input_file : string) (e : event) : Prop :=
  let input_path := os_path_join input_folder input_file in
  let video_dir := video_dir_of output_folder input_file in
  match e with
  | EDetect video _ => video = input_path
  | ERmtree dir => dir = video_dir
  | EMakedirs dir => video_dir `prefix_of` dir
  | ESaveImages video _ dir _ | ESplitVideo video _ dir _ =>
      video = input_path /\ video_dir `prefix_of` dir
  | EVideoToAudio input output =>
      video_dir `prefix_of` input /\ video_dir `prefix_of` output
  | ETranscribe audio => video_dir `prefix_of` audio
  | EWriteRow csv_file row =>
      csv_file = os_path_join output_folder "scenes.csv"
      /\ head row = Some input_file
  | _ => False
  end.

(** What a run of [transcribe.py] on an output folder that is there may
    log: the listing of the input folder, the loading of the recogniser,
    and the events of the files of [todo]. *)
Definition run_event (input_folder output_folder : path)
    (todo : list string) (e : event) : Prop :=
  e = EListdir input_folder
  \/ (exists task model, e = EPipeline task model)
  \/ exists input_file,
       input_file ∈ todo
       /\ video_event input_folder output_folder input_file e.

(** A run that leaves a logged video alone: no event works on it, and
    the ledger only grows, by rows of other videos. *)
Definition leaves_alone (is_video : path -> Prop) (name : string)
    (csv_file : path) : world -> world -> Prop :=
  both (logs (spares is_video name))
       (appends csv_file (fun row => head row <> Some name)).

End Vocabulary.

(** ** Vocabulary of whole runs *)

Section RunVocabulary.

Context {frame_timecode : FrameTimecode} {collaborators : Collaborators}.

(** Lines 19-77 of [split_video.py]: what [split_video_scenes] does once
    the output directories are there. *)
Definition split_after_setup (input_folder output_folder csv_file : path)
    : M unit :=
  csv_exists ← path_exists csv_file ;
  when (negb csv_exists) (open_w csv_file [split_header]) ;;
  processed_videos ← read_processed csv_file ;
  vids ← listdir input_folder ;
  for_each vids
    (split_step input_folder (os_path_join output_folder "images")
       (os_path_join output_folder "videos") csv_file processed_videos).

(** The video that an event opens for scene detection, and the videos
    that a piece of trace opens, in order. *)
Definition opened (e : event) : option path :=
  match e with
  | EDetect video _ => Some video
  | _ => None
  end.

Definition videos_opened (added : list event) : list path :=
  omap opened added.

(** The row that an event writes to [csv_file], and the rows that a piece
    of trace writes there, in order. *)
Definition row_written (csv_file : path) (e : event) : option (list string) :=
  match e with
  | EWriteRow c row => if decide (c = csv_file) then Some row else None
  | _ => None
  end.

Definition rows_written (csv_file : path) (added : list event)
    : list (list string) :=
  omap (row_written csv_file) added.

(** The file [csv_file], where it is one, has grown by just the rows that
    the trace says were written to it. *)
Definition records (csv_file : path) (w w' : world) : Prop :=
  forall rows,
    fs w !! csv_file = Some (File rows) ->
    exists added,
      trace w' = trace w ++ added
      /\ fs w' !! csv_file
         = Some (File (rows ++ rows_written csv_file added)).

(** The video and the scene list that an event hands to the clip
    writer, and the calls of the clip writer in a piece of trace, in
    order. *)
Definition clip_cut (e : event) : option (path * list scene_bounds) :=
  match e with
  | ESplitVideo video scene_list _ _ => Some (video, scene_list)
  | _ => None
  end.

Definition clips_cut (added : list event) : list (path * list scene_bounds) :=
  omap clip_cut added.

(** The file [csv_file], where it is one, has grown by the rows of whole
    groups, one for each call of the clip writer in the trace: [key]
    gives the video and the scene list of a group, [rows_of] its
    rows. *)
Definition logs_whole_videos {G} (csv_file : path)
    (rows_of : G -> list (list string))
    (key : G -> path * list scene_bounds) (whole : G -> Prop)
    (w w' : world) : Prop :=
  forall rows,
    fs w !! csv_file = Some (File rows) ->
    exists added groups,
      trace w' = trace w ++ added
      /\ Forall whole groups
      /\ clips_cut added = map key groups
      /\ fs w' !! csv_file
         = Some (File (rows ++ concat (map rows_of groups))).

(** The event removes no directory tree. *)
Definition no_rmtree (e : event) : Prop :=
  match e with
  | ERmtree _ => False
  | _ => True
  end.

(** What a run of [split_video.py] may log: no removal of a directory
    tree, and the image and clip writers are sent to the directories
    [images] and [videos] only. *)
Definition split_event (images videos : path) (e : event) : Prop :=
  match e with
  | ERmtree _ => False
  | ESaveImages _ _ output_dir _ => output_dir = images
  | ESplitVideo _ _ output_dir _ => output_dir = videos
  | _ => True
  end.

(** The event removes no directory tree but that of a video below
    [output_folder]. *)
Definition rmtree_of_video_dir (output_folder : path) (e : event) : Prop :=
  match e with
  | ERmtree dir => exists input_file, dir = video_dir_of output_folder input_file
  | _ => True
  end.

(** The paths that a run of [transcribe.py] may change or remove: the
    ledger and what lies in the directory of some video. *)
Definition transcribe_region (output_folder : path) (q : path) : Prop :=
  q = os_path_join output_folder "scenes.csv"
  \/ exists input_file, video_dir_of output_folder input_file `prefix_of` q.

End RunVocabulary.

(** * Properties *)

(** ** Strings *)

Section StringFacts.

Lemma app_cons (c : ascii) (a b : string) :
  String c a +:+ b = String c (a +:+ b).
Proof. reflexivity. Qed.

Lemma app_empty (b : string) : "" +:+ b = b.
Proof. reflexivity. Qed.

Lemma len_app (a b : string) :
  PyStr.len (a +:+ b) = (PyStr.len a + PyStr.len b)%nat.
Proof. induction a as [|c a IH]; simpl; [reflexivity | now rewrite IH]. Qed.

Lemma drop_len_app (a b : string) : PyStr.drop (PyStr.len a) (a +:+ b) = b.
Proof. induction a as [|c a IH]; simpl; [now destruct b | exact IH]. Qed.

Lemma take_drop (n : nat) (s : string) : PyStr.take n s +:+ PyStr.drop n s = s.
Proof.
  revert s; induction n as [|n IH]; intros [|c s]; simpl; try reflexivity.
  now rewrite app_cons, IH.
Qed.

Lemma len_drop (n : nat) (s : string) :
  PyStr.len (PyStr.drop n s) = (PyStr.len s - n)%nat.
Proof.
  revert s; induction n as [|n IH]; intros [|c s]; simpl; try reflexivity.
  apply IH.
Qed.

(** [endswith] is what its name says. *)
Lemma endswith_spec (s suffix : string) :
  PyStr.endswith s suffix = true <-> exists front, s = front +:+ suffix.
Proof.
  unfold PyStr.endswith. rewrite andb_true_iff, Nat.leb_le, String.eqb_eq. split.
  - intros [_ Hdrop].
    exists (PyStr.take (PyStr.len s - PyStr.len suffix) s).
    rewrite <- Hdrop at 2. now rewrite take_drop.
  - intros [front ->]. rewrite len_app. split; [lia|].
    replace (PyStr.len front + PyStr.len suffix - PyStr.len suffix)%nat
      with (PyStr.len front) by lia.
    apply drop_len_app.
Qed.

(** Two suffixes of equal length of one string are equal. *)
Lemma endswith_same_len (front ext suffix : string) :
  PyStr.endswith (front +:+ ext) suffix = true ->
  PyStr.len ext = PyStr.len suffix ->
  ext = suffix.
Proof.
  unfold PyStr.endswith. rewrite andb_true_iff, String.eqb_eq, len_app.
  intros [_ Hdrop] Hlen. rewrite <- Hdrop, <- Hlen.
  replace (PyStr.len front + PyStr.len ext - PyStr.len ext)%nat
    with (PyStr.len front) by lia.
  now rewrite drop_len_app.
Qed.

Lemma len_lower (s : string) : PyStr.len (PyStr.lower s) = PyStr.len s.
Proof. induction s as [|c s IH]; simpl; [reflexivity | now rewrite IH]. Qed.

Lemma is_video_file_spec (file : string) :
  is_video_file file = true <->
  exists ext, ext ∈ video_extensions /\ PyStr.endswith file ext = true.
Proof.
  unfold is_video_file, PyStr.endswith_any. rewrite existsb_exists.
  split; intros (ext & Hin & Hends); exists ext; split; try assumption;
    now apply list_elem_of_In.
Qed.

(** The allow-list is lower case, four characters each. *)
Lemma video_extension_shape (ext : string) :
  ext ∈ video_extensions -> PyStr.lower ext = ext /\ PyStr.len ext = 4%nat.
Proof.
  unfold video_extensions. rewrite !elem_of_cons, elem_of_nil.
  intros [-> | [-> | [-> | [-> | []]]]]; split; reflexivity.
Qed.

End StringFacts.

(** ** Running monadic code *)

Section MonadFacts.

Context {frame_timecode : FrameTimecode}.

Lemma run_bind {A B} (m : M A) (k : A -> M B) (w : world) :
  (m ≫= k) w =
  match m w with
  | (Ok a, w') => k a w'
  | (Raise e, w') => (Raise e, w')
  end.
Proof. reflexivity. Qed.

Lemma run_ret {A} (a : A) (w : world) : ret a w = (Ok a, w).
Proof. reflexivity. Qed.

Lemma for_each_cons {A} (x : A) (l : list A) (body : A -> M unit) :
  for_each (x :: l) body = (body x ≫= fun _ => for_each l body).
Proof. reflexivity. Qed.

Lemma fold_m_cons {A B} (body : B -> A -> M B) (acc : B) (x : A)
    (l : list A) :
  fold_m body acc (x :: l) = (body acc x ≫= fun acc' => fold_m body acc' l).
Proof. reflexivity. Qed.

End MonadFacts.

(** ** The scanners *)

Section ScannerFacts.

Context {frame_timecode : FrameTimecode} {collaborators : Collaborators}.

Lemma split_skips_false (processed : gset string) (file : string) :
  split_skips processed file = false <->
  is_video_file file = true /\ (splitext file).1 ∉ processed.
Proof.
  unfold split_skips.
  rewrite orb_false_iff, negb_false_iff, bool_decide_eq_false. tauto.
Qed.

Lemma split_todo_elem (vids : list string) (processed : gset string)
    (file : string) :
  file ∈ split_todo vids processed <->
  file ∈ vids /\ is_video_file file = true /\ (splitext file).1 ∉ processed.
Proof.
  unfold split_todo. rewrite list_elem_of_filter, split_skips_false. tauto.
Qed.

(** The loop of lines 143-149 is a filter that keeps the listing order. *)
Lemma scan_todo_filter (files done todo : list string) :
  scan_todo files done todo =
  todo ++ filter (fun file => is_video_file file = true /\ file ∉ done) files.
Proof.
  revert todo; induction files as [|file files IH]; intros todo; simpl.
  - now rewrite app_nil_r.
  - rewrite filter_cons.
    destruct (decide (is_video_file file = true /\ file ∉ done))
      as [[Hext Hnew] | Hskip].
    + rewrite Hext. simpl. rewrite bool_decide_eq_false_2 by assumption.
      rewrite IH, <- app_assoc. reflexivity.
    + destruct (is_video_file file); simpl; [|apply IH].
      rewrite bool_decide_eq_true_2; [apply IH|].
      destruct (decide (file ∈ done)); [assumption | tauto].
Qed.

Lemma transcribe_todo_elem (files done : list string) (file : string) :
  file ∈ transcribe_todo files done <->
  file ∈ files /\ is_video_file file = true /\ file ∉ done.
Proof.
  unfold transcribe_todo. rewrite scan_todo_filter. simpl.
  rewrite list_elem_of_filter. tauto.
Qed.

(** The loop of [split_video_scenes] works on its to-do list. *)
Lemma split_loop_todo (input_folder images videos csv_file : path)
    (processed : gset string) (vids : list string) (w : world) :
  for_each vids (split_step input_folder images videos csv_file processed) w =
  for_each (split_todo vids processed)
    (split_one input_folder images videos csv_file) w.
Proof.
  revert w; induction vids as [|file vids IH]; intros w; [reflexivity|].
  unfold split_todo. rewrite filter_cons. fold (split_todo vids processed).
  rewrite for_each_cons, run_bind. unfold split_step at 1.
  destruct (decide (split_skips processed file = false)) as [Hkeep | Hskip].
  - rewrite Hkeep, for_each_cons, run_bind.
    destruct (split_one _ _ _ _ _ w) as [[[]|e] w1]; [apply IH | reflexivity].
  - destruct (split_skips processed file); [|contradiction].
    rewrite run_ret. apply IH.
Qed.

(** C7: a file that passes the extension test only after lower-casing is
    in neither to-do list; a logged video stays out of the to-do list of
    [split_video.py] whatever its extension is, and out of that of
    [transcribe.py] under every casing of its extension. *)
Theorem scanner_case_sensitive (vids : list string) (processed : gset string)
    (done : list string) :
  (forall file,
     is_video_file (PyStr.lower file) = true ->
     is_video_file file = false ->
     (file ∉ split_todo vids processed)
     /\ (file ∉ transcribe_todo vids done))
  /\ (forall file,
        ((splitext file).1 ∈ processed) -> file ∉ split_todo vids processed)
  /\ (forall base ext ext',
        ext ∈ video_extensions ->
        PyStr.lower ext' = ext ->
        base +:+ ext ∈ done ->
        base +:+ ext' ∉ transcribe_todo vids done).
Proof.
  split; [|split].
  - intros file _ Hno. rewrite split_todo_elem, transcribe_todo_elem.
    rewrite Hno. split; intros (_ & Habs & _); discriminate.
  - intros file Hin. rewrite split_todo_elem. tauto.
  - intros base ext ext' Hext Hlower Hdone.
    rewrite transcribe_todo_elem. intros (_ & Hvideo & Hnew).
    apply is_video_file_spec in Hvideo as (ext2 & Hext2 & Hends).
    destruct (video_extension_shape _ Hext) as [_ Hlen].
    destruct (video_extension_shape _ Hext2) as [Hlow2 Hlen2].
    assert (ext' = ext2) as ->.
    { apply (endswith_same_len base); [assumption|].
      rewrite <- (len_lower ext'). rewrite Hlower. congruence. }
    apply Hnew. rewrite Hlow2 in Hlower. now rewrite Hlower.
Qed.

End ScannerFacts.

(** ** Relations that every step of a run maintains *)

Section Invariants.

Context {frame_timecode : FrameTimecode}.
Context (R : world -> world -> Prop) {R_preorder : PreOrder R}.

Lemma always_ret {A} (a : A) : always R (ret a).
Proof. intros w. simpl. reflexivity. Qed.

Lemma always_raise {A} (e : exn) : always R (@raise _ A e).
Proof. intros w. simpl. reflexivity. Qed.

Lemma always_bind {A B} (m : M A) (k : A -> M B) :
  always R m -> (forall a, always R (k a)) -> always R (m ≫= k).
Proof.
  intros Hm Hk w. rewrite run_bind. specialize (Hm w).
  destruct (m w) as [[a|e] w1]; simpl in *; [|assumption].
  etransitivity; [exact Hm | apply Hk].
Qed.

Lemma always_when (b : bool) (m : M unit) : always R m -> always R (when b m).
Proof. intros Hm. destruct b; [exact Hm | apply always_ret]. Qed.

Lemma always_except_pass (e : exn) (m : M unit) :
  always R m -> always R (except_pass e m).
Proof.
  intros Hm w. unfold except_pass. specialize (Hm w).
  destruct (m w) as [[[]|e'] w1]; simpl in *; [assumption|].
  now destruct (decide (e' = e)).
Qed.

Lemma always_for_each {A} (l : list A) (body : A -> M unit) :
  (forall x, x ∈ l -> always R (body x)) -> always R (for_each l body).
Proof.
  induction l as [|x l IH]; intros Hbody; [apply always_ret|].
  rewrite for_each_cons. apply always_bind.
  - apply Hbody. left.
  - intros _. apply IH. intros y Hy. apply Hbody. now right.
Qed.

Lemma always_fold_m {A B} (body : B -> A -> M B) (l : list A) (acc : B) :
  (forall acc' x, x ∈ l -> always R (body acc' x)) ->
  always R (fold_m body acc l).
Proof.
  revert acc; induction l as [|x l IH]; intros acc Hbody; [apply always_ret|].
  rewrite fold_m_cons. apply always_bind.
  - apply Hbody. left.
  - intros acc'. apply IH. intros acc'' y Hy. apply Hbody. now right.
Qed.

End Invariants.

(** Apply a rule of [always]; the preorder is found by instance search. *)
Ltac always_by rule := apply rule; try solve [typeclasses eauto].

(** ** The file system *)

Section FileSystemFacts.

Context {frame_timecode : FrameTimecode}.

Lemma grows_refl (p : path) (m : gmap path node) : grows p m m.
Proof. intros q. now left. Qed.

Lemma grows_trans (p : path) (m1 m2 m3 : gmap path node) :
  grows p m1 m2 -> grows p m2 m3 -> grows p m1 m3.
Proof.
  intros H12 H23 q.
  destruct (H12 q) as [E12 | (N1 & D2 & Hq)], (H23 q) as [E23 | (N2 & D3 & _)].
  - left. congruence.
  - right. repeat split; [congruence | assumption | ].
    destruct (H23 q) as [E | (_ & _ & Hq)]; [congruence | assumption].
  - right. repeat split; [assumption | congruence | assumption].
  - congruence.
Qed.

Lemma grows_weaken (p p' : path) (m m' : gmap path node) :
  p `prefix_of` p' -> grows p m m' -> grows p' m m'.
Proof.
  intros Hpp H q. destruct (H q) as [E | (N & D & Hq)]; [now left|].
  right. repeat split; try assumption. now transitivity p.
Qed.

Lemma grows_insert (p : path) (m : gmap path node) :
  m !! p = None -> grows p m (<[p := Dir]> m).
Proof.
  intros Hnone q. destruct (decide (p = q)) as [<- | Hne].
  - right. now rewrite lookup_insert_eq.
  - left. now rewrite lookup_insert_ne.
Qed.

Lemma grows_keeps (p : path) (m m' : gmap path node) (q : path) (n : node) :
  grows p m m' -> m !! q = Some n -> m' !! q = Some n.
Proof. intros H Hq. destruct (H q) as [E | (N & _)]; congruence. Qed.

Global Instance grows_quietly_preorder (p : path) : PreOrder (grows_quietly p).
Proof.
  split.
  - intros w. split; [apply grows_refl | reflexivity].
  - intros w1 w2 w3 [G12 T12] [G23 T23]. split; [|congruence].
    now apply grows_trans with (fs w2).
Qed.

Lemma node_at_lookup (m : gmap path node) (p : path) :
  p <> [] -> node_at m p = m !! p.
Proof. now destruct p. Qed.

Lemma node_at_None (m : gmap path node) (p : path) :
  node_at m p = None -> p <> [] /\ m !! p = None.
Proof. destruct p; [discriminate | now intros]. Qed.

Lemma app_longer {A} (l : list A) (x : A) (k : list A) : l <> l ++ x :: k.
Proof.
  intros E. apply (f_equal length) in E. rewrite length_app in E.
  simpl in E. lia.
Qed.

(** The error of a path that does not resolve is [FileNotFoundError]
    where no regular file lies above the path. *)
Lemma resolve_error_no_file (m : gmap path node) (below : list string)
    (above : path) :
  (forall q rows, above `prefix_of` q -> q `prefix_of` above ++ below ->
     q <> above ++ below -> node_at m q <> Some (File rows)) ->
  resolve_error m above below = FileNotFoundError.
Proof.
  revert above; induction below as [|name below IH]; intros above Hfiles;
    [reflexivity|].
  cbn [resolve_error].
  destruct (node_at m above) as [[|rows]|] eqn:Habove; [|exfalso|reflexivity].
  - apply IH. intros q rows Hq1 Hq2 Hne. rewrite <- app_assoc in Hq2, Hne.
    apply Hfiles; try assumption.
    etransitivity; [|exact Hq1]. now apply prefix_app_r.
  - apply (Hfiles above rows); [reflexivity | now apply prefix_app_r | |
                                exact Habove].
    apply app_longer.
Qed.

Lemma missing_error_no_file (m : gmap path node) (p : path) :
  no_file_above m p -> missing_error m p = FileNotFoundError.
Proof.
  intros Hfiles. apply resolve_error_no_file. intros q rows _ Hq Hne.
  now apply Hfiles.
Qed.

(** It is [NotADirectoryError] where the walk meets a regular file. *)
Lemma resolve_error_below_file (m : gmap path node) (below : list string)
    (above : path) (name : string) (rest : list string)
    (rows : list (list string)) :
  (forall q, above `prefix_of` q -> q `prefix_of` above ++ below ->
     q <> above ++ below -> node_at m q = Some Dir) ->
  node_at m (above ++ below) = Some (File rows) ->
  resolve_error m above (below ++ name :: rest) = NotADirectoryError.
Proof.
  revert above; induction below as [|b below IH]; intros above Hdirs Hfile.
  - rewrite app_nil_r in Hfile. cbn [app resolve_error]. now rewrite Hfile.
  - cbn [app resolve_error].
    rewrite (Hdirs above); [|reflexivity | now apply prefix_app_r
                            | apply app_longer].
    apply IH.
    + intros q Hq1 Hq2 Hne. rewrite <- app_assoc in Hq2, Hne.
      apply Hdirs; try assumption.
      etransitivity; [|exact Hq1]. now apply prefix_app_r.
    + now rewrite <- app_assoc.
Qed.

Lemma missing_error_below_file (m : gmap path node) (q p : path)
    (rows : list (list string)) :
  dirs_above m q -> node_at m q = Some (File rows) ->
  q `prefix_of` p -> q <> p ->
  missing_error m p = NotADirectoryError.
Proof.
  intros Hdirs Hfile [k ->] Hne. destruct k as [|name rest].
  - now rewrite app_nil_r in Hne.
  - apply (resolve_error_below_file m q [] name rest rows); [|exact Hfile].
    intros q' _ Hq' Hne'. now apply Hdirs.
Qed.

Lemma mkdir_grows (p : path) : always (grows_quietly p) (mkdir p).
Proof.
  intros w. unfold mkdir. rewrite run_bind. simpl.
  destruct (node_at (fs w) p) eqn:Hp; [simpl; reflexivity|].
  apply node_at_None in Hp as [_ Hp].
  destruct (node_at (fs w) (removelast p)) as [[|rows]|]; simpl;
    try reflexivity.
  split; [now apply grows_insert | reflexivity].
Qed.

Lemma mkdir_leaf_grows (p : path) (exist_ok : bool) :
  always (grows_quietly p) (mkdir_leaf p exist_ok).
Proof.
  intros w. unfold mkdir_leaf. pose proof (mkdir_grows p w) as H.
  destruct (mkdir p w) as [[[]|e] w1]; simpl in *; [assumption|].
  now destruct (exist_ok && is_dir (fs w1) p).
Qed.

Lemma path_exists_same (R : world -> world -> Prop) `{!PreOrder R}
    (p : path) : always R (path_exists p).
Proof. intros w. simpl. reflexivity. Qed.

(** Whatever [os.makedirs] does, it only adds directories on the way to
    its argument. *)
Lemma makedirs_rev_grows (rname : list string) (exist_ok : bool) :
  always (grows_quietly (rev rname)) (makedirs_rev rname exist_ok).
Proof.
  induction rname as [|tail rhead IH]; [always_by always_raise|].
  cbn [makedirs_rev].
  always_by always_bind; [always_by path_exists_same|].
  intros head_exists.
  always_by always_bind; [|intros _; apply mkdir_leaf_grows].
  always_by always_when. always_by always_except_pass.
  intros w. destruct (IH w) as [G T]. split; [|assumption].
  apply grows_weaken with (rev rhead); [|assumption].
  simpl. now apply prefix_app_r.
Qed.

Lemma makedirs_rev_ok (rname : list string) (exist_ok : bool) (w : world) :
  node_at (fs w) (rev rname) = None ->
  no_file_above (fs w) (rev rname) ->
  exists m',
    makedirs_rev rname exist_ok w = (Ok tt, World m' (trace w))
    /\ m' !! rev rname = Some Dir
    /\ grows (rev rname) (fs w) m'.
Proof.
  revert w; induction rname as [|tail rhead IH]; intros w Hnone Hfiles;
    [discriminate|].
  apply node_at_None in Hnone as [Hne Hnone].
  assert (Hpre : rev rhead `prefix_of` rev (tail :: rhead))
    by (simpl; now apply prefix_app_r).
  assert (Hlt : rev rhead <> rev (tail :: rhead)).
  { simpl. intros E. apply (f_equal length) in E.
    rewrite length_app in E. simpl in E. lia. }
  assert (Hparent : removelast (rev (tail :: rhead)) = rev rhead)
    by (simpl; apply removelast_last).
  cbn [makedirs_rev]. rewrite run_bind. unfold path_exists at 1.
  destruct (node_at (fs w) (rev rhead)) as [n|] eqn:Hhead.
  - rewrite bool_decide_eq_true_2 by eauto. cbn [negb when].
    rewrite run_bind, run_ret. unfold mkdir_leaf, mkdir.
    rewrite run_bind. unfold get_fs at 1.
    rewrite (node_at_lookup _ _ Hne), Hnone, Hparent, Hhead.
    destruct n as [|rows]; [|now destruct (Hfiles _ rows Hpre Hlt)].
    unfold set_fs. eexists. split; [reflexivity|]. split.
    + apply lookup_insert_eq.
    + now apply grows_insert.
  - rewrite bool_decide_eq_false_2 by (intros [? ?]; discriminate).
    cbn [negb when]. rewrite run_bind. unfold except_pass.
    destruct (IH w Hhead) as (m1 & Hrun & Hdir & Hgrows).
    { intros q rows Hq Hqne. apply Hfiles; [now transitivity (rev rhead)|].
      intros ->. apply Hqne. now apply (anti_symm prefix). }
    rewrite Hrun. unfold mkdir_leaf, mkdir.
    rewrite run_bind. unfold get_fs at 1. cbn [fs].
    assert (Hp1 : m1 !! rev (tail :: rhead) = None).
    { destruct (Hgrows (rev (tail :: rhead))) as [E | (_ & _ & Habs)];
        [congruence|].
      apply prefix_length in Habs. simpl in Habs.
      rewrite length_app in Habs. simpl in Habs. lia. }
    apply node_at_None in Hhead as [Hhne _].
    rewrite (node_at_lookup _ _ Hne), Hp1, Hparent.
    rewrite (node_at_lookup _ _ Hhne), Hdir.
    unfold set_fs. cbn [fs trace]. eexists. split; [reflexivity|]. split.
    + apply lookup_insert_eq.
    + apply grows_trans with m1.
      * now apply grows_weaken with (rev rhead).
      * now apply grows_insert.
Qed.
Lemma makedirs_ok (p : path) (exist_ok : bool) (w : world) :
  node_at (fs w) p = None ->
  no_file_above (fs w) p ->
  exists m',
    makedirs p exist_ok w = (Ok tt, World m' (trace w ++ [EMakedirs p]))
    /\ m' !! p = Some Dir
    /\ grows p (fs w) m'.
Proof.
  intros Hnone Hfiles. unfold makedirs. rewrite run_bind. unfold log at 1.
  destruct (makedirs_rev_ok (rev p) exist_ok
              (World (fs w) (trace w ++ [EMakedirs p])))
    as (m' & Hrun & Hdir & Hgrows); rewrite ?rev_involutive; try assumption.
  rewrite rev_involutive in *. exists m'. now rewrite Hrun.
Qed.

End FileSystemFacts.

(** ** What the primitives do *)

(** Run the primitives at the head of the goal. *)
Ltac run_prim :=
  repeat (rewrite run_bind;
          unfold log, get_fs, set_fs, path_exists; cbn beta iota;
          cbn [fs trace]).

(** ** Reading a ledger *)

Section ReaderFacts.

Lemma universal_newlines_plain (s : string) :
  no_carriage_return s = true -> universal_newlines s = s.
Proof.
  induction s as [|c s IH]; [reflexivity|].
  cbn [no_carriage_return universal_newlines].
  rewrite andb_true_iff, negb_true_iff. intros [-> Hs]. now rewrite IH.
Qed.

Lemma csv_reader_app (rows new : list (list string)) :
  csv_reader (rows ++ new) = csv_reader rows ++ csv_reader new.
Proof. apply map_app. Qed.

Lemma first_cells_csv_reader (rows : list (list string)) :
  first_cells (csv_reader rows) = map universal_newlines <$> first_cells rows.
Proof.
  induction rows as [|[|c row] rows IH]; cbn [csv_reader map first_cells];
    try reflexivity.
  fold (csv_reader rows). rewrite IH. now destruct (first_cells rows).
Qed.

Lemma csv_reader_blank (rows : list (list string)) :
  [] ∈ csv_reader rows <-> [] ∈ rows.
Proof.
  unfold csv_reader. rewrite list_elem_of_fmap. split.
  - intros ([|c row] & Heq & Hin); [assumption | discriminate].
  - intros Hin. now exists [].
Qed.

End ReaderFacts.

Section PrimitiveFacts.

Context {frame_timecode : FrameTimecode} {collaborators : Collaborators}.

Global Instance logs_preorder (P : event -> Prop) : PreOrder (logs P).
Proof.
  split.
  - intros w. exists []. now rewrite app_nil_r.
  - intros w1 w2 w3 (d1 & T1 & F1) (d2 & T2 & F2). exists (d1 ++ d2).
    rewrite T2, T1, <- app_assoc. split; [reflexivity|].
    now apply Forall_app.
Qed.

Global Instance keeps_preorder (D : path -> Prop) : PreOrder (keeps D).
Proof.
  split.
  - intros w q n _ H. exact H.
  - intros w1 w2 w3 K12 K23 q n Hq H. apply K23, K12; assumption.
Qed.

Global Instance appends_preorder (csv_file : path) (Q : list string -> Prop) :
  PreOrder (appends csv_file Q).
Proof.
  split.
  - intros w rows H. exists []. now rewrite app_nil_r.
  - intros w1 w2 w3 A12 A23 rows H.
    destruct (A12 rows H) as (new1 & H2 & F1).
    destruct (A23 _ H2) as (new2 & H3 & F2).
    exists (new1 ++ new2). rewrite app_assoc. split; [assumption|].
    now apply Forall_app.
Qed.

Lemma always_weaken (R R' : world -> world -> Prop) {A} (m : M A) :
  (forall w w', R w w' -> R' w w') -> always R m -> always R' m.
Proof. intros Himp Hm w. apply Himp, Hm. Qed.

Lemma only_logs_logs (P : event -> Prop) (added : list event) (w w' : world) :
  Forall P added -> only_logs added w w' -> logs P w w'.
Proof. intros HP [_ T]. now exists added. Qed.

Lemma only_logs_keeps (D : path -> Prop) (added : list event) (w w' : world) :
  only_logs added w w' -> keeps D w w'.
Proof. intros [F _] q n _ H. now rewrite F. Qed.

Lemma only_logs_appends (csv_file : path) (Q : list string -> Prop)
    (added : list event) (w w' : world) :
  only_logs added w w' -> appends csv_file Q w w'.
Proof.
  intros [F _] rows H. exists []. rewrite app_nil_r, F. now split.
Qed.

Lemma grows_quietly_logs (P : event -> Prop) (p : path) (w w' : world) :
  grows_quietly p w w' -> logs P w w'.
Proof. intros [_ T]. exists []. now rewrite app_nil_r. Qed.

Lemma grows_quietly_keeps (D : path -> Prop) (p : path) (w w' : world) :
  grows_quietly p w w' -> keeps D w w'.
Proof. intros [G _] q n _ H. now apply (grows_keeps p (fs w)). Qed.

Lemma grows_quietly_appends (csv_file : path) (Q : list string -> Prop)
    (p : path) (w w' : world) :
  grows_quietly p w w' -> appends csv_file Q w w'.
Proof.
  intros [G _] rows H. exists []. rewrite app_nil_r. split; [|constructor].
  now apply (grows_keeps p (fs w)).
Qed.

(** The primitives that only look. *)
Lemma path_exists_quiet (p : path) : always (only_logs []) (path_exists p).
Proof. intros w. split; simpl; [reflexivity | now rewrite app_nil_r]. Qed.

Lemma get_fs_quiet : always (only_logs []) get_fs.
Proof. intros w. split; simpl; [reflexivity | now rewrite app_nil_r]. Qed.

Lemma ret_quiet {A} (a : A) : always (only_logs []) (ret a).
Proof. intros w. split; simpl; [reflexivity | now rewrite app_nil_r]. Qed.

Lemma raise_quiet {A} (e : exn) : always (only_logs []) (@raise _ A e).
Proof. intros w. split; simpl; [reflexivity | now rewrite app_nil_r]. Qed.

Lemma read_csv_quiet (file : path) : always (only_logs []) (read_csv file).
Proof.
  intros w. unfold read_csv. rewrite run_bind. simpl.
  destruct (node_at (fs w) file) as [[|rows]|]; simpl;
    (split; [reflexivity | now rewrite app_nil_r]).
Qed.

Lemma read_csv_run (file : path) (rows : list (list string)) (w : world) :
  ledger_is file rows w -> read_csv file w = (Ok (csv_reader rows), w).
Proof.
  intros H. unfold ledger_is in H. unfold read_csv. rewrite run_bind.
  unfold get_fs. cbn beta iota. now rewrite H.
Qed.

Lemma read_processed_run (csv_file : path) (header : list string)
    (body : list (list string)) (cells : list string) (w : world) :
  ledger_is csv_file (header :: body) w ->
  first_cells (csv_reader body) = Some cells ->
  read_processed csv_file w = (Ok (list_to_set cells), w).
Proof.
  intros Hledger Hcells. unfold read_processed.
  rewrite run_bind, (read_csv_run _ _ _ Hledger).
  cbn [csv_reader map]. fold (csv_reader body).
  rewrite run_bind. unfold first_column. now rewrite Hcells.
Qed.

Lemma first_column_quiet (rows : list (list string)) :
  always (only_logs []) (first_column rows).
Proof.
  intros w. unfold first_column.
  destruct (first_cells rows); simpl; (split; [reflexivity | now rewrite app_nil_r]).
Qed.

(** The primitives that only log. *)
Lemma log_only (e : event) : always (only_logs [e]) (log e).
Proof. intros w. now split. Qed.

Lemma detect_only (video : path) (start_in_scene : bool) :
  always (only_logs [EDetect video start_in_scene])
    (detect video start_in_scene).
Proof. intros w. now split. Qed.

Lemma transcribe_only (audio : path) :
  always (only_logs [ETranscribe audio]) (transcribe audio).
Proof. intros w. now split. Qed.

Lemma pipeline_only (task model : string) :
  always (only_logs [EPipeline task model]) (pipeline task model).
Proof. intros w. unfold pipeline. cbv zeta. now destruct (pipeline_error w). Qed.

Lemma listdir_only (dir : path) : always (only_logs [EListdir dir]) (listdir dir).
Proof.
  intros w. unfold listdir. run_prim.
  destruct (node_at (fs w) dir) as [[|rows]|]; now split.
Qed.

(** The collaborators, run. *)
Lemma log_run (e : event) (w : world) :
  log e w = (Ok tt, World (fs w) (trace w ++ [e])).
Proof. reflexivity. Qed.

Lemma detect_run (video : path) (start_in_scene : bool) (w : world) :
  detect video start_in_scene w =
  (Ok (detect_scenes w video start_in_scene),
   World (fs w) (trace w ++ [EDetect video start_in_scene])).
Proof. reflexivity. Qed.

Lemma save_images_run (video : path) (scene_list : list scene_bounds)
    (output_dir : path) (template : string) (w : world) :
  save_images video scene_list output_dir template w =
  (Ok tt, World (fs w)
            (trace w ++ [ESaveImages video scene_list output_dir template])).
Proof. reflexivity. Qed.

Lemma split_video_ffmpeg_run (video : path) (scene_list : list scene_bounds)
    (output_dir : path) (template : string) (w : world) :
  split_video_ffmpeg video scene_list output_dir template w =
  (Ok tt, World (fs w)
            (trace w ++ [ESplitVideo video scene_list output_dir template])).
Proof. reflexivity. Qed.

Lemma video_to_audio_run (input output : path) (w : world) :
  video_to_audio input output w =
  (Ok tt, World (fs w) (trace w ++ [EVideoToAudio input output])).
Proof. reflexivity. Qed.

Lemma transcribe_scene_run (rows : list (list string)) (sc : scene_record)
    (w : world) :
  transcribe_scene rows sc w =
  (Ok (rows ++ [transcribe_row sc
                  (transcription_of (transcriber w sc.(audio)))]),
   World (fs w) (trace w ++ [ETranscribe sc.(audio)])).
Proof. reflexivity. Qed.

(** The primitives that change the file system. *)
Lemma makedirs_effect (p : path) (exist_ok : bool) (w : world) :
  grows p (fs w) (fs (makedirs p exist_ok w).2)
  /\ trace (makedirs p exist_ok w).2 = trace w ++ [EMakedirs p].
Proof.
  unfold makedirs. run_prim.
  pose proof (makedirs_rev_grows (rev p) exist_ok
                (World (fs w) (trace w ++ [EMakedirs p]))) as [G T].
  rewrite rev_involutive in G.
  destruct (makedirs_rev _ _ _) as [[[]|e] w1]; simpl in *; now split.
Qed.

Lemma makedirs_logs (P : event -> Prop) (p : path) (exist_ok : bool) :
  P (EMakedirs p) -> always (logs P) (makedirs p exist_ok).
Proof.
  intros HP w. destruct (makedirs_effect p exist_ok w) as [_ T].
  exists [EMakedirs p]. split; [assumption | now constructor].
Qed.

Lemma makedirs_keeps (D : path -> Prop) (p : path) (exist_ok : bool) :
  always (keeps D) (makedirs p exist_ok).
Proof.
  intros w q n _ H. destruct (makedirs_effect p exist_ok w) as [G _].
  now apply (grows_keeps p (fs w)).
Qed.

Lemma makedirs_appends (csv_file : path) (Q : list string -> Prop)
    (p : path) (exist_ok : bool) :
  always (appends csv_file Q) (makedirs p exist_ok).
Proof.
  intros w rows H. destruct (makedirs_effect p exist_ok w) as [G _].
  exists []. rewrite app_nil_r. split; [|constructor].
  now apply (grows_keeps p (fs w)).
Qed.

Lemma rmtree_effect (dir : path) (w : world) :
  trace (rmtree dir w).2 = trace w ++ [ERmtree dir]
  /\ (forall q, ~ dir `prefix_of` q ->
                fs (rmtree dir w).2 !! q = fs w !! q)
  /\ (forall q n, fs (rmtree dir w).2 !! q = Some n -> fs w !! q = Some n).
Proof.
  unfold rmtree. run_prim.
  destruct (node_at (fs w) dir) as [[|rows]|]; simpl; repeat split; auto.
  - intros q Hq. destruct (fs w !! q) as [n|] eqn:E.
    + apply map_lookup_filter_Some. now split.
    + apply map_lookup_filter_None. now left.
  - intros q n H. now apply map_lookup_filter_Some in H as [H _].
Qed.

Lemma rmtree_logs (P : event -> Prop) (dir : path) :
  P (ERmtree dir) -> always (logs P) (rmtree dir).
Proof.
  intros HP w. destruct (rmtree_effect dir w) as [T _].
  exists [ERmtree dir]. split; [assumption | now constructor].
Qed.

Lemma rmtree_keeps (D : path -> Prop) (dir : path) :
  (forall q, dir `prefix_of` q -> D q) -> always (keeps D) (rmtree dir).
Proof.
  intros HD w q n Hq H. destruct (rmtree_effect dir w) as (_ & Hout & _).
  rewrite Hout; [assumption|]. intros Hpre. apply Hq, HD, Hpre.
Qed.

Lemma rmtree_appends (csv_file : path) (Q : list string -> Prop)
    (dir : path) :
  ~ dir `prefix_of` csv_file -> always (appends csv_file Q) (rmtree dir).
Proof.
  intros Hout w rows H. destruct (rmtree_effect dir w) as (_ & Hsame & _).
  exists []. rewrite app_nil_r, Hsame; [now split | assumption].
Qed.

Lemma parent_check_run (file : path) (m : gmap path node) (k : M unit)
    (w : world) :
  parent_check file m k w = k w \/ exists e, parent_check file m k w = (Raise e, w).
Proof.
  unfold parent_check.
  destruct (node_at m (removelast file)) as [[|rows]|]; eauto.
Qed.

Lemma open_w_effect (file : path) (rows : list (list string)) (w : world) :
  trace (open_w file rows w).2 = trace w ++ [ECreate file]
  /\ (forall q, q <> file -> fs (open_w file rows w).2 !! q = fs w !! q).
Proof.
  unfold open_w. run_prim.
  assert (Hgo : forall k,
            (forall w1, fs (k w1).2 = <[file := File rows]> (fs w)
                        /\ trace (k w1).2 = trace w1) ->
            forall w1, fs w1 = fs w -> trace w1 = trace w ++ [ECreate file] ->
            trace (parent_check file (fs w) k w1).2 = trace w ++ [ECreate file]
            /\ (forall q, q <> file ->
                  fs (parent_check file (fs w) k w1).2 !! q = fs w !! q)).
  { intros k Hk w1 F1 T1.
    destruct (parent_check_run file (fs w) k w1) as [-> | [e ->]].
    - destruct (Hk w1) as [-> ->]. split; [assumption|].
      intros q Hq. now apply lookup_insert_ne.
    - simpl. split; [assumption|]. intros q _. now rewrite F1. }
  destruct (node_at (fs w) file) as [[|rows0]|];
    try (apply Hgo; [intros w1; now split | reflexivity | reflexivity]).
  simpl. now split.
Qed.

Lemma open_w_logs (P : event -> Prop) (file : path)
    (rows : list (list string)) :
  P (ECreate file) -> always (logs P) (open_w file rows).
Proof.
  intros HP w. destruct (open_w_effect file rows w) as [T _].
  exists [ECreate file]. split; [assumption | now constructor].
Qed.

Lemma open_w_appends (csv_file : path) (Q : list string -> Prop)
    (file : path) (rows : list (list string)) :
  file <> csv_file -> always (appends csv_file Q) (open_w file rows).
Proof.
  intros Hne w rows0 H. destruct (open_w_effect file rows w) as [_ Hsame].
  exists []. rewrite app_nil_r, Hsame; [now split | congruence].
Qed.

Lemma open_a_effect (file : path) (w : world) :
  trace (open_a file w).2 = trace w
  /\ (forall q n, fs w !! q = Some n -> fs (open_a file w).2 !! q = Some n).
Proof.
  unfold open_a. run_prim.
  destruct (node_at (fs w) file) as [[|rows0]|] eqn:Hfile; simpl; try now split.
  apply node_at_None in Hfile as [_ Hfile].
  match goal with
  | |- context [parent_check ?f ?m ?k ?w0] =>
      destruct (parent_check_run f m k w0) as [-> | [e ->]]
  end; simpl; split; auto.
  intros q n H. rewrite lookup_insert_ne; [assumption | congruence].
Qed.

Lemma open_a_logs (P : event -> Prop) (file : path) :
  always (logs P) (open_a file).
Proof.
  intros w. destruct (open_a_effect file w) as [T _].
  exists []. now rewrite app_nil_r.
Qed.

Lemma open_a_appends (csv_file : path) (Q : list string -> Prop)
    (file : path) :
  always (appends csv_file Q) (open_a file).
Proof.
  intros w rows H. destruct (open_a_effect file w) as [_ K].
  exists []. rewrite app_nil_r. split; [now apply K | constructor].
Qed.

Lemma writerow_run (file : path) (row : list string) (w : world) :
  writerow file row w =
  (Ok tt, World (append_rows file [row] (fs w))
            (trace w ++ [EWriteRow file row])).
Proof.
  unfold writerow, append_rows. run_prim.
  now destruct (fs w !! file) as [[|rows]|].
Qed.

Lemma writerow_logs (P : event -> Prop) (file : path) (row : list string) :
  P (EWriteRow file row) -> always (logs P) (writerow file row).
Proof.
  intros HP w. rewrite writerow_run. simpl.
  exists [EWriteRow file row]. split; [reflexivity | now constructor].
Qed.

Lemma writerow_appends (csv_file : path) (Q : list string -> Prop)
    (file : path) (row : list string) :
  (file = csv_file -> Q row) -> always (appends csv_file Q) (writerow file row).
Proof.
  intros HQ w rows H. rewrite writerow_run. simpl. unfold append_rows.
  destruct (decide (file = csv_file)) as [-> | Hne].
  - rewrite H, lookup_insert_eq. exists [row]. split; [reflexivity|].
    constructor; [now apply HQ | constructor].
  - exists []. rewrite app_nil_r. split; [|constructor].
    destruct (fs w !! file) as [[|rows0]|]; try assumption.
    now rewrite lookup_insert_ne.
Qed.

End PrimitiveFacts.

(** ** One video *)

Section VideoFacts.

Context {frame_timecode : FrameTimecode} {collaborators : Collaborators}.

Lemma append_rows_nil (csv_file : path) (m : gmap path node) :
  append_rows csv_file [] m = m.
Proof.
  unfold append_rows. destruct (m !! csv_file) as [[|rows]|] eqn:E; try reflexivity.
  rewrite app_nil_r. now apply insert_id.
Qed.

Lemma append_rows_cons (csv_file : path) (row : list string)
    (new : list (list string)) (m : gmap path node) :
  append_rows csv_file new (append_rows csv_file [row] m) =
  append_rows csv_file (row :: new) m.
Proof.
  unfold append_rows. destruct (m !! csv_file) as [[|rows]|] eqn:E;
    rewrite ?E; try reflexivity.
  rewrite lookup_insert_eq, insert_insert_eq, <- app_assoc. reflexivity.
Qed.

Lemma append_rows_lookup (csv_file : path) (rows new : list (list string))
    (m : gmap path node) :
  m !! csv_file = Some (File rows) ->
  append_rows csv_file new m !! csv_file = Some (File (rows ++ new)).
Proof. intros H. unfold append_rows. rewrite H. apply lookup_insert_eq. Qed.

Lemma append_rows_other (csv_file : path) (new : list (list string))
    (m : gmap path node) (q : path) :
  q <> csv_file -> append_rows csv_file new m !! q = m !! q.
Proof.
  intros Hne. unfold append_rows.
  destruct (m !! csv_file) as [[|rows]|]; try reflexivity.
  now apply lookup_insert_ne.
Qed.

(** A loop of [writerow] appends its rows, in order, and cannot fail. *)
Lemma writerows_run {A} (row_of : A -> list string) (csv_file : path)
    (l : list A) (w : world) :
  for_each l (fun x => writerow csv_file (row_of x)) w =
  (Ok tt, World (append_rows csv_file (map row_of l) (fs w))
            (trace w ++ map (EWriteRow csv_file) (map row_of l))).
Proof.
  revert w; induction l as [|x l IH]; intros w.
  - simpl. rewrite append_rows_nil, app_nil_r. now destruct w.
  - rewrite for_each_cons, run_bind, writerow_run, IH. cbn [fs trace map].
    now rewrite append_rows_cons, <- app_assoc.
Qed.

(** [split_video.py] on one video: detection, images, clips, and only
    then the rows. *)
Lemma split_one_run (input_folder images videos csv_file : path)
    (video_file : string) (w : world) :
  let scene_list :=
    detect_scenes w (os_path_join input_folder video_file) false in
  let artifacts :=
    split_artifacts input_folder images videos video_file scene_list in
  let rows := split_rows (splitext video_file).1 scene_list in
  let opened := open_a csv_file (World (fs w) (trace w ++ artifacts)) in
  split_one input_folder images videos csv_file video_file w =
  match opened.1 with
  | Ok _ =>
      (Ok tt, World (append_rows csv_file rows (fs opened.2))
                (trace w ++ artifacts ++ map (EWriteRow csv_file) rows))
  | Raise e => (Raise e, World (fs opened.2) (trace w ++ artifacts))
  end.
Proof.
  cbv zeta. unfold split_one.
  rewrite run_bind, detect_run, run_bind, save_images_run, run_bind,
    split_video_ffmpeg_run, run_bind.
  cbn [fs trace]. unfold split_artifacts.
  rewrite <- !app_assoc. cbn [app].
  match goal with |- context [open_a ?f ?w0] =>
    pose proof (open_a_effect f w0) as [T _];
    destruct (open_a f w0) as [[[]|e] w2] end; cbn [fst snd trace] in *.
  - rewrite writerows_run, T. unfold split_rows. cbn [trace].
    now rewrite <- !app_assoc.
  - destruct w2 as [m2 t2]. cbn [trace fs] in *. now rewrite T.
Qed.

Lemma yield_scenes_run (input_file file_ext : string)
    (scenes_dir images_dir audio_dir : path)
    (scene_list : list scene_bounds) (i : nat) (rows0 : list (list string))
    (w : world) :
  let scenes :=
    map (fun entry =>
           make_scene input_file file_ext scenes_dir images_dir audio_dir
             entry.1 entry.2) (enumerate_from i scene_list) in
  exists texts,
    length texts = length scene_list
    /\ fold_m
         (fun acc entry =>
            let yielded :=
              make_scene input_file file_ext scenes_dir images_dir audio_dir
                entry.1 entry.2 in
            video_to_audio yielded.(scene) yielded.(audio) ;;
            transcribe_scene acc yielded)
         rows0 (enumerate_from i scene_list) w =
       (Ok (rows0 ++ zip_with transcribe_row scenes texts),
        World (fs w) (trace w ++ scene_events scenes)).
Proof.
  cbv zeta. revert i rows0 w.
  induction scene_list as [|bounds scene_list IH]; intros i rows0 w.
  - exists []. simpl. rewrite !app_nil_r. now destruct w.
  - set (sc := make_scene input_file file_ext scenes_dir images_dir audio_dir
                 i bounds).
    set (w1 := World (fs w) (trace w ++ [EVideoToAudio sc.(scene) sc.(audio)])).
    set (text := transcription_of (transcriber w1 sc.(audio))).
    destruct (IH (S i) (rows0 ++ [transcribe_row sc text])
                (World (fs w) (trace w1 ++ [ETranscribe sc.(audio)])))
      as (texts & Hlen & Hrun).
    exists (text :: texts). split; [simpl; now rewrite Hlen|].
    cbn [enumerate_from]. rewrite fold_m_cons, run_bind. cbv beta zeta.
    cbn [fst snd]. fold sc.
    rewrite run_bind, video_to_audio_run, transcribe_scene_run.
    cbn [fs trace]. fold w1. fold text.
    subst w1. cbn [fs trace] in *. rewrite Hrun.
    cbn [fs trace map zip_with scene_events flat_map fst snd].
    fold sc. rewrite <- !app_assoc. reflexivity.
Qed.

Lemma writerows_plain_run (csv_file : path) (rows : list (list string))
    (w : world) :
  for_each rows (writerow csv_file) w =
  (Ok tt, World (append_rows csv_file rows (fs w))
            (trace w ++ map (EWriteRow csv_file) rows)).
Proof.
  pose proof (writerows_run (fun row => row) csv_file rows w) as H.
  rewrite map_id in H. exact H.
Qed.

Lemma make_video_dirs_logs (P : event -> Prop)
    (video_dir scenes_dir images_dir audio_dir : path) :
  (forall e, is_dir_event e = true -> P e) ->
  always (logs P) (make_video_dirs video_dir scenes_dir images_dir audio_dir).
Proof.
  intros HP. unfold make_video_dirs. always_by always_bind.
  { eapply always_weaken; [|apply path_exists_quiet].
    intros w w'. apply only_logs_logs. constructor. }
  intros video_dir_exists. always_by always_bind.
  - always_by always_when. apply rmtree_logs. now apply HP.
  - intros _. always_by always_for_each. intros dir _.
    apply makedirs_logs. now apply HP.
Qed.

(** [transcribe.py] on one video: either the directories could not be
    made and nothing else happened, or every artifact of the video was
    produced before the first of its rows was written. *)
Lemma transcribe_one_run (output_folder input_folder output_csv : path)
    (input_file : string) (w : world) :
  let input_path := os_path_join input_folder input_file in
  let scene_list := detect_scenes w input_path true in
  let scenes := yielded_scenes output_folder input_file scene_list in
  let dirs :=
    make_video_dirs (video_dir_of output_folder input_file)
      (scenes_dir_of output_folder input_file)
      (images_dir_of output_folder input_file)
      (audio_dir_of output_folder input_file)
      (World (fs w) (trace w ++ [EDetect input_path true])) in
  exists setup,
    trace dirs.2 = trace w ++ EDetect input_path true :: setup
    /\ Forall (fun e => is_dir_event e = true) setup
    /\ match dirs.1 with
       | Raise e =>
           transcribe_one output_folder input_folder output_csv input_file w
           = (Raise e, dirs.2)
       | Ok _ =>
           exists texts,
             length texts = length scene_list
             /\ transcribe_one output_folder input_folder output_csv
                  input_file w
                = (Ok tt,
                   World (append_rows output_csv
                            (zip_with transcribe_row scenes texts)
                            (fs dirs.2))
                     (trace w
                      ++ transcribe_artifacts input_folder output_folder
                           input_file scene_list setup
                      ++ map (EWriteRow output_csv)
                           (zip_with transcribe_row scenes texts)))
       end.
Proof.
  cbv zeta.
  set (input_path := os_path_join input_folder input_file).
  set (scene_list := detect_scenes w input_path true).
  set (w0 := World (fs w) (trace w ++ [EDetect input_path true])).
  destruct (make_video_dirs_logs (fun e => is_dir_event e = true)
              (video_dir_of output_folder input_file)
              (scenes_dir_of output_folder input_file)
              (images_dir_of output_folder input_file)
              (audio_dir_of output_folder input_file)
              (fun e H => H) w0) as (setup & Htrace & Hsetup).
  exists setup. split; [|split; [assumption|]].
  { rewrite Htrace. subst w0. cbn [trace]. now rewrite <- app_assoc. }
  unfold transcribe_one, scene_generator. cbv zeta.
  fold input_path. rewrite run_bind, run_bind, detect_run.
  fold scene_list. fold w0. rewrite run_bind.
  change (os_path_join (os_path_join output_folder "videos")
            (splitext input_file).1)
    with (video_dir_of output_folder input_file).
  change (os_path_join (video_dir_of output_folder input_file) "scenes")
    with (scenes_dir_of output_folder input_file).
  change (os_path_join (video_dir_of output_folder input_file) "images")
    with (images_dir_of output_folder input_file).
  change (os_path_join (video_dir_of output_folder input_file) "audio")
    with (audio_dir_of output_folder input_file).
  destruct (make_video_dirs _ _ _ _ w0) as [[[]|e] w1]; cbn [fst snd] in *;
    [|reflexivity].
  rewrite run_bind, save_images_run, run_bind, split_video_ffmpeg_run.
  cbn [fs trace]. unfold yield_scenes, enumerate.
  match goal with |- context [fold_m _ [] _ ?w2] =>
    destruct (yield_scenes_run input_file (splitext input_file).2
                (scenes_dir_of output_folder input_file)
                (images_dir_of output_folder input_file)
                (audio_dir_of output_folder input_file)
                scene_list 0 [] w2) as (texts & Hlen & Hrun)
  end.
  exists texts. split; [assumption|].
  cbv zeta in Hrun. rewrite Hrun. cbn [app fs trace].
  rewrite writerows_plain_run. cbn [fs trace].
  unfold transcribe_artifacts, yielded_scenes, enumerate. fold input_path.
  rewrite Htrace. subst w0. cbn [trace].
  rewrite <- ?app_assoc. cbn [app]. rewrite <- ?app_assoc. reflexivity.
Qed.

End VideoFacts.

(** ** Traces made of whole videos *)

Section RunLogFacts.

Context {frame_timecode : FrameTimecode} {collaborators : Collaborators}.

Lemma run_log_app (block : list event -> list (list string) -> Prop)
    (csv_file : path) (d1 d2 : list event) :
  run_log block csv_file d1 -> run_log block csv_file d2 ->
  run_log block csv_file (d1 ++ d2).
Proof.
  intros H1 H2. induction H1 as [|e rest He _ IH|pre rows rest Hb _ IH].
  - exact H2.
  - simpl. now constructor.
  - rewrite <- !app_assoc. now constructor.
Qed.

Lemma run_log_skips (block : list event -> list (list string) -> Prop)
    (csv_file : path) (d : list event) :
  Forall (fun e => is_row e = false) d -> run_log block csv_file d.
Proof. induction 1; now constructor. Qed.

Global Instance logs_videos_preorder
    (block : list event -> list (list string) -> Prop) (csv_file : path) :
  PreOrder (logs_videos block csv_file).
Proof.
  split.
  - intros w. exists []. rewrite app_nil_r. split; [reflexivity | constructor].
  - intros w1 w2 w3 (d1 & T1 & L1) (d2 & T2 & L2). exists (d1 ++ d2).
    rewrite T2, T1, <- app_assoc. split; [reflexivity|].
    now apply run_log_app.
Qed.

Lemma logs_videos_of_logs (block : list event -> list (list string) -> Prop)
    (csv_file : path) (w w' : world) :
  logs (fun e => is_row e = false) w w' -> logs_videos block csv_file w w'.
Proof.
  intros (d & T & F). exists d. split; [assumption|]. now apply run_log_skips.
Qed.

(** Where a row-writing event sits in a list that starts with events
    writing none. *)
Lemma row_after_others (pre rest l1 l2 : list event) (c : path)
    (row : list string) :
  Forall (fun e => is_row e = false) pre ->
  pre ++ rest = l1 ++ EWriteRow c row :: l2 ->
  exists l1', l1 = pre ++ l1' /\ rest = l1' ++ EWriteRow c row :: l2.
Proof.
  intros Hpre. revert l1. induction Hpre as [|e pre He _ IH]; intros l1 Heq.
  - now exists l1.
  - destruct l1 as [|e1 l1]; simpl in Heq.
    + injection Heq as -> _. discriminate.
    + injection Heq as -> Heq. destruct (IH _ Heq) as (l1' & -> & ->).
      now exists l1'.
Qed.

(** Where it sits in a list that starts with the rows of one video. *)
Lemma row_among_rows (csv_file : path) (rows : list (list string))
    (rest l1 l2 : list event) (c : path) (row : list string) :
  map (EWriteRow csv_file) rows ++ rest = l1 ++ EWriteRow c row :: l2 ->
  (exists k, l1 = map (EWriteRow csv_file) (take k rows)
             /\ rows !! k = Some row /\ c = csv_file)
  \/ (exists l1', l1 = map (EWriteRow csv_file) rows ++ l1'
                  /\ rest = l1' ++ EWriteRow c row :: l2).
Proof.
  revert l1. induction rows as [|r rows IH]; intros l1 Heq.
  - right. now exists l1.
  - destruct l1 as [|e1 l1]; simpl in Heq.
    + injection Heq as -> -> _. left. now exists 0%nat.
    + injection Heq as <- Heq. destruct (IH _ Heq) as
        [(k & -> & Hk & ->) | (l1' & -> & ->)].
      * left. now exists (S k).
      * right. now exists l1'.
Qed.

(** In a trace made of whole videos, every row is written right after
    the artifacts of its video and the earlier rows of that video. *)
Lemma run_log_row (block : list event -> list (list string) -> Prop)
    (csv_file : path) (added : list event) :
  (forall pre rows, block pre rows -> Forall (fun e => is_row e = false) pre) ->
  run_log block csv_file added ->
  forall l1 c row l2,
    added = l1 ++ EWriteRow c row :: l2 ->
    c = csv_file
    /\ exists l0 pre rows k,
         block pre rows
         /\ l1 = l0 ++ pre ++ map (EWriteRow csv_file) (take k rows)
         /\ rows !! k = Some row.
Proof.
  intros Hblock Hlog.
  induction Hlog as [|e rest He _ IH|pre rows rest Hb _ IH];
    intros l1 c row l2 Heq.
  - now destruct l1.
  - destruct l1 as [|e1 l1]; simpl in Heq.
    + injection Heq as -> _. discriminate.
    + injection Heq as <- Heq.
      destruct (IH _ _ _ _ Heq) as (-> & l0 & pre & rows & k & Hb & -> & Hk).
      split; [reflexivity|]. now exists (e :: l0), pre, rows, k.
  - destruct (row_after_others _ _ _ _ _ _ (Hblock _ _ Hb) Heq)
      as (l1' & -> & Heq').
    destruct (row_among_rows _ _ _ _ _ _ _ Heq')
      as [(k & -> & Hk & ->) | (l1'' & -> & Heq'')].
    + split; [reflexivity|]. now exists [], pre, rows, k.
    + destruct (IH _ _ _ _ Heq'')
        as (-> & l0 & pre' & rows' & k & Hb' & -> & Hk).
      split; [reflexivity|].
      exists (pre ++ map (EWriteRow csv_file) rows ++ l0), pre', rows', k.
      split; [assumption|]. split; [|assumption].
      now rewrite <- !app_assoc.
Qed.

Lemma split_block_no_row (input_folder images videos : path)
    (pre : list event) (rows : list (list string)) :
  split_block input_folder images videos pre rows ->
  Forall (fun e => is_row e = false) pre.
Proof. intros (video_file & scene_list & -> & _). now repeat constructor. Qed.

Lemma scene_events_no_row (scenes : list scene_record) :
  Forall (fun e => is_row e = false) (scene_events scenes).
Proof. induction scenes; simpl; now repeat constructor. Qed.

Lemma transcribe_block_no_row (input_folder output_folder : path)
    (pre : list event) (rows : list (list string)) :
  transcribe_block input_folder output_folder pre rows ->
  Forall (fun e => is_row e = false) pre.
Proof.
  intros (input_file & scene_list & setup & texts & -> & Hsetup & _).
  unfold transcribe_artifacts. constructor; [reflexivity|].
  apply Forall_app. split.
  - eapply Forall_impl; [exact Hsetup|]. now intros [].
  - apply Forall_app. split; [now repeat constructor|].
    apply scene_events_no_row.
Qed.

End RunLogFacts.

(** ** What a whole run logs *)

Section ScriptLogs.

Context {frame_timecode : FrameTimecode} {collaborators : Collaborators}.

Lemma quiet_logs (P : event -> Prop) {A} (m : M A) :
  always (only_logs []) m -> always (logs P) m.
Proof.
  apply always_weaken. intros w w'. apply only_logs_logs. constructor.
Qed.

Lemma one_event_logs (P : event -> Prop) (e : event) {A} (m : M A) :
  P e -> always (only_logs [e]) m -> always (logs P) m.
Proof.
  intros HP. apply always_weaken. intros w w'. apply only_logs_logs.
  now repeat constructor.
Qed.

Lemma read_processed_logs (P : event -> Prop) (csv_file : path) :
  always (logs P) (read_processed csv_file).
Proof.
  unfold read_processed. always_by always_bind.
  { apply quiet_logs, read_csv_quiet. }
  intros [|header body]; [always_by always_raise|].
  always_by always_bind; [apply quiet_logs, first_column_quiet|].
  intros cells. always_by always_ret.
Qed.

Lemma init_folder_logs (P : event -> Prop) (output_folder : path) :
  P (EMakedirs output_folder) ->
  P (EMakedirs (os_path_join output_folder "videos")) ->
  P (ECreate (os_path_join output_folder "scenes.csv")) ->
  always (logs P) (init_folder output_folder).
Proof.
  intros H1 H2 H3. unfold init_folder. always_by always_bind.
  { apply quiet_logs, path_exists_quiet. }
  intros [|]; cbn [negb].
  - always_by always_bind; [apply quiet_logs, read_csv_quiet|].
    intros rows. apply quiet_logs, first_column_quiet.
  - always_by always_bind; [now apply makedirs_logs|]. intros _.
    always_by always_bind; [now apply makedirs_logs|]. intros _.
    always_by always_bind; [now apply open_w_logs|]. intros _.
    always_by always_ret.
Qed.

(** The part of [split_video_scenes] before its loop writes no row. *)
Lemma split_one_videos (input_folder images videos csv_file : path)
    (video_file : string) :
  always (logs_videos (split_block input_folder images videos) csv_file)
    (split_one input_folder images videos csv_file video_file).
Proof.
  intros w. rewrite split_one_run. cbv zeta.
  match goal with |- context [open_a ?f ?w0] =>
    destruct (open_a f w0) as [[[]|e] w2] end; cbn [fst snd trace].
  - eexists. split; [reflexivity|].
    rewrite <- (app_nil_r (map _ _)). apply run_log_video; [|constructor].
    now eexists _, _.
  - eexists. split; [reflexivity|]. apply run_log_skips.
    now repeat constructor.
Qed.

Lemma split_video_scenes_videos (input_folder output_folder csv_file : path) :
  always (logs_videos
            (split_block input_folder (os_path_join output_folder "images")
               (os_path_join output_folder "videos")) csv_file)
    (split_video_scenes input_folder output_folder csv_file).
Proof.
  set (block := split_block _ _ _).
  assert (Hpre : forall {A} (m : M A),
            always (logs (fun e => is_row e = false)) m ->
            always (logs_videos block csv_file) m).
  { intros A m. apply always_weaken. apply logs_videos_of_logs. }
  unfold split_video_scenes.
  always_by always_bind; [now apply Hpre, makedirs_logs|]. intros _.
  always_by always_bind; [now apply Hpre, makedirs_logs|]. intros _.
  always_by always_bind; [now apply Hpre, makedirs_logs|]. intros _.
  always_by always_bind; [apply Hpre, quiet_logs, path_exists_quiet|].
  intros csv_exists.
  always_by always_bind.
  { always_by always_when. now apply Hpre, open_w_logs. }
  intros _. always_by always_bind; [apply Hpre, read_processed_logs|].
  intros processed.
  always_by always_bind.
  { apply Hpre.
    apply (one_event_logs _ (EListdir input_folder));
      [reflexivity | apply listdir_only]. }
  intros vids. always_by always_for_each. intros video_file _.
  unfold split_step. destruct (split_skips processed video_file).
  - always_by always_ret.
  - apply split_one_videos.
Qed.

Lemma transcribe_one_videos (output_folder input_folder output_csv : path)
    (input_file : string) :
  always (logs_videos (transcribe_block input_folder output_folder) output_csv)
    (transcribe_one output_folder input_folder output_csv input_file).
Proof.
  intros w.
  destruct (transcribe_one_run output_folder input_folder output_csv
              input_file w) as (setup & Htrace & Hsetup & Hrun).
  cbv zeta in *.
  destruct (make_video_dirs _ _ _ _ _) as [[[]|e] w1]; cbn [fst snd] in *.
  - destruct Hrun as (texts & Hlen & ->). cbn [snd trace].
    eexists. split; [reflexivity|].
    rewrite <- (app_nil_r (map _ _)). apply run_log_video; [|constructor].
    now eexists _, _, setup, texts.
  - rewrite Hrun. cbn [snd]. eexists. split; [exact Htrace|].
    apply run_log_skips. constructor; [reflexivity|].
    eapply Forall_impl; [exact Hsetup|]. now intros [].
Qed.

Lemma main_videos (output_folder input_folder : path)
    (input_files : list string) :
  always (logs_videos (transcribe_block input_folder output_folder)
            (os_path_join output_folder "scenes.csv"))
    (main output_folder input_folder input_files).
Proof.
  unfold main. always_by always_bind.
  { eapply always_weaken; [apply logs_videos_of_logs|].
    eapply one_event_logs; [|apply pipeline_only]. reflexivity. }
  intros _. always_by always_bind.
  { eapply always_weaken; [apply logs_videos_of_logs | apply open_a_logs]. }
  intros _. always_by always_for_each. intros input_file _.
  apply transcribe_one_videos.
Qed.

Lemma transcribe_script_videos (folder output : path) :
  always (logs_videos (transcribe_block folder output)
            (os_path_join output "scenes.csv"))
    (transcribe_script folder output).
Proof.
  unfold transcribe_script. always_by always_bind.
  { eapply always_weaken; [apply logs_videos_of_logs|].
    now apply init_folder_logs. }
  intros done. always_by always_bind.
  { eapply always_weaken; [apply logs_videos_of_logs|].
    apply (one_event_logs _ (EListdir folder));
      [reflexivity | apply listdir_only]. }
  intros files. apply main_videos.
Qed.

(** C2: in a run of either script, whenever a ledger row is written, the
    trace up to that point ends with all the artifact events of the
    video of that row (detection, images, clips, and in [transcribe.py]
    the audio and the transcription of every scene), followed by nothing
    but the earlier rows of the same video.  The trace of an interrupted
    run is a prefix of this one. *)
Theorem rows_follow_artifacts :
  (forall input_folder output_folder csv_file w l1 c row l2,
     trace (split_video_scenes input_folder output_folder csv_file w).2
     = trace w ++ l1 ++ EWriteRow c row :: l2 ->
     c = csv_file
     /\ exists l0 video_file scene_list k,
          l1 = l0
               ++ split_artifacts input_folder
                    (os_path_join output_folder "images")
                    (os_path_join output_folder "videos")
                    video_file scene_list
               ++ map (EWriteRow csv_file)
                    (take k (split_rows (splitext video_file).1 scene_list))
          /\ split_rows (splitext video_file).1 scene_list !! k = Some row)
  /\ (forall folder output w l1 c row l2,
        trace (transcribe_script folder output w).2
        = trace w ++ l1 ++ EWriteRow c row :: l2 ->
        c = os_path_join output "scenes.csv"
        /\ exists l0 input_file scene_list setup texts k,
             let rows :=
               zip_with transcribe_row
                 (yielded_scenes output input_file scene_list) texts in
             Forall (fun e => is_dir_event e = true) setup
             /\ length texts = length scene_list
             /\ l1 = l0
                     ++ transcribe_artifacts folder output input_file
                          scene_list setup
                     ++ map (EWriteRow c) (take k rows)
             /\ rows !! k = Some row).
Proof.
  split.
  - intros input_folder output_folder csv_file w l1 c row l2 Htrace.
    destruct (split_video_scenes_videos input_folder output_folder csv_file w)
      as (added & Hadded & Hlog).
    rewrite Hadded in Htrace. apply app_inv_head in Htrace. subst added.
    destruct (run_log_row _ _ _ (split_block_no_row _ _ _) Hlog _ _ _ _
                eq_refl)
      as (-> & l0 & pre & rows & k & (video_file & scene_list & -> & ->)
          & -> & Hk).
    split; [reflexivity|]. now exists l0, video_file, scene_list, k.
  - intros folder output w l1 c row l2 Htrace.
    destruct (transcribe_script_videos folder output w)
      as (added & Hadded & Hlog).
    rewrite Hadded in Htrace. apply app_inv_head in Htrace. subst added.
    destruct (run_log_row _ _ _ (transcribe_block_no_row _ _) Hlog _ _ _ _
                eq_refl)
      as (-> & l0 & pre & rows & k
          & (input_file & scene_list & setup & texts & -> & Hsetup & Hlen & ->)
          & -> & Hk).
    split; [reflexivity|].
    now exists l0, input_file, scene_list, setup, texts, k.
Qed.

End ScriptLogs.

(** ** A logged video is left alone *)

Section IdempotenceFacts.

Context {frame_timecode : FrameTimecode} {collaborators : Collaborators}.

Global Instance both_preorder (R1 R2 : world -> world -> Prop)
    `{!PreOrder R1, !PreOrder R2} : PreOrder (both R1 R2).
Proof.
  split.
  - intros w. split; reflexivity.
  - intros w1 w2 w3 [A1 A2] [B1 B2]. split; etransitivity; eassumption.
Qed.

Global Instance leaves_alone_preorder (is_video : path -> Prop)
    (name : string) (csv_file : path) :
  PreOrder (leaves_alone is_video name csv_file).
Proof. unfold leaves_alone. apply _. Qed.

Lemma always_both (R1 R2 : world -> world -> Prop) {A} (m : M A) :
  always R1 m -> always R2 m -> always (both R1 R2) m.
Proof. intros H1 H2 w. split; [apply H1 | apply H2]. Qed.

Lemma from_always (I : world -> Prop) (R : world -> world -> Prop) {A}
    (m : M A) :
  always R m -> from I R m.
Proof. intros H w _. apply H. Qed.

(** Sequencing under a fact that the first part maintains. *)
Lemma from_bind (I : world -> Prop) (R : world -> world -> Prop)
    `{!PreOrder R} {A B} (m : M A) (k : A -> M B) :
  always R m ->
  (forall w, I w -> I (m w).2) ->
  (forall a, from I R (k a)) ->
  from I R (m ≫= k).
Proof.
  intros Hm Hkeep Hk w HI. rewrite run_bind.
  specialize (Hm w). specialize (Hkeep w HI).
  destruct (m w) as [[a|e] w1]; cbn [snd] in *; [|assumption].
  etransitivity; [exact Hm | now apply Hk].
Qed.

Lemma quiet_leaves_alone (is_video : path -> Prop) (name : string)
    (csv_file : path) {A} (m : M A) (added : list event) :
  Forall (spares is_video name) added ->
  always (only_logs added) m ->
  always (leaves_alone is_video name csv_file) m.
Proof.
  intros Hadded Hm. apply always_both.
  - eapply always_weaken; [|exact Hm]. intros w w'.
    now apply only_logs_logs.
  - eapply always_weaken; [|exact Hm]. intros w w'.
    apply only_logs_appends.
Qed.

Lemma spares_plain (is_video : path -> Prop) (name : string) (e : event) :
  event_video e = None -> written_name e = None -> spares is_video name e.
Proof. intros Hv Hn. split; [intros video; congruence | congruence]. Qed.

Lemma makedirs_leaves_alone (is_video : path -> Prop) (name : string)
    (csv_file p : path) (exist_ok : bool) :
  always (leaves_alone is_video name csv_file) (makedirs p exist_ok).
Proof.
  apply always_both; [|apply makedirs_appends].
  apply makedirs_logs. now apply spares_plain.
Qed.

Lemma ledger_is_lookup (csv_file : path) (rows : list (list string))
    (w : world) :
  ledger_is csv_file rows w ->
  csv_file <> [] /\ fs w !! csv_file = Some (File rows).
Proof. unfold ledger_is. destruct csv_file; [discriminate | now split]. Qed.

Lemma makedirs_keeps_ledger (csv_file : path) (rows : list (list string))
    (p : path) (exist_ok : bool) (w : world) :
  ledger_is csv_file rows w ->
  ledger_is csv_file rows (makedirs p exist_ok w).2.
Proof.
  intros H. destruct (ledger_is_lookup _ _ _ H) as [Hne Hcsv].
  destruct (makedirs_effect p exist_ok w) as [G _].
  unfold ledger_is. rewrite node_at_lookup by assumption.
  now apply (grows_keeps p (fs w)).
Qed.

Lemma split_rows_names (video_name other : string)
    (scene_list : list scene_bounds) :
  video_name <> other ->
  Forall (fun row => head row <> Some other)
    (split_rows video_name scene_list).
Proof.
  intros Hne. unfold split_rows. apply Forall_map, Forall_forall.
  intros entry _. simpl. congruence.
Qed.

Lemma written_rows_spare (is_video : path -> Prop) (name : string)
    (csv_file : path) (rows : list (list string)) :
  Forall (fun row => head row <> Some name) rows ->
  Forall (spares is_video name) (map (EWriteRow csv_file) rows).
Proof.
  intros H. apply Forall_map. eapply Forall_impl; [exact H|].
  intros row Hrow. split; [discriminate | exact Hrow].
Qed.

(** [split_video.py] on a video of another name. *)
Lemma split_one_leaves_alone (input_folder images videos csv_file : path)
    (video_file video_name : string) :
  (splitext video_file).1 <> video_name ->
  always (leaves_alone (named input_folder video_name) video_name csv_file)
    (split_one input_folder images videos csv_file video_file).
Proof.
  intros Hname w. rewrite split_one_run. cbv zeta.
  assert (Hart : forall scene_list,
            Forall (spares (named input_folder video_name) video_name)
              (split_artifacts input_folder images videos video_file
                 scene_list)).
  { intros scene_list. unfold split_artifacts.
    repeat constructor; try discriminate;
      intros video [= <-] (other & Heq & Hother);
      apply app_inj_tail in Heq as [_ ->]; contradiction. }
  match goal with |- context [open_a ?f ?w0] =>
    pose proof (open_a_effect f w0) as [_ Hkeep];
    destruct (open_a f w0) as [[[]|e] w2] end; cbn [fst snd fs trace] in *.
  - split.
    + eexists. split; [reflexivity|]. apply Forall_app. split; [apply Hart|].
      now apply written_rows_spare, split_rows_names.
    + intros rows0 Hrows0. eexists. cbn [fs]. split.
      * apply append_rows_lookup, Hkeep, Hrows0.
      * now apply split_rows_names.
  - split.
    + eexists. split; [reflexivity | apply Hart].
    + intros rows0 Hrows0. exists []. rewrite app_nil_r. cbn [fs].
      split; [now apply Hkeep | constructor].
Qed.

Lemma listdir_leaves_alone (is_video : path -> Prop) (name : string)
    (csv_file dir : path) :
  always (leaves_alone is_video name csv_file) (listdir dir).
Proof.
  apply (quiet_leaves_alone _ _ _ _ [EListdir dir]); [|apply listdir_only].
  repeat constructor; discriminate.
Qed.

(** The loop of [split_video_scenes] when [video_name] is logged. *)
Lemma split_loop_leaves_alone (input_folder images videos csv_file : path)
    (processed : gset string) (video_name : string) (vids : list string) :
  video_name ∈ processed ->
  always (leaves_alone (named input_folder video_name) video_name csv_file)
    (for_each vids
       (split_step input_folder images videos csv_file processed)).
Proof.
  intros Hin. always_by always_for_each. intros video_file _.
  unfold split_step. destruct (split_skips processed video_file) eqn:Hskip.
  - always_by always_ret.
  - apply split_one_leaves_alone. apply split_skips_false in Hskip as [_ Hout].
    intros Heq. apply Hout. now rewrite Heq.
Qed.

Lemma split_video_scenes_leaves_alone
    (input_folder output_folder csv_file : path)
    (header : list string) (body : list (list string))
    (cells : list string) (video_name : string) :
  first_cells (csv_reader body) = Some cells ->
  video_name ∈ cells ->
  from (ledger_is csv_file (header :: body))
    (leaves_alone (named input_folder video_name) video_name csv_file)
    (split_video_scenes input_folder output_folder csv_file).
Proof.
  intros Hcells Hin. unfold split_video_scenes.
  apply from_bind; [apply _ | apply makedirs_leaves_alone
                   | intros w; apply makedirs_keeps_ledger | intros _].
  apply from_bind; [apply _ | apply makedirs_leaves_alone
                   | intros w; apply makedirs_keeps_ledger | intros _].
  apply from_bind; [apply _ | apply makedirs_leaves_alone
                   | intros w; apply makedirs_keeps_ledger | intros _].
  intros w Hledger.
  rewrite run_bind. unfold path_exists.
  rewrite Hledger, bool_decide_eq_true_2 by eauto. cbn [negb when].
  rewrite run_bind, run_ret.
  rewrite run_bind, (read_processed_run _ _ _ _ _ Hledger Hcells).
  apply (always_bind (leaves_alone _ _ _)); [apply listdir_leaves_alone|].
  intros vids. apply split_loop_leaves_alone.
  now apply elem_of_list_to_set.
Qed.

Lemma make_video_dirs_appends (csv_file : path) (Q : list string -> Prop)
    (video_dir scenes_dir images_dir audio_dir : path) :
  ~ video_dir `prefix_of` csv_file ->
  always (appends csv_file Q)
    (make_video_dirs video_dir scenes_dir images_dir audio_dir).
Proof.
  intros Hout. unfold make_video_dirs. always_by always_bind.
  { eapply always_weaken; [|apply path_exists_quiet].
    intros w w'. apply only_logs_appends. }
  intros video_dir_exists. always_by always_bind.
  - always_by always_when. now apply rmtree_appends.
  - intros _. always_by always_for_each. intros dir _.
    apply makedirs_appends.
Qed.

Lemma video_dir_not_above_ledger (output_folder : path)
    (input_file : string) :
  ~ video_dir_of output_folder input_file
      `prefix_of` os_path_join output_folder "scenes.csv".
Proof.
  intros H. apply prefix_length in H.
  unfold video_dir_of, os_path_join in H. rewrite !length_app in H.
  simpl in H. lia.
Qed.

Lemma transcribe_rows_names (output_folder : path) (input_file : string)
    (scene_list : list scene_bounds) (texts : list string) :
  Forall (fun row => head row = Some input_file)
    (zip_with transcribe_row
       (yielded_scenes output_folder input_file scene_list) texts).
Proof.
  unfold yielded_scenes. generalize (enumerate scene_list). intros entries.
  revert texts. induction entries as [|entry entries IH]; intros [|t texts];
    simpl; constructor; [reflexivity | apply IH].
Qed.

(** [transcribe.py] on another video. *)
Lemma transcribe_one_leaves_alone (output_folder input_folder : path)
    (input_file logged : string) :
  input_file <> logged ->
  always (leaves_alone (eq (os_path_join input_folder logged)) logged
            (os_path_join output_folder "scenes.csv"))
    (transcribe_one output_folder input_folder
       (os_path_join output_folder "scenes.csv") input_file).
Proof.
  intros Hne w.
  set (csv_file := os_path_join output_folder "scenes.csv").
  set (is_video := eq (os_path_join input_folder logged)).
  destruct (transcribe_one_run output_folder input_folder csv_file
              input_file w) as (setup & Htrace & Hsetup & Hrun).
  cbv zeta in *.
  match type of Htrace with context [make_video_dirs ?a ?b ?c ?d ?w0] =>
    pose proof (make_video_dirs_appends csv_file
                  (fun row => head row <> Some logged) a b c d
                  (video_dir_not_above_ledger _ _) w0) as Happ;
    destruct (make_video_dirs a b c d w0) as [[[]|e] w1]
  end; cbn [fst snd fs] in *.
  - destruct Hrun as (texts & Hlen & ->). cbn [snd fs trace].
    set (rows := zip_with transcribe_row _ texts).
    assert (Hrows : Forall (fun row => head row <> Some logged) rows).
    { subst rows. eapply Forall_impl; [apply transcribe_rows_names|].
      intros row Hrow. rewrite Hrow. congruence. }
    split.
    + eexists. split; [reflexivity|]. apply Forall_app. split.
      * unfold transcribe_artifacts.
        assert (Hother : forall v, v = os_path_join input_folder input_file ->
                  ~ is_video v).
        { intros v -> Heq. apply app_inj_tail in Heq as [_ Heq]. congruence. }
        constructor;
          [split; [intros v [= <-]; now apply Hother | discriminate]|].
        apply Forall_app. split.
        { eapply Forall_impl; [exact Hsetup|]. intros [] He; try discriminate;
            now apply spares_plain. }
        apply Forall_app. split.
        { repeat constructor; try discriminate;
            intros v [= <-]; now apply Hother. }
        unfold scene_events. apply Forall_flat_map, Forall_forall.
        intros sc _. repeat constructor; discriminate.
      * now apply written_rows_spare.
    + intros rows0 Hrows0. destruct (Happ rows0 Hrows0) as (new & Hnew & Hq).
      exists (new ++ rows). split.
      * rewrite (app_assoc rows0 new rows).
        now apply (append_rows_lookup csv_file (rows0 ++ new) rows).
      * now apply Forall_app.
  - rewrite Hrun. cbn [snd].
    assert (Hother : forall v, v = os_path_join input_folder input_file ->
              ~ is_video v).
    { intros v -> Heq. apply app_inj_tail in Heq as [_ Heq]. congruence. }
    assert (Hsetup' : Forall (spares is_video logged) setup).
    { eapply Forall_impl; [exact Hsetup|]. intros [] He; try discriminate;
        now apply spares_plain. }
    split.
    + eexists. split; [exact Htrace|].
      constructor; [split; [intros v [= <-]; now apply Hother | discriminate]|].
      exact Hsetup'.
    + exact Happ.
Qed.

Lemma main_leaves_alone (output_folder input_folder : path)
    (input_files : list string) (logged : string) :
  logged ∉ input_files ->
  always (leaves_alone (eq (os_path_join input_folder logged)) logged
            (os_path_join output_folder "scenes.csv"))
    (main output_folder input_folder input_files).
Proof.
  intros Hout. unfold main. always_by always_bind.
  { eapply quiet_leaves_alone; [|apply pipeline_only].
    repeat constructor; discriminate. }
  intros _. always_by always_bind.
  { apply always_both; [apply open_a_logs | apply open_a_appends]. }
  intros _. always_by always_for_each. intros input_file Hin.
  apply transcribe_one_leaves_alone. intros ->. contradiction.
Qed.

(** [init_folder] on an output folder that has its ledger. *)
Lemma init_folder_existing (output_folder : path)
    (rows : list (list string)) (cells : list string) (w : world) :
  is_Some (node_at (fs w) output_folder) ->
  ledger_is (os_path_join output_folder "scenes.csv") rows w ->
  first_cells (csv_reader rows) = Some cells ->
  init_folder output_folder w = (Ok cells, w).
Proof.
  intros Hdir Hledger Hcells. unfold init_folder.
  rewrite run_bind. unfold path_exists.
  rewrite bool_decide_eq_true_2 by assumption. cbn [negb].
  rewrite run_bind, (read_csv_run _ _ _ Hledger). unfold first_column.
  now rewrite Hcells.
Qed.

End IdempotenceFacts.

(** ** Scene numbers *)

Section NumberFacts.

Context {frame_timecode : FrameTimecode} {collaborators : Collaborators}.

Lemma to_uint_not_nil (n : nat) : Nat.to_uint n <> Nil.
Proof.
  rewrite <- (DecimalNat.Unsigned.of_to n) at 1.
  rewrite DecimalNat.Unsigned.to_of. unfold unorm.
  now destruct (nzhead (Nat.to_uint n)).
Qed.

Lemma len_zeros (k : nat) : PyStr.len (PyStr.zeros k) = k.
Proof. induction k as [|k IH]; simpl; [reflexivity | now rewrite IH]. Qed.

(** A decimal numeral has no sign for [zfill] to step over. *)
Lemma zfill_numeral (width : nat) (d : uint) :
  d <> Nil ->
  PyStr.zfill width (NilEmpty.string_of_uint d) =
  PyStr.zeros (width - PyStr.len (NilEmpty.string_of_uint d))
  +:+ NilEmpty.string_of_uint d.
Proof. intros Hd. destruct d; [contradiction | reflexivity..]. Qed.

Lemma of_uint_zero_in_front (d : uint) : Nat.of_uint (D0 d) = Nat.of_uint d.
Proof. reflexivity. Qed.

Lemma uint_of_padded (k : nat) (s : string) (d : uint) :
  NilEmpty.uint_of_string s = Some d ->
  exists d', NilEmpty.uint_of_string (PyStr.zeros k +:+ s) = Some d'
             /\ Nat.of_uint d' = Nat.of_uint d.
Proof.
  intros Hs. induction k as [|k (d' & Hd' & Heq)].
  - now exists d.
  - exists (D0 d'). cbn [PyStr.zeros]. rewrite app_cons.
    cbn [NilEmpty.uint_of_string]. now rewrite Hd'.
Qed.

(** The three-digit scene number reads back as the number it was made
    from, and three digits are the least it has. *)
Lemma scene_nr_reads_back (n : nat) :
  PyStr.int (PyStr.zfill 3 (PyStr.str n)) = Some n
  /\ (3 <= PyStr.len (PyStr.zfill 3 (PyStr.str n)))%nat
  /\ (n < 1000 -> PyStr.len (PyStr.zfill 3 (PyStr.str n)) = 3)%nat.
Proof.
  unfold PyStr.str.
  rewrite (zfill_numeral 3 _ (to_uint_not_nil n)).
  set (s := NilEmpty.string_of_uint (Nat.to_uint n)).
  assert (Hs : NilEmpty.uint_of_string s = Some (Nat.to_uint n))
    by apply NilEmpty.usu.
  assert (Hne : s <> "").
  { subst s. pose proof (to_uint_not_nil n). now destruct (Nat.to_uint n). }
  split; [|split].
  - destruct (uint_of_padded (3 - PyStr.len s) s _ Hs) as (d' & Hd' & Heq).
    unfold PyStr.int.
    destruct (PyStr.zeros (3 - PyStr.len s) +:+ s) eqn:Hpad.
    + exfalso. apply (f_equal PyStr.len) in Hpad.
      rewrite len_app in Hpad. simpl in Hpad.
      destruct s; [contradiction | simpl in Hpad; lia].
    + rewrite Hd'. simpl. now rewrite Heq, DecimalNat.Unsigned.of_to.
  - rewrite len_app, len_zeros. lia.
  - intros Hn. rewrite len_app, len_zeros.
    assert (PyStr.len s <= 3)%nat; [|lia].
    subst s. clear Hs Hne.
    do 1000 (destruct n as [|n]; [vm_compute; lia|]). lia.
Qed.








(** [open(csv_file, "a")] on a file that is there. *)
Lemma open_a_existing (csv_file : path) (rows : list (list string))
    (w : world) :
  ledger_is csv_file rows w -> open_a csv_file w = (Ok tt, w).
Proof.
  unfold ledger_is, open_a. intros H. rewrite run_bind. unfold get_fs.
  cbn beta iota. now rewrite H.
Qed.


End NumberFacts.

(** ** The directories of a video *)

Section VideoDirFacts.

Context {frame_timecode : FrameTimecode} {collaborators : Collaborators}.

Lemma prefix_snoc_inv (q d : path) (name : string) :
  q `prefix_of` d ++ [name] -> q = d ++ [name] \/ q `prefix_of` d.
Proof.
  intros [k Hk]. destruct (decide (k = [])) as [-> | Hne].
  - left. now rewrite app_nil_r in Hk.
  - right. destruct (exists_last Hne) as (k' & x & ->).
    rewrite app_assoc in Hk. apply app_inj_tail in Hk as [-> _].
    now exists k'.
Qed.

Lemma below_not_above (d q : path) (name : string) :
  d ++ [name] `prefix_of` q -> q `prefix_of` d -> False.
Proof.
  intros H1 H2. apply prefix_length in H1, H2.
  rewrite length_app in H1. simpl in H1. lia.
Qed.

(** [os.makedirs] for a new entry of a directory that is there. *)
Lemma makedirs_child (d : path) (name : string) (exist_ok : bool)
    (m : gmap path node) (t : list event) :
  node_at m d = Some Dir ->
  m !! (d ++ [name]) = None ->
  makedirs (d ++ [name]) exist_ok (World m t) =
  (Ok tt, World (<[d ++ [name] := Dir]> m) (t ++ [EMakedirs (d ++ [name])])).
Proof.
  intros Hd Hnone. unfold makedirs. rewrite run_bind, log_run. cbn [fs trace].
  rewrite rev_app_distr. cbn [rev app makedirs_rev].
  rewrite rev_involutive, run_bind. unfold path_exists. cbn [fs].
  rewrite Hd, bool_decide_eq_true_2 by eauto. cbn [negb when].
  rewrite run_bind, run_ret. unfold mkdir_leaf, mkdir.
  rewrite run_bind. unfold get_fs. cbn beta iota. cbn [fs].
  assert (Hne : rev d ++ [name] <> []) by now destruct (rev d).
  replace (rev (rev d) ++ [name]) with (d ++ [name])
    by now rewrite rev_involutive.
  rewrite node_at_lookup by now destruct d.
  rewrite Hnone, removelast_last, Hd. reflexivity.
Qed.


Lemma rmtree_existing (dir : path) (w : world) :
  node_at (fs w) dir = Some Dir ->
  rmtree dir w =
  (Ok tt, World (filter (fun kv => ~ dir `prefix_of` kv.1) (fs w))
            (trace w ++ [ERmtree dir])).
Proof. intros H. unfold rmtree. run_prim. now rewrite H. Qed.





End VideoDirFacts.

(** ** Ledgers that are empty, missing or new *)

Section LedgerFacts.

Context {frame_timecode : FrameTimecode} {collaborators : Collaborators}.

(** The part of [split_video_scenes] after the output directories, on an
    empty ledger. *)
Lemma split_after_setup_empty (input_folder images videos csv_file : path)
    (w : world) :
  ledger_is csv_file [] w ->
  (csv_exists ← path_exists csv_file ;
   when (negb csv_exists) (open_w csv_file [split_header]) ;;
   processed_videos ← read_processed csv_file ;
   vids ← listdir input_folder ;
   for_each vids
     (split_step input_folder images videos csv_file processed_videos)) w
  = (Raise StopIteration, w).
Proof.
  intros Hledger. rewrite run_bind. unfold path_exists.
  rewrite Hledger, bool_decide_eq_true_2 by eauto. cbn [negb when].
  rewrite run_bind, run_ret, run_bind. unfold read_processed.
  now rewrite run_bind, (read_csv_run _ _ _ Hledger).
Qed.

(** C9: on a ledger file that exists but is empty, [split_video_scenes]
    raises; once the output directories are made the exception is the
    [StopIteration] of [next(reader)].  Nothing but the making of
    directories has happened by then: the input folder was not listed,
    no video was touched, and the ledger is still empty. *)
Theorem empty_ledger_stops_split (input_folder output_folder csv_file : path)
    (w : world) :
  ledger_is csv_file [] w ->
  exists e added,
    split_video_scenes input_folder output_folder csv_file w
    = (Raise e, (split_setup output_folder w).2)
    /\ ((split_setup output_folder w).1 = Ok tt -> e = StopIteration)
    /\ trace (split_setup output_folder w).2 = trace w ++ added
    /\ Forall (fun e => exists dir, e = EMakedirs dir) added
    /\ ledger_is csv_file [] (split_setup output_folder w).2.
Proof.
  intros Hledger. unfold split_video_scenes, split_setup.
  rewrite !(run_bind (makedirs output_folder true)).
  pose proof (makedirs_effect output_folder true w) as [_ T1].
  pose proof (makedirs_keeps_ledger csv_file [] output_folder true w Hledger)
    as L1.
  destruct (makedirs output_folder true w) as [[[]|e1] w1];
    cbn [fst snd] in *.
  2:{ exists e1, [EMakedirs output_folder]. repeat split; try assumption.
      - discriminate.
      - repeat constructor. now eexists. }
  rewrite !(run_bind (makedirs (os_path_join output_folder "images") true)).
  pose proof (makedirs_effect (os_path_join output_folder "images") true w1)
    as [_ T2].
  pose proof (makedirs_keeps_ledger csv_file []
                (os_path_join output_folder "images") true w1 L1) as L2.
  destruct (makedirs (os_path_join output_folder "images") true w1)
    as [[[]|e2] w2]; cbn [fst snd] in *.
  2:{ exists e2, [EMakedirs output_folder;
                  EMakedirs (os_path_join output_folder "images")].
      repeat split; try assumption.
      - discriminate.
      - rewrite T2, T1, <- app_assoc. reflexivity.
      - repeat constructor; now eexists. }
  rewrite run_bind.
  pose proof (makedirs_effect (os_path_join output_folder "videos") true w2)
    as [_ T3].
  pose proof (makedirs_keeps_ledger csv_file []
                (os_path_join output_folder "videos") true w2 L2) as L3.
  destruct (makedirs (os_path_join output_folder "videos") true w2)
    as [[[]|e3] w3] eqn:E3; cbn [fst snd] in *.
  - exists StopIteration,
      [EMakedirs output_folder;
       EMakedirs (os_path_join output_folder "images");
       EMakedirs (os_path_join output_folder "videos")].
    split; [now apply split_after_setup_empty|].
    repeat split; try assumption.
    + rewrite T3, T2, T1, <- !app_assoc. reflexivity.
    + repeat constructor; now eexists.
  - exists e3,
      [EMakedirs output_folder;
       EMakedirs (os_path_join output_folder "images");
       EMakedirs (os_path_join output_folder "videos")].
    repeat split; try assumption.
    + discriminate.
    + rewrite T3, T2, T1, <- !app_assoc. reflexivity.
    + repeat constructor; now eexists.
Qed.

End LedgerFacts.

(** ** The transcription cell, and the script entry of split_video.py *)

Section EntryFacts.

Context {frame_timecode : FrameTimecode} {collaborators : Collaborators}.

(** C4, as the code has it: the transcription cell of a scene's row is
    [res.get("text", "NO TRANSCRIPTION FOUND")]: the sentinel when the
    result of the recogniser has no ["text"] entry, and the text of that
    entry, whatever it is, when it has one.  The step returns in both
    cases. *)
Theorem transcription_cell (rows : list (list string)) (sc : scene_record)
    (w : world) :
  let res := transcriber w sc.(audio) in
  exists row w',
    transcribe_scene rows sc w = (Ok (rows ++ [row]), w')
    /\ row !! 6%nat = Some (transcription_of res)
    /\ (res !! "text" = None -> transcription_of res = no_transcription)
    /\ (forall text, res !! "text" = Some text -> transcription_of res = text).
Proof.
  cbv zeta. rewrite transcribe_scene_run. eexists _, _.
  split; [reflexivity|]. split; [reflexivity|].
  unfold transcription_of. split.
  - now intros ->.
  - now intros text ->.
Qed.

(** C6 fails on the code: the call of line 80 leaves the parameter
    [csv_file] of line 11 without an argument, so the script raises
    [TypeError] before it does anything. *)
Theorem split_video_script_raises (w : world) :
  split_video_script w = (Raise TypeError, w).
Proof. reflexivity. Qed.

End EntryFacts.

(** * Further properties of the code *)

(** ** The to-do list of transcribe.py and the header of its ledger *)

Section TodoFacts.

Context {frame_timecode : FrameTimecode} {collaborators : Collaborators}.

Lemma transcribe_todo_filter (files done : list string) :
  transcribe_todo files done =
  filter (fun file => is_video_file file = true /\ file ∉ done) files.
Proof. unfold transcribe_todo. now rewrite scan_todo_filter. Qed.

(** X1: [init_folder] does not skip the header row, so [done] starts with
    the header cell ["video"].  Cells that do not end in an allowed
    extension, the header cell among them, keep no file out of the to-do
    list. *)
Theorem header_cell_blocks_no_video (files done : list string) :
  transcribe_todo files done
  = transcribe_todo files (filter (fun cell => is_video_file cell = true) done)
  /\ transcribe_todo files ("video" :: done) = transcribe_todo files done.
Proof.
  rewrite !transcribe_todo_filter. split; apply list_filter_iff; intros file.
  - rewrite list_elem_of_filter. split.
    + intros [Hvideo Hnew]. split; [assumption|]. intros [_ Hin]. tauto.
    + intros [Hvideo Hnew]. split; [assumption|]. intros Hin. tauto.
  - rewrite elem_of_cons. split.
    + intros [Hvideo Hnew]. split; [assumption|]. tauto.
    + intros [Hvideo Hnew]. split; [assumption|].
      intros [-> | Hin]; [discriminate Hvideo | tauto].
Qed.

End TodoFacts.

(** ** The files of two scenes *)

Section SceneFileFacts.

Context {frame_timecode : FrameTimecode}.

Lemma append_inv_tail (a b t : string) : a +:+ t = b +:+ t -> a = b.
Proof.
  revert b; induction a as [|c a IH]; intros [|d b] H.
  - reflexivity.
  - apply (f_equal String.length) in H. rewrite app_empty, app_cons in H.
    pose proof (len_app b t) as L. unfold PyStr.len in L.
    cbn [String.length] in H. lia.
  - apply (f_equal String.length) in H. rewrite app_empty, app_cons in H.
    pose proof (len_app a t) as L. unfold PyStr.len in L.
    cbn [String.length] in H. lia.
  - rewrite !app_cons in H. injection H as -> H. f_equal. now apply IH.
Qed.

Lemma scene_nr_inj (i j : nat) :
  PyStr.zfill 3 (PyStr.str (i + 1)) = PyStr.zfill 3 (PyStr.str (j + 1)) ->
  i = j.
Proof.
  intros H. apply (f_equal PyStr.int) in H.
  destruct (scene_nr_reads_back (i + 1)) as (Hi & _).
  destruct (scene_nr_reads_back (j + 1)) as (Hj & _).
  rewrite Hi, Hj in H. injection H. lia.
Qed.

(** X2: Lines 79-85: two scenes of a video never share a scene number, a
    clip, an image or an audio file, however many scenes there are; up
    to scene 999 the scene number has exactly three characters. *)
Theorem scene_files_are_distinct (input_file file_ext : string)
    (scenes_dir images_dir audio_dir : path) (i j : nat)
    (bounds_i bounds_j : scene_bounds) :
  let scene_i :=
    make_scene input_file file_ext scenes_dir images_dir audio_dir i
      bounds_i in
  let scene_j :=
    make_scene input_file file_ext scenes_dir images_dir audio_dir j
      bounds_j in
  i <> j ->
  scene_nr scene_i <> scene_nr scene_j
  /\ scene scene_i <> scene scene_j
  /\ image scene_i <> image scene_j
  /\ audio scene_i <> audio scene_j
  /\ (i < 999 -> PyStr.len (scene_nr scene_i) = 3)%nat.
Proof.
  cbv zeta. intros Hij. unfold make_scene, os_path_join. cbn.
  assert (Hfile : forall (dir : path) (ext : string),
            dir ++ [PyStr.zfill 3 (PyStr.str (i + 1)) +:+ ext]
            <> dir ++ [PyStr.zfill 3 (PyStr.str (j + 1)) +:+ ext]).
  { intros dir ext H. apply app_inj_tail in H as [_ H].
    apply append_inv_tail in H. now apply Hij, scene_nr_inj. }
  split; [intros H; now apply Hij, scene_nr_inj|].
  split; [apply Hfile|]. split; [apply Hfile|]. split; [apply Hfile|].
  intros Hi. destruct (scene_nr_reads_back (i + 1)) as (_ & _ & Hlen).
  apply Hlen. lia.
Qed.

End SceneFileFacts.

(** ** split_video.py: the output directories, then the rest *)

Section SetupFacts.

Context {frame_timecode : FrameTimecode} {collaborators : Collaborators}.

Lemma split_video_scenes_after_setup
    (input_folder output_folder csv_file : path) (w : world) :
  split_video_scenes input_folder output_folder csv_file w =
  match split_setup output_folder w with
  | (Ok _, w1) => split_after_setup input_folder output_folder csv_file w1
  | (Raise e, w1) => (Raise e, w1)
  end.
Proof.
  unfold split_video_scenes, split_setup.
  rewrite !(run_bind (makedirs output_folder true)).
  destruct (makedirs output_folder true w) as [[[]|e1] w1]; [|reflexivity].
  rewrite !(run_bind (makedirs (os_path_join output_folder "images") true)).
  destruct (makedirs (os_path_join output_folder "images") true w1)
    as [[[]|e2] w2]; [|reflexivity].
  rewrite run_bind.
  destruct (makedirs (os_path_join output_folder "videos") true w2)
    as [[[]|e3] w3]; reflexivity.
Qed.

(** Lines 13-17 log the making of directories and keep every entry of
    the file system. *)
Lemma split_setup_effect (output_folder : path) (w : world) :
  (exists added,
     trace (split_setup output_folder w).2 = trace w ++ added
     /\ Forall (fun e => exists dir, e = EMakedirs dir) added)
  /\ (forall q n,
        fs w !! q = Some n -> fs (split_setup output_folder w).2 !! q = Some n).
Proof.
  assert (H : always (both (logs (fun e => exists dir, e = EMakedirs dir))
                        (keeps (fun _ => False)))
                (split_setup output_folder)).
  { assert (Hdir : forall p exist_ok,
              always (both (logs (fun e => exists dir, e = EMakedirs dir))
                        (keeps (fun _ => False))) (makedirs p exist_ok)).
    { intros p exist_ok. apply always_both; [|apply makedirs_keeps].
      apply makedirs_logs. now eexists. }
    unfold split_setup.
    always_by always_bind; [apply Hdir | intros _].
    always_by always_bind; [apply Hdir | intros _]. apply Hdir. }
  destruct (H w) as [Hlogs Hkeeps]. split; [exact Hlogs|].
  intros q n. now apply Hkeeps.
Qed.

Lemma split_setup_keeps_ledger (output_folder csv_file : path)
    (rows : list (list string)) (w : world) :
  ledger_is csv_file rows w ->
  ledger_is csv_file rows (split_setup output_folder w).2.
Proof.
  intros H. destruct (ledger_is_lookup _ _ _ H) as [Hne Hcsv].
  unfold ledger_is. rewrite node_at_lookup by assumption.
  now apply split_setup_effect.
Qed.


End SetupFacts.

(** ** Ledgers with a blank line, and ledgers that are missing *)

Section LedgerEdgeFacts.

Context {frame_timecode : FrameTimecode} {collaborators : Collaborators}.

Lemma first_cells_None (rows : list (list string)) :
  first_cells rows = None <-> [] ∈ rows.
Proof.
  induction rows as [|[|c row] rows IH]; cbn [first_cells].
  - split; [discriminate | intros H; now apply elem_of_nil in H].
  - split; [left | reflexivity].
  - rewrite elem_of_cons, <- IH. destruct (first_cells rows); cbn.
    + split; [discriminate | intros [? | ?]; discriminate].
    + split; [now right | reflexivity].
Qed.



(** The loop of [split_video_scenes] on an empty set of processed
    videos. *)
Lemma split_todo_nothing_processed (vids : list string) :
  split_todo vids ∅ = filter (fun file => is_video_file file = true) vids.
Proof.
  unfold split_todo. apply list_filter_iff. intros file.
  rewrite split_skips_false. split; [tauto|]. intros H. split; [assumption|].
  apply not_elem_of_empty.
Qed.

(** X4: Lines 20-30 where there is no ledger: it is created with the header
    row, no video counts as processed, and every file of the listing that
    ends in an allowed extension is worked on, in listing order.  Where
    the directory of the ledger is a regular file, or does not resolve,
    the function stops with the error of [open]: [NotADirectoryError]
    where a regular file lies on the way to the ledger,
    [FileNotFoundError] where none does. *)
Theorem missing_ledger_is_created (input_folder output_folder csv_file : path)
    (w : world) :
  let w1 := (split_setup output_folder w).2 in
  let images := os_path_join output_folder "images" in
  let videos := os_path_join output_folder "videos" in
  let parent := removelast csv_file in
  (split_setup output_folder w).1 = Ok tt ->
  node_at (fs w1) csv_file = None ->
  split_video_scenes input_folder output_folder csv_file w
  = match node_at (fs w1) parent with
    | Some Dir =>
        (vids ← listdir input_folder ;
         for_each (filter (fun file => is_video_file file = true) vids)
           (split_one input_folder images videos csv_file))
          (World (<[csv_file := File [split_header]]> (fs w1))
             (trace w1 ++ [ECreate csv_file]))
    | Some (File _) =>
        (Raise NotADirectoryError,
         World (fs w1) (trace w1 ++ [ECreate csv_file]))
    | None =>
        (Raise (missing_error (fs w1) parent),
         World (fs w1) (trace w1 ++ [ECreate csv_file]))
    end
  /\ (no_file_above (fs w1) parent ->
      missing_error (fs w1) parent = FileNotFoundError)
  /\ (forall q rows,
        dirs_above (fs w1) q -> node_at (fs w1) q = Some (File rows) ->
        q `prefix_of` parent -> q <> parent ->
        missing_error (fs w1) parent = NotADirectoryError).
Proof.
  cbv zeta. intros Hsetup Hnone.
  split; [|split; [apply missing_error_no_file|]].
  2:{ intros q rows Hdirs Hfile Hq Hne.
      exact (missing_error_below_file _ q _ rows Hdirs Hfile Hq Hne). }
  rewrite split_video_scenes_after_setup.
  destruct (split_setup output_folder w) as [[[]|e] w1]; cbn [fst snd] in *;
    [|discriminate].
  destruct (node_at_None _ _ Hnone) as [Hne Hlookup].
  unfold split_after_setup. rewrite run_bind. unfold path_exists.
  rewrite Hnone, bool_decide_eq_false_2 by (intros [? ?]; discriminate).
  cbn [negb when]. rewrite run_bind. unfold open_w. run_prim.
  rewrite Hnone. unfold parent_check.
  destruct (node_at (fs w1) (removelast csv_file)) as [[|rows]|];
    try reflexivity.
  cbn beta iota. run_prim. unfold read_processed, read_csv. run_prim.
  rewrite node_at_lookup, lookup_insert_eq by assumption.
  cbn beta iota. rewrite run_ret. cbn [csv_reader map]. cbn beta iota.
  unfold first_column.
  cbn [first_cells]. rewrite run_bind, run_ret, run_ret.
  cbn [list_to_set foldr]. rewrite !(run_bind (listdir input_folder)).
  destruct (listdir input_folder _) as [[vids|e] w2]; [|reflexivity].
  rewrite <- split_todo_nothing_processed. apply split_loop_todo.
Qed.

(** ** Videos without scenes *)

(** X5: Where the detector finds no scene, the video is worked on but gets
    no row: [split_video.py] leaves the file system as it was, and
    [transcribe.py] leaves the ledger as it was and writes no row.  The
    video is not logged, so the next run finds it to do again. *)
Theorem sceneless_video_is_not_logged :
  (forall input_folder images videos csv_file video_file rows0 w,
     ledger_is csv_file rows0 w ->
     detect_scenes w (os_path_join input_folder video_file) false = [] ->
     split_one input_folder images videos csv_file video_file w
     = (Ok tt,
        World (fs w)
          (trace w
           ++ split_artifacts input_folder images videos video_file [])))
  /\ (forall output_folder input_folder input_file rows0 w w',
        let output_csv := os_path_join output_folder "scenes.csv" in
        fs w !! output_csv = Some (File rows0) ->
        detect_scenes w (os_path_join input_folder input_file) true = [] ->
        transcribe_one output_folder input_folder output_csv input_file w
        = (Ok tt, w') ->
        fs w' !! output_csv = Some (File rows0)
        /\ exists added,
             trace w' = trace w ++ added
             /\ Forall (fun e => is_row e = false) added).
Proof.
  split.
  - intros input_folder images videos csv_file video_file rows0 w Hledger
      Hnone.
    rewrite split_one_run. cbv zeta. rewrite Hnone.
    rewrite (open_a_existing csv_file rows0) by exact Hledger.
    cbn [fst snd fs trace split_rows enumerate enumerate_from map].
    now rewrite append_rows_nil, app_nil_r.
  - intros output_folder input_folder input_file rows0 w w'. cbv zeta.
    intros Hledger Hnone Hrun.
    destruct (transcribe_one_run output_folder input_folder
                (os_path_join output_folder "scenes.csv") input_file w)
      as (setup & Htrace & Hsetup & Hone).
    cbv zeta in Hone. rewrite Hnone in Hone.
    match type of Htrace with context [make_video_dirs ?a ?b ?c ?d ?w0] =>
      pose proof (make_video_dirs_appends
                    (os_path_join output_folder "scenes.csv")
                    (fun _ => False) a b c d
                    (video_dir_not_above_ledger _ _) w0 rows0 Hledger)
        as (new & Hnew & Hfalse);
      destruct (make_video_dirs a b c d w0) as [[[]|e] w1]
    end; cbn [fst snd fs] in *; [|congruence].
    destruct Hone as (texts & Hlen & Hone). rewrite Hone in Hrun.
    injection Hrun as <-. cbn [fs trace].
    destruct new as [|row new]; [|now inversion Hfalse].
    rewrite app_nil_r in Hnew. split.
    + cbn [yielded_scenes enumerate enumerate_from map zip_with].
      now rewrite append_rows_nil.
    + eexists. split; [reflexivity|].
      cbn [yielded_scenes enumerate enumerate_from map zip_with].
      rewrite app_nil_r.
      apply (transcribe_block_no_row input_folder output_folder _ []).
      exists input_file, [], setup, []. now repeat split.
Qed.

End LedgerEdgeFacts.

(** ** The directory of a video in transcribe.py *)

Section VideoRunFacts.

Context {frame_timecode : FrameTimecode} {collaborators : Collaborators}.

(** X6: A video whose directories cannot be made gets no row: where
    lines 58-61 raise, the exception leaves [transcribe_one] right there,
    after scene detection and the directory steps and before any image,
    clip or audio file, and the ledger is as it was. *)
Theorem failed_video_writes_no_row (output_folder input_folder : path)
    (input_file : string) (e : exn) (w w' : world) :
  let output_csv := os_path_join output_folder "scenes.csv" in
  let input_path := os_path_join input_folder input_file in
  make_video_dirs (video_dir_of output_folder input_file)
    (scenes_dir_of output_folder input_file)
    (images_dir_of output_folder input_file)
    (audio_dir_of output_folder input_file)
    (World (fs w) (trace w ++ [EDetect input_path true]))
  = (Raise e, w') ->
  transcribe_one output_folder input_folder output_csv input_file w
  = (Raise e, w')
  /\ (exists setup,
        trace w' = trace w ++ EDetect input_path true :: setup
        /\ Forall (fun e => is_dir_event e = true) setup)
  /\ (forall rows0,
        fs w !! output_csv = Some (File rows0) ->
        fs w' !! output_csv = Some (File rows0)).
Proof.
  cbv zeta. intros Hdirs.
  destruct (transcribe_one_run output_folder input_folder
              (os_path_join output_folder "scenes.csv") input_file w)
    as (setup & Htrace & Hsetup & Hone).
  cbv zeta in Hone.
  match type of Htrace with context [make_video_dirs ?a ?b ?c ?d ?w0] =>
    pose proof (make_video_dirs_appends
                  (os_path_join output_folder "scenes.csv")
                  (fun _ => False) a b c d
                  (video_dir_not_above_ledger _ _) w0) as Happ
  end.
  rewrite Hdirs in Htrace, Hone, Happ. cbn [fst snd fs] in *.
  split; [exact Hone|]. split.
  - now exists setup.
  - intros rows0 Hrows0. destruct (Happ rows0 Hrows0) as (new & Hnew & Hno).
    destruct new as [|row new]; [|now inversion Hno].
    now rewrite app_nil_r in Hnew.
Qed.

(** [os.makedirs(p)] that returns has made the directory [p]. *)
Lemma makedirs_made (p : path) (w w' : world) :
  makedirs p false w = (Ok tt, w') -> fs w' !! p = Some Dir.
Proof.
  unfold makedirs. rewrite run_bind, log_run.
  destruct (rev p) as [|tail rhead] eqn:Hrev; [discriminate|].
  assert (Hp : p = rev (tail :: rhead)) by now rewrite <- Hrev, rev_involutive.
  cbn [makedirs_rev]. rewrite run_bind. unfold path_exists at 1.
  cbn beta iota. rewrite run_bind.
  match goal with |- context [when ?b ?m ?w0] =>
    destruct (when b m w0) as [[[]|e0] w1] end; [|discriminate].
  unfold mkdir_leaf, mkdir. rewrite run_bind. unfold get_fs. cbn beta iota.
  destruct (node_at (fs w1) (rev (tail :: rhead))) as [n|];
    [cbn; discriminate|].
  destruct (node_at (fs w1) (removelast (rev (tail :: rhead))))
    as [[|rows]|]; cbn; try discriminate.
  intros [= <-]. cbn [fs]. rewrite Hp. apply lookup_insert_eq.
Qed.

(** [make_video_dirs] that returns has made the directory of the
    video. *)
Lemma make_video_dirs_made (video_dir scenes_dir images_dir audio_dir : path)
    (w w' : world) :
  make_video_dirs video_dir scenes_dir images_dir audio_dir w = (Ok tt, w') ->
  fs w' !! video_dir = Some Dir.
Proof.
  unfold make_video_dirs. rewrite run_bind. unfold path_exists at 1.
  cbn beta iota. rewrite run_bind.
  match goal with |- context [when ?b ?m ?w0] =>
    destruct (when b m w0) as [[[]|e0] w1] end; [|discriminate].
  rewrite for_each_cons, run_bind.
  destruct (makedirs video_dir false w1) as [[[]|e1] w2] eqn:Hmade;
    [|discriminate].
  apply makedirs_made in Hmade. intros Hrest.
  assert (Hkeeps : always (keeps (fun _ => False))
            (for_each [scenes_dir; images_dir; audio_dir]
               (fun create_dir => makedirs create_dir false))).
  { always_by always_for_each. intros dir _. apply makedirs_keeps. }
  specialize (Hkeeps w2 video_dir Dir). rewrite Hrest in Hkeeps.
  now apply Hkeeps.
Qed.

Lemma video_dir_is_not_ledger (output_folder : path) (input_file : string) :
  video_dir_of output_folder input_file
  <> os_path_join output_folder "scenes.csv".
Proof.
  intros H. apply (f_equal length) in H.
  unfold video_dir_of, os_path_join in H. rewrite !length_app in H.
  simpl in H. lia.
Qed.

Lemma video_dir_not_nil (output_folder : path) (input_file : string) :
  video_dir_of output_folder input_file <> [].
Proof.
  intros H. apply (f_equal length) in H.
  unfold video_dir_of, os_path_join in H. rewrite !length_app in H.
  simpl in H. lia.
Qed.

(** The trace of [transcribe_one]: detection, the directory steps, then
    the rest. *)
Lemma transcribe_one_trace (output_folder input_folder output_csv : path)
    (input_file : string) (w : world) :
  let input_path := os_path_join input_folder input_file in
  exists setup rest,
    trace (make_video_dirs (video_dir_of output_folder input_file)
             (scenes_dir_of output_folder input_file)
             (images_dir_of output_folder input_file)
             (audio_dir_of output_folder input_file)
             (World (fs w) (trace w ++ [EDetect input_path true]))).2
    = trace w ++ EDetect input_path true :: setup
    /\ trace (transcribe_one output_folder input_folder output_csv
                input_file w).2
       = trace w ++ EDetect input_path true :: setup ++ rest
    /\ Forall (fun e => opened e = None) (setup ++ rest).
Proof.
  cbv zeta.
  destruct (transcribe_one_run output_folder input_folder output_csv
              input_file w) as (setup & Htrace & Hsetup & Hone).
  cbv zeta in Hone. exists setup.
  assert (Hquiet : Forall (fun e => opened e = None) setup).
  { eapply Forall_impl; [exact Hsetup|]. now intros []. }
  destruct (make_video_dirs _ _ _ _ _) as [[[]|e] w1]; cbn [fst snd] in *.
  - destruct Hone as (texts & Hlen & ->). cbn [snd trace].
    eexists. split; [exact Htrace|]. split.
    + unfold transcribe_artifacts. cbn [app].
      rewrite <- !app_assoc. reflexivity.
    + apply Forall_app. split; [exact Hquiet|].
      constructor; [reflexivity|]. constructor; [reflexivity|].
      apply Forall_app. split.
      * unfold scene_events. apply Forall_flat_map, Forall_forall.
        intros sc _. now repeat constructor.
      * apply Forall_map, Forall_forall. now intros.
  - exists []. rewrite Hone, app_nil_r. cbn [snd]. now repeat split.
Qed.

(** X7: [transcribe.py] names the directory of a video by its bare name.
    Where two files of the input folder differ in their extension only,
    the second shares the directory of the first: once the first was
    worked on, the directory is there, and working on the second starts
    by removing it with everything the first left in it. *)
Theorem same_name_videos_share_a_directory (output_folder input_folder : path)
    (first second : string) (w w1 : world) :
  let output_csv := os_path_join output_folder "scenes.csv" in
  (splitext first).1 = (splitext second).1 ->
  transcribe_one output_folder input_folder output_csv first w = (Ok tt, w1) ->
  video_dir_of output_folder second = video_dir_of output_folder first
  /\ fs w1 !! video_dir_of output_folder first = Some Dir
  /\ exists rest,
       trace (transcribe_one output_folder input_folder output_csv second
                w1).2
       = trace w1
         ++ EDetect (os_path_join input_folder second) true
            :: ERmtree (video_dir_of output_folder first) :: rest.
Proof.
  cbv zeta. intros Hname Hfirst.
  assert (Hsame : video_dir_of output_folder second
                  = video_dir_of output_folder first)
    by (unfold video_dir_of; now rewrite Hname).
  assert (Hdir : fs w1 !! video_dir_of output_folder first = Some Dir).
  { destruct (transcribe_one_run output_folder input_folder
                (os_path_join output_folder "scenes.csv") first w)
      as (setup & _ & _ & Hone).
    cbv zeta in Hone.
    destruct (make_video_dirs _ _ _ _ _) as [[[]|e] w0] eqn:Hdirs;
      cbn [fst snd] in *; [|congruence].
    apply make_video_dirs_made in Hdirs.
    destruct Hone as (texts & _ & Hone). rewrite Hone in Hfirst.
    injection Hfirst as <-. cbn [fs].
    rewrite append_rows_other by apply video_dir_is_not_ledger.
    exact Hdirs. }
  split; [exact Hsame|]. split; [exact Hdir|].
  assert (Hnode : node_at (fs w1) (video_dir_of output_folder first)
                  = Some Dir)
    by (rewrite node_at_lookup; [exact Hdir | apply video_dir_not_nil]).
  destruct (transcribe_one_trace output_folder input_folder
              (os_path_join output_folder "scenes.csv") second w1)
    as (setup & rest & Hdirs & Htrace & _).
  rewrite Htrace.
  assert (Hstart : exists more, setup
                     = ERmtree (video_dir_of output_folder first) :: more).
  { rewrite Hsame in Hdirs. revert Hdirs. unfold make_video_dirs.
    rewrite run_bind. unfold path_exists at 1. cbn [fs].
    rewrite Hnode, bool_decide_eq_true_2 by eauto. cbn [when].
    rewrite run_bind, rmtree_existing by exact Hnode.
    cbn [fs trace].
    match goal with |- context [for_each ?l ?body ?w0] =>
      assert (Hlogs : always (logs (fun _ => True)) (for_each l body))
        by (always_by always_for_each; intros dir _; now apply makedirs_logs);
      destruct (Hlogs w0) as (more & Hmore & _)
    end.
    intros Heq. rewrite Hmore in Heq. cbn [trace] in Heq.
    rewrite <- !app_assoc in Heq. apply app_inv_head in Heq.
    cbn [app] in Heq. injection Heq as <-. now exists more. }
  destruct Hstart as (more & ->). now exists (more ++ rest).
Qed.

End VideoRunFacts.

(** ** The videos that a run opens *)

Section OpenedFacts.

Context {frame_timecode : FrameTimecode} {collaborators : Collaborators}.

Lemma videos_opened_app (l1 l2 : list event) :
  videos_opened (l1 ++ l2) = videos_opened l1 ++ videos_opened l2.
Proof. apply omap_app. Qed.

Lemma videos_opened_none (l : list event) :
  Forall (fun e => opened e = None) l -> videos_opened l = [].
Proof.
  induction 1 as [|e l He _ IH]; [reflexivity|].
  unfold videos_opened in *. cbn [omap list_omap]. now rewrite He.
Qed.

(** A loop whose every round opens just the video of its item opens the
    videos of the items in order, up to the round in which it stops. *)
Lemma for_each_opened {A} (video_of : A -> path) (body : A -> M unit)
    (l : list A) :
  (forall x w, exists added,
     trace (body x w).2 = trace w ++ added
     /\ videos_opened added = [video_of x]) ->
  forall w, exists added,
    trace (for_each l body w).2 = trace w ++ added
    /\ videos_opened added `prefix_of` map video_of l
    /\ ((for_each l body w).1 = Ok tt ->
        videos_opened added = map video_of l).
Proof.
  intros Hbody. induction l as [|x l IH]; intros w.
  - exists []. cbn. rewrite app_nil_r. repeat split. apply prefix_nil.
  - rewrite for_each_cons, run_bind.
    destruct (Hbody x w) as (a1 & Ha1 & Hv1).
    destruct (body x w) as [[[]|e] w1]; cbn [fst snd] in *.
    + destruct (IH w1) as (a2 & Ha2 & Hpre & Hall).
      exists (a1 ++ a2). rewrite Ha2, Ha1, <- app_assoc.
      rewrite videos_opened_app, Hv1. cbn [map app].
      split; [reflexivity|]. split; [now apply prefix_cons|].
      intros Hok. now rewrite (Hall Hok).
    + exists a1. rewrite Hv1. cbn [map].
      split; [assumption|]. split; [|discriminate].
      apply prefix_cons, prefix_nil.
Qed.

Lemma split_one_opened (input_folder images videos csv_file : path)
    (video_file : string) (w : world) :
  exists added,
    trace (split_one input_folder images videos csv_file video_file w).2
    = trace w ++ added
    /\ videos_opened added = [os_path_join input_folder video_file].
Proof.
  rewrite split_one_run. cbv zeta.
  assert (Hrows : forall rows,
            videos_opened (map (EWriteRow csv_file) rows) = []).
  { intros rows. apply videos_opened_none, Forall_map, Forall_forall.
    now intros. }
  match goal with |- context [open_a ?f ?w0] =>
    destruct (open_a f w0) as [[[]|e] w2] end; cbn [fst snd trace].
  - eexists. split; [reflexivity|].
    now rewrite videos_opened_app, Hrows.
  - eexists. split; reflexivity.
Qed.

Lemma transcribe_one_opened (output_folder input_folder output_csv : path)
    (input_file : string) (w : world) :
  exists added,
    trace (transcribe_one output_folder input_folder output_csv input_file
             w).2
    = trace w ++ added
    /\ videos_opened added = [os_path_join input_folder input_file].
Proof.
  destruct (transcribe_one_trace output_folder input_folder output_csv
              input_file w) as (setup & rest & _ & Htrace & Hquiet).
  eexists. split; [exact Htrace|].
  unfold videos_opened. cbn [omap list_omap opened]. f_equal.
  now apply videos_opened_none.
Qed.

Lemma split_loop_opened (input_folder images videos csv_file : path)
    (processed : gset string) (vids : list string) (w : world) :
  let run :=
    for_each vids
      (split_step input_folder images videos csv_file processed) w in
  let todo := map (os_path_join input_folder) (split_todo vids processed) in
  exists added,
    trace run.2 = trace w ++ added
    /\ videos_opened added `prefix_of` todo
    /\ (run.1 = Ok tt -> videos_opened added = todo).
Proof.
  cbv zeta. rewrite split_loop_todo.
  apply (for_each_opened (os_path_join input_folder)).
  intros video_file w0. apply split_one_opened.
Qed.

Lemma main_opened (output_folder input_folder : path)
    (input_files : list string) (w : world) :
  let run := main output_folder input_folder input_files w in
  let todo := map (os_path_join input_folder) input_files in
  exists added,
    trace run.2 = trace w ++ added
    /\ videos_opened added `prefix_of` todo
    /\ (run.1 = Ok tt -> videos_opened added = todo).
Proof.
  cbv zeta. unfold main. rewrite run_bind.
  match goal with |- context [pipeline ?task ?model w] =>
    destruct (pipeline_only task model w) as [_ Hload];
    destruct (pipeline task model w) as [[[]|e0] w0]
  end; cbn [snd] in Hload.
  2:{ eexists. cbn [fst snd]. split; [exact Hload|].
      split; [apply prefix_nil | discriminate]. }
  rewrite run_bind.
  destruct (open_a_effect (os_path_join output_folder "scenes.csv") w0)
    as [Hquiet _].
  destruct (open_a _ w0) as [[[]|e] w1]; cbn [snd] in Hquiet.
  - destruct (for_each_opened (os_path_join input_folder)
                (transcribe_one output_folder input_folder
                   (os_path_join output_folder "scenes.csv")) input_files
                (fun input_file w2 =>
                   transcribe_one_opened _ _ _ input_file w2) w1)
      as (added & Htrace & Hpre & Hall).
    eexists (_ :: added). rewrite Htrace, Hquiet, Hload, <- app_assoc.
    split; [reflexivity|]. now split.
  - eexists. cbn [fst snd]. rewrite Hquiet. split; [exact Hload|].
    split; [apply prefix_nil | discriminate].
Qed.

(** X8: The loops of lines 36-77 of [split_video.py] and 109-132 of
    [transcribe.py] open the videos of their to-do list for scene
    detection, each one once and in the order of the list, and open no
    other video.  A loop that is left by an exception has opened the
    videos up to the one it stopped at. *)
Theorem videos_are_opened_in_listing_order :
  (forall input_folder images videos csv_file processed vids w,
     let run :=
       for_each vids
         (split_step input_folder images videos csv_file processed) w in
     let todo :=
       map (os_path_join input_folder) (split_todo vids processed) in
     exists added,
       trace run.2 = trace w ++ added
       /\ videos_opened added `prefix_of` todo
       /\ (run.1 = Ok tt -> videos_opened added = todo))
  /\ (forall output_folder input_folder input_files w,
        let run := main output_folder input_folder input_files w in
        let todo := map (os_path_join input_folder) input_files in
        exists added,
          trace run.2 = trace w ++ added
          /\ videos_opened added `prefix_of` todo
          /\ (run.1 = Ok tt -> videos_opened added = todo)).
Proof.
  split.
  - intros. apply split_loop_opened.
  - intros. apply main_opened.
Qed.

End OpenedFacts.

(** ** What a directory listing holds *)

Section ListingFacts.

Context {frame_timecode : FrameTimecode} {collaborators : Collaborators}.

Lemma child_name_Some (dir p : path) (name : string) :
  child_name dir p = Some name <-> p = dir ++ [name].
Proof.
  revert p; induction dir as [|d dir IH]; intros p; cbn [child_name app].
  - destruct p as [|c [|c' p]]; split; try discriminate; congruence.
  - destruct p as [|c p]; [split; discriminate|].
    destruct (decide (d = c)) as [-> | Hne].
    + rewrite IH. split; [now intros -> | now intros [= ->]].
    + split; [discriminate | intros [= ? _]; congruence].
Qed.

Lemma elem_of_entries (m : gmap path node) (dir : path) (name : string) :
  name ∈ entries m dir <-> is_Some (m !! os_path_join dir name).
Proof.
  unfold entries, os_path_join. rewrite list_elem_of_omap. split.
  - intros ([p n] & Hin & Hname). cbn [fst] in Hname.
    apply child_name_Some in Hname as ->.
    apply elem_of_map_to_list in Hin. eauto.
  - intros [n Hn]. exists (dir ++ [name], n). split.
    + now apply elem_of_map_to_list.
    + now apply child_name_Some.
Qed.

Lemma NoDup_entries (m : gmap path node) (dir : path) :
  NoDup (entries m dir).
Proof.
  unfold entries. pose proof (NoDup_fst_map_to_list m) as Hkeys.
  induction (map_to_list m) as [|[p n] l IH]; [constructor|].
  cbn [fmap list_fmap fst] in Hkeys. apply NoDup_cons in Hkeys as [Hp Hl].
  cbn [omap list_omap fst].
  destruct (child_name dir p) as [name|] eqn:Hname; [|now apply IH].
  apply NoDup_cons. split; [|now apply IH].
  rewrite list_elem_of_omap. intros ([p' n'] & Hin & Hname').
  cbn [fst] in Hname'. apply child_name_Some in Hname, Hname'. subst p p'.
  apply Hp. apply list_elem_of_fmap. now exists (dir ++ [name], n').
Qed.

Lemma listdir_run (dir : path) (w : world) (files : list string)
    (w' : world) :
  listdir dir w = (Ok files, w') ->
  files = entries (fs w) dir /\ w' = World (fs w) (trace w ++ [EListdir dir]).
Proof.
  unfold listdir. run_prim.
  destruct (node_at (fs w) dir) as [[|rows]|]; cbn; try discriminate.
  now intros [= <- <-].
Qed.

(** X9: Lines 142-151: [os.listdir] names every entry of the folder once, so
    the list that the script hands to [main] holds just the entries of
    the input folder that end in an allowed extension and are not among
    the first cells of the ledger, each one once. *)
Theorem todo_of_a_run (folder output : path) (done files : list string)
    (w w1 w2 : world) :
  init_folder output w = (Ok done, w1) ->
  listdir folder w1 = (Ok files, w2) ->
  let todo := transcribe_todo files done in
  transcribe_script folder output w = main output folder todo w2
  /\ NoDup todo
  /\ forall file,
       file ∈ todo <->
       is_Some (fs w1 !! os_path_join folder file)
       /\ is_video_file file = true /\ file ∉ done.
Proof.
  intros Hinit Hlist. cbv zeta. split; [|split].
  - unfold transcribe_script. now rewrite run_bind, Hinit, run_bind, Hlist.
  - apply listdir_run in Hlist as [-> _]. rewrite transcribe_todo_filter.
    apply NoDup_filter, NoDup_entries.
  - intros file. apply listdir_run in Hlist as [-> _].
    now rewrite transcribe_todo_elem, elem_of_entries.
Qed.

End ListingFacts.

(** ** What a run removes *)

Section RemovalFacts.

Context {frame_timecode : FrameTimecode} {collaborators : Collaborators}.

Section Steps.

(** The events that the run may log are those of [P], which holds of
    every event but a removal; the paths it may change are those of
    [D]. *)
Context (P : event -> Prop) (D : path -> Prop).
Hypothesis P_no_rmtree : forall e, no_rmtree e -> P e.

Lemma one_event_step (e : event) {A} (m : M A) :
  no_rmtree e -> always (only_logs [e]) m ->
  always (both (logs P) (keeps D)) m.
Proof.
  intros He Hm. apply always_both.
  - apply (one_event_logs P e); [now apply P_no_rmtree | exact Hm].
  - eapply always_weaken; [|exact Hm]. intros w w'. apply only_logs_keeps.
Qed.

Lemma quiet_step {A} (m : M A) :
  always (only_logs []) m -> always (both (logs P) (keeps D)) m.
Proof.
  intros Hm. apply always_both; [now apply quiet_logs|].
  eapply always_weaken; [|exact Hm]. intros w w'. apply only_logs_keeps.
Qed.

Lemma makedirs_step (p : path) (exist_ok : bool) :
  always (both (logs P) (keeps D)) (makedirs p exist_ok).
Proof.
  apply always_both; [|apply makedirs_keeps].
  apply makedirs_logs. now apply P_no_rmtree.
Qed.

Lemma open_w_step (file : path) (rows : list (list string)) :
  D file -> always (both (logs P) (keeps D)) (open_w file rows).
Proof.
  intros Hfile. apply always_both.
  - apply open_w_logs. now apply P_no_rmtree.
  - intros w q n Hq Hn. destruct (open_w_effect file rows w) as [_ Hsame].
    rewrite Hsame; [assumption|]. now intros ->.
Qed.

Lemma open_a_step (file : path) :
  always (both (logs P) (keeps D)) (open_a file).
Proof.
  apply always_both; [apply open_a_logs|].
  intros w q n _ Hn. now apply open_a_effect.
Qed.

Lemma writerow_step (file : path) (row : list string) :
  D file -> always (both (logs P) (keeps D)) (writerow file row).
Proof.
  intros Hfile. apply always_both.
  - apply writerow_logs. now apply P_no_rmtree.
  - intros w q n Hq Hn. rewrite writerow_run. cbn [snd fs].
    rewrite append_rows_other; [assumption|]. now intros ->.
Qed.

Lemma read_processed_step (csv_file : path) :
  always (both (logs P) (keeps D)) (read_processed csv_file).
Proof.
  unfold read_processed. always_by always_bind.
  { apply quiet_step, read_csv_quiet. }
  intros [|header body]; [always_by always_raise|].
  always_by always_bind; [apply quiet_step, first_column_quiet|].
  intros cells. always_by always_ret.
Qed.

Lemma listdir_step (dir : path) :
  always (both (logs P) (keeps D)) (listdir dir).
Proof. apply (one_event_step (EListdir dir)); [exact I | apply listdir_only]. Qed.

Lemma split_one_step (input_folder images videos csv_file : path)
    (video_file : string) :
  D csv_file ->
  always (both (logs P) (keeps D))
    (split_one input_folder images videos csv_file video_file).
Proof.
  intros Hcsv. unfold split_one.
  always_by always_bind.
  { eapply one_event_step; [|apply detect_only]. exact I. }
  intros scene_list. always_by always_bind.
  { eapply one_event_step; [|apply log_only]. exact I. }
  intros _. always_by always_bind.
  { eapply one_event_step; [|apply log_only]. exact I. }
  intros _. always_by always_bind; [apply open_a_step|].
  intros _. always_by always_for_each. intros entry _.
  now apply writerow_step.
Qed.

Lemma split_video_scenes_step (input_folder output_folder csv_file : path) :
  D csv_file ->
  always (both (logs P) (keeps D))
    (split_video_scenes input_folder output_folder csv_file).
Proof.
  intros Hcsv. unfold split_video_scenes.
  always_by always_bind; [apply makedirs_step | intros _].
  always_by always_bind; [apply makedirs_step | intros _].
  always_by always_bind; [apply makedirs_step | intros _].
  always_by always_bind; [apply quiet_step, path_exists_quiet|].
  intros csv_exists. always_by always_bind.
  { always_by always_when. now apply open_w_step. }
  intros _. always_by always_bind; [apply read_processed_step|].
  intros processed. always_by always_bind; [apply listdir_step|].
  intros vids. always_by always_for_each. intros video_file _.
  unfold split_step. destruct (split_skips processed video_file).
  - always_by always_ret.
  - now apply split_one_step.
Qed.

Lemma make_video_dirs_step (video_dir scenes_dir images_dir audio_dir : path) :
  P (ERmtree video_dir) ->
  (forall q, video_dir `prefix_of` q -> D q) ->
  always (both (logs P) (keeps D))
    (make_video_dirs video_dir scenes_dir images_dir audio_dir).
Proof.
  intros Hrm Hbelow. unfold make_video_dirs.
  always_by always_bind; [apply quiet_step, path_exists_quiet|].
  intros video_dir_exists. always_by always_bind.
  - always_by always_when. apply always_both.
    + now apply rmtree_logs.
    + now apply rmtree_keeps.
  - intros _. always_by always_for_each. intros dir _. apply makedirs_step.
Qed.

Lemma transcribe_one_step (output_folder input_folder output_csv : path)
    (input_file : string) :
  P (ERmtree (video_dir_of output_folder input_file)) ->
  (forall q, video_dir_of output_folder input_file `prefix_of` q -> D q) ->
  D output_csv ->
  always (both (logs P) (keeps D))
    (transcribe_one output_folder input_folder output_csv input_file).
Proof.
  intros Hrm Hbelow Hcsv. unfold transcribe_one, scene_generator.
  always_by always_bind.
  2:{ intros rows. always_by always_for_each. intros row _.
      now apply writerow_step. }
  always_by always_bind.
  { eapply one_event_step; [|apply detect_only]. exact I. }
  intros scene_list. always_by always_bind.
  { now apply make_video_dirs_step. }
  intros _. always_by always_bind.
  { eapply one_event_step; [|apply log_only]. exact I. }
  intros _. always_by always_bind.
  { eapply one_event_step; [|apply log_only]. exact I. }
  intros _. unfold yield_scenes. always_by always_fold_m.
  intros acc entry _. always_by always_bind.
  { eapply one_event_step; [|apply log_only]. exact I. }
  intros _. unfold transcribe_scene. always_by always_bind.
  { eapply one_event_step; [|apply transcribe_only]. exact I. }
  intros res. always_by always_ret.
Qed.

Lemma init_folder_step (output_folder : path) :
  D (os_path_join output_folder "scenes.csv") ->
  always (both (logs P) (keeps D)) (init_folder output_folder).
Proof.
  intros Hcsv. unfold init_folder.
  always_by always_bind; [apply quiet_step, path_exists_quiet|].
  intros [|]; cbn [negb].
  - always_by always_bind; [apply quiet_step, read_csv_quiet|].
    intros rows. apply quiet_step, first_column_quiet.
  - always_by always_bind; [apply makedirs_step | intros _].
    always_by always_bind; [apply makedirs_step | intros _].
    always_by always_bind; [now apply open_w_step | intros _].
    always_by always_ret.
Qed.

End Steps.

Lemma transcribe_script_step (folder output : path) :
  always (both (logs (rmtree_of_video_dir output))
            (keeps (transcribe_region output)))
    (transcribe_script folder output).
Proof.
  assert (HP : forall e, no_rmtree e -> rmtree_of_video_dir output e)
    by now intros [].
  assert (Hcsv : transcribe_region output (os_path_join output "scenes.csv"))
    by now left.
  unfold transcribe_script.
  always_by always_bind; [now apply init_folder_step|].
  intros done. always_by always_bind; [now apply listdir_step|].
  intros files. unfold main.
  always_by always_bind.
  { eapply (one_event_step _ _ HP); [|apply pipeline_only]. exact I. }
  intros _. always_by always_bind; [now apply open_a_step|].
  intros _. always_by always_for_each. intros input_file _.
  apply transcribe_one_step; try assumption.
  - now exists input_file.
  - intros q Hq. right. now exists input_file.
Qed.

End RemovalFacts.

(** ** The ledger holds what the run wrote, and the next run reads it *)

Section RecordFacts.

Context {frame_timecode : FrameTimecode} {collaborators : Collaborators}.

Lemma rows_written_app (csv_file : path) (l1 l2 : list event) :
  rows_written csv_file (l1 ++ l2)
  = rows_written csv_file l1 ++ rows_written csv_file l2.
Proof. apply omap_app. Qed.

Lemma rows_written_none (csv_file : path) (l : list event) :
  Forall (fun e => is_row e = false) l -> rows_written csv_file l = [].
Proof.
  induction 1 as [|e l He _ IH]; [reflexivity|].
  unfold rows_written in *. cbn [omap list_omap]. rewrite IH.
  now destruct e.
Qed.

Lemma rows_written_rows (csv_file : path) (rows : list (list string)) :
  rows_written csv_file (map (EWriteRow csv_file) rows) = rows.
Proof.
  induction rows as [|row rows IH]; [reflexivity|].
  unfold rows_written in *. cbn [map omap list_omap row_written].
  rewrite decide_True by reflexivity. now rewrite IH.
Qed.

Global Instance records_preorder (csv_file : path) :
  PreOrder (records csv_file).
Proof.
  split.
  - intros w rows H. exists []. now rewrite !app_nil_r.
  - intros w1 w2 w3 R12 R23 rows H.
    destruct (R12 rows H) as (a1 & T1 & H2).
    destruct (R23 _ H2) as (a2 & T2 & H3).
    exists (a1 ++ a2).
    now rewrite T2, T1, H3, rows_written_app, <- !app_assoc.
Qed.

(** A step that writes no row and leaves the ledger as it is. *)
Lemma unchanged_records (csv_file : path) (w w' : world) :
  logs (fun e => is_row e = false) w w' ->
  appends csv_file (fun _ => False) w w' ->
  records csv_file w w'.
Proof.
  intros (added & Htrace & Hadded) Happ rows Hrows.
  destruct (Happ rows Hrows) as (new & Hnew & Hno).
  destruct new as [|row new]; [|now inversion Hno].
  exists added. now rewrite rows_written_none.
Qed.

Lemma quiet_records (csv_file : path) {A} (m : M A) :
  always (only_logs []) m -> always (records csv_file) m.
Proof.
  intros Hm w. apply unchanged_records.
  - apply (only_logs_logs _ []); [constructor | apply Hm].
  - apply (only_logs_appends _ _ []), Hm.
Qed.

Lemma one_event_records (csv_file : path) (e : event) {A} (m : M A) :
  is_row e = false -> always (only_logs [e]) m -> always (records csv_file) m.
Proof.
  intros He Hm w. apply unchanged_records.
  - apply (only_logs_logs _ [e]); [now repeat constructor | apply Hm].
  - apply (only_logs_appends _ _ [e]), Hm.
Qed.

Lemma makedirs_records (csv_file p : path) (exist_ok : bool) :
  always (records csv_file) (makedirs p exist_ok).
Proof.
  intros w. apply unchanged_records.
  - now apply makedirs_logs.
  - apply makedirs_appends.
Qed.

Lemma open_a_records (csv_file file : path) :
  always (records csv_file) (open_a file).
Proof.
  intros w. apply unchanged_records;
    [apply open_a_logs | apply open_a_appends].
Qed.

Lemma writerow_records (csv_file file : path) (row : list string) :
  always (records csv_file) (writerow file row).
Proof.
  intros w rows Hrows. rewrite writerow_run. cbn [snd fs trace].
  exists [EWriteRow file row]. split; [reflexivity|].
  unfold rows_written. cbn [omap list_omap row_written].
  destruct (decide (file = csv_file)) as [-> | Hne].
  - now apply append_rows_lookup.
  - rewrite append_rows_other, app_nil_r by congruence. exact Hrows.
Qed.

Lemma read_processed_records (csv_file file : path) :
  always (records csv_file) (read_processed file).
Proof.
  unfold read_processed. always_by always_bind.
  { apply quiet_records, read_csv_quiet. }
  intros [|header body]; [always_by always_raise|].
  always_by always_bind; [apply quiet_records, first_column_quiet|].
  intros cells. always_by always_ret.
Qed.

Lemma split_one_records (input_folder images videos csv_file : path)
    (video_file : string) :
  always (records csv_file)
    (split_one input_folder images videos csv_file video_file).
Proof.
  unfold split_one. always_by always_bind.
  { eapply one_event_records; [|apply detect_only]. reflexivity. }
  intros scene_list. always_by always_bind.
  { eapply one_event_records; [|apply log_only]. reflexivity. }
  intros _. always_by always_bind.
  { eapply one_event_records; [|apply log_only]. reflexivity. }
  intros _. always_by always_bind; [apply open_a_records|].
  intros _. always_by always_for_each. intros entry _.
  apply writerow_records.
Qed.

Lemma split_setup_records (output_folder csv_file : path) :
  always (records csv_file) (split_setup output_folder).
Proof.
  unfold split_setup.
  always_by always_bind; [apply makedirs_records | intros _].
  always_by always_bind; [apply makedirs_records | intros _].
  apply makedirs_records.
Qed.

Lemma split_after_setup_records (input_folder output_folder csv_file : path) :
  always (records csv_file)
    (split_after_setup input_folder output_folder csv_file).
Proof.
  assert (Hrest : always (records csv_file)
            (processed_videos ← read_processed csv_file ;
             vids ← listdir input_folder ;
             for_each vids
               (split_step input_folder (os_path_join output_folder "images")
                  (os_path_join output_folder "videos") csv_file
                  processed_videos))).
  { always_by always_bind; [apply read_processed_records|].
    intros processed. always_by always_bind.
    { eapply one_event_records; [|apply listdir_only]. reflexivity. }
    intros vids. always_by always_for_each. intros video_file _.
    unfold split_step. destruct (split_skips processed video_file).
    - always_by always_ret.
    - apply split_one_records. }
  intros w rows Hrows. unfold split_after_setup.
  rewrite run_bind. unfold path_exists.
  rewrite bool_decide_eq_true_2
    by (destruct csv_file; cbn [node_at]; eauto).
  cbn [negb when]. rewrite run_bind, run_ret.
  now apply Hrest.
Qed.

Lemma split_video_scenes_records (input_folder output_folder csv_file : path) :
  always (records csv_file)
    (split_video_scenes input_folder output_folder csv_file).
Proof.
  intros w. rewrite split_video_scenes_after_setup.
  pose proof (split_setup_records output_folder csv_file w) as Hsetup.
  destruct (split_setup output_folder w) as [[[]|e] w1]; cbn [snd] in *;
    [|assumption].
  etransitivity; [exact Hsetup | apply split_after_setup_records].
Qed.

Lemma make_video_dirs_records (csv_file : path)
    (video_dir scenes_dir images_dir audio_dir : path) :
  ~ video_dir `prefix_of` csv_file ->
  always (records csv_file)
    (make_video_dirs video_dir scenes_dir images_dir audio_dir).
Proof.
  intros Hout w. apply unchanged_records.
  - apply make_video_dirs_logs. now intros [].
  - now apply make_video_dirs_appends.
Qed.

Lemma transcribe_one_records (output_folder input_folder : path)
    (input_file : string) :
  always (records (os_path_join output_folder "scenes.csv"))
    (transcribe_one output_folder input_folder
       (os_path_join output_folder "scenes.csv") input_file).
Proof.
  unfold transcribe_one, scene_generator.
  always_by always_bind.
  2:{ intros rows. always_by always_for_each. intros row _.
      apply writerow_records. }
  always_by always_bind.
  { eapply one_event_records; [|apply detect_only]. reflexivity. }
  intros scene_list. always_by always_bind.
  { apply make_video_dirs_records.
    apply (video_dir_not_above_ledger output_folder input_file). }
  intros _. always_by always_bind.
  { eapply one_event_records; [|apply log_only]. reflexivity. }
  intros _. always_by always_bind.
  { eapply one_event_records; [|apply log_only]. reflexivity. }
  intros _. unfold yield_scenes. always_by always_fold_m.
  intros acc entry _. always_by always_bind.
  { eapply one_event_records; [|apply log_only]. reflexivity. }
  intros _. unfold transcribe_scene. always_by always_bind.
  { eapply one_event_records; [|apply transcribe_only]. reflexivity. }
  intros res. always_by always_ret.
Qed.

Lemma main_records (output_folder input_folder : path)
    (input_files : list string) :
  always (records (os_path_join output_folder "scenes.csv"))
    (main output_folder input_folder input_files).
Proof.
  unfold main. always_by always_bind.
  { eapply one_event_records; [|apply pipeline_only]. reflexivity. }
  intros _. always_by always_bind; [apply open_a_records|].
  intros _. always_by always_for_each. intros input_file _.
  apply transcribe_one_records.
Qed.

(** The rows of a trace made of whole videos are the rows of its
    videos. *)
Lemma run_log_rows_written
    (block : list event -> list (list string) -> Prop) (Q : list string -> Prop)
    (csv_file : path) (added : list event) :
  (forall pre rows, block pre rows ->
     Forall (fun e => is_row e = false) pre /\ Forall Q rows) ->
  run_log block csv_file added ->
  Forall Q (rows_written csv_file added).
Proof.
  intros Hblock Hlog.
  induction Hlog as [|e rest He _ IH|pre rows rest Hb _ IH].
  - constructor.
  - change (e :: rest) with ([e] ++ rest).
    rewrite rows_written_app, rows_written_none by now repeat constructor.
    exact IH.
  - destruct (Hblock _ _ Hb) as [Hpre Hrows].
    rewrite !rows_written_app, rows_written_none, rows_written_rows
      by assumption.
    cbn [app]. apply Forall_app. now split.
Qed.

(** The rows of a trace made of whole videos come in groups, one for
    each video. *)
Lemma run_log_groups {G}
    (block : list event -> list (list string) -> Prop)
    (rows_of : G -> list (list string)) (whole : G -> Prop)
    (csv_file : path) (added : list event) :
  (forall pre rows, block pre rows ->
     Forall (fun e => is_row e = false) pre
     /\ exists g, whole g /\ rows = rows_of g) ->
  run_log block csv_file added ->
  exists groups,
    Forall whole groups
    /\ rows_written csv_file added = concat (map rows_of groups).
Proof.
  intros Hblock Hlog.
  induction Hlog as [|e rest He _ (groups & Hwhole & IH)
                    |pre rows rest Hb _ (groups & Hwhole & IH)].
  - now exists [].
  - exists groups. split; [assumption|].
    change (e :: rest) with ([e] ++ rest).
    now rewrite rows_written_app, rows_written_none by now repeat constructor.
  - destruct (Hblock _ _ Hb) as [Hpre (g & Hg & ->)].
    exists (g :: groups). split; [now constructor|].
    rewrite !rows_written_app, rows_written_none, rows_written_rows
      by assumption.
    cbn [app map concat]. now rewrite IH.
Qed.

Lemma first_cells_app (rows new : list (list string))
    (cells : list string) :
  first_cells rows = Some cells ->
  Forall (fun row => row <> []) new ->
  exists names,
    first_cells new = Some names
    /\ first_cells (rows ++ new) = Some (cells ++ names).
Proof.
  intros Hcells Hnew.
  assert (Hnames : exists names, first_cells new = Some names).
  { destruct (first_cells new) as [names|] eqn:E; [now exists names|].
    apply first_cells_None in E. rewrite Forall_forall in Hnew.
    now destruct (Hnew _ E). }
  destruct Hnames as (names & Hnames). exists names. split; [assumption|].
  revert cells Hcells. induction rows as [|[|c row] rows IH]; intros cells.
  - now intros [= <-].
  - discriminate.
  - cbn [first_cells app]. destruct (first_cells rows) as [cells'|];
      [|discriminate].
    intros [= <-]. now rewrite (IH cells' eq_refl).
Qed.

(** The same as the next reader sees it. *)
Lemma first_cells_read_app (rows new : list (list string))
    (cells : list string) :
  first_cells (csv_reader rows) = Some cells ->
  Forall (fun row => row <> []) new ->
  exists names,
    first_cells new = Some names
    /\ first_cells (csv_reader (rows ++ new))
       = Some (cells ++ map universal_newlines names).
Proof.
  intros Hcells Hnew.
  destruct (first_cells_app [] new [] eq_refl Hnew) as (names & Hnames & _).
  exists names. split; [assumption|].
  assert (Hread : Forall (fun row => row <> []) (csv_reader new)).
  { apply Forall_forall. intros row Hrow Hnil. subst row.
    apply (proj1 (csv_reader_blank new)) in Hrow.
    now apply (proj1 (Forall_forall _ _) Hnew _ Hrow). }
  destruct (first_cells_app _ _ cells Hcells Hread) as (names' & Hn' & Hall).
  rewrite csv_reader_app, Hall. rewrite first_cells_csv_reader, Hnames in Hn'.
  cbn in Hn'. now injection Hn' as <-.
Qed.

Lemma output_outside_region (output : path) :
  ~ transcribe_region output output.
Proof.
  intros [H | [input_file H]].
  - apply (f_equal length) in H. unfold os_path_join in H.
    rewrite length_app in H. simpl in H. lia.
  - apply prefix_length in H. unfold video_dir_of, os_path_join in H.
    rewrite !length_app in H. simpl in H. lia.
Qed.

(** What holds of every row that [split_video.py] may write holds of the
    rows that a run wrote. *)
Lemma split_video_scenes_rows_written (Q : list string -> Prop)
    (input_folder output_folder csv_file : path) (w : world)
    (added : list event) :
  (forall video_name idx bounds, Q (split_row video_name idx bounds)) ->
  trace (split_video_scenes input_folder output_folder csv_file w).2
  = trace w ++ added ->
  Forall Q (rows_written csv_file added).
Proof.
  intros HQ Htrace.
  destruct (split_video_scenes_videos input_folder output_folder csv_file w)
    as (added' & Htrace' & Hlog).
  rewrite Htrace in Htrace'. apply app_inv_head in Htrace'. subst added'.
  eapply run_log_rows_written; [|exact Hlog].
  intros pre rows Hblock. split; [now apply split_block_no_row in Hblock|].
  destruct Hblock as (video_file & scene_list & _ & ->).
  unfold split_rows. apply Forall_map, Forall_forall. intros entry _.
  apply HQ.
Qed.

Lemma zip_with_transcribe_row (Q : list string -> Prop)
    (scenes : list scene_record) (texts : list string) :
  (forall sc text, Q (transcribe_row sc text)) ->
  Forall Q (zip_with transcribe_row scenes texts).
Proof.
  intros HQ. revert texts.
  induction scenes as [|sc scenes IH]; intros [|text texts];
    cbn [zip_with]; constructor; [apply HQ | apply IH].
Qed.

(** The same for [transcribe.py]. *)
Lemma transcribe_script_rows_written (Q : list string -> Prop)
    (folder output : path) (w : world) (added : list event) :
  (forall sc text, Q (transcribe_row sc text)) ->
  trace (transcribe_script folder output w).2 = trace w ++ added ->
  Forall Q (rows_written (os_path_join output "scenes.csv") added).
Proof.
  intros HQ Htrace.
  destruct (transcribe_script_videos folder output w)
    as (added' & Htrace' & Hlog).
  rewrite Htrace in Htrace'. apply app_inv_head in Htrace'. subst added'.
  eapply run_log_rows_written; [|exact Hlog].
  intros pre rows Hblock.
  split; [now apply transcribe_block_no_row in Hblock|].
  destruct Hblock
    as (input_file & scene_list & setup & texts & _ & _ & _ & ->).
  now apply zip_with_transcribe_row.
Qed.

(** [init_folder] on an output folder that is there changes nothing. *)
Lemma init_folder_existing_world (output_folder : path) (w : world) :
  is_Some (node_at (fs w) output_folder) ->
  (init_folder output_folder w).2 = w.
Proof.
  intros Hdir. unfold init_folder. rewrite run_bind. unfold path_exists.
  rewrite bool_decide_eq_true_2 by assumption. cbn [negb].
  rewrite run_bind. unfold read_csv. rewrite run_bind. unfold get_fs.
  cbn beta iota.
  destruct (node_at (fs w) (os_path_join output_folder "scenes.csv"))
    as [[|rows]|]; try reflexivity.
  rewrite run_ret. unfold first_column.
  now destruct (first_cells (csv_reader rows)).
Qed.

(** [transcribe.py] on an output folder that is there. *)
Lemma transcribe_script_records (folder output : path) (w : world) :
  is_Some (node_at (fs w) output) ->
  records (os_path_join output "scenes.csv") w
    (transcribe_script folder output w).2.
Proof.
  intros Hdir. unfold transcribe_script. rewrite run_bind.
  pose proof (init_folder_existing_world output w Hdir) as Hsame.
  destruct (init_folder output w) as [[done|e] w1]; cbn [snd] in Hsame;
    subst w1; [|reflexivity].
  assert (Hrest : always (records (os_path_join output "scenes.csv"))
            (files ← listdir folder ;
             main output folder (transcribe_todo files done))).
  { always_by always_bind.
    - eapply one_event_records; [|apply listdir_only]. reflexivity.
    - intros files. apply main_records. }
  apply Hrest.
Qed.

Lemma transcribe_script_keeps_output (folder output : path) (w : world) :
  is_Some (node_at (fs w) output) ->
  is_Some (node_at (fs (transcribe_script folder output w).2) output).
Proof.
  destruct output as [|c output]; [cbn; eauto|].
  cbn [node_at]. intros [n Hn].
  destruct (transcribe_script_step folder (c :: output) w) as [_ Hkeeps].
  rewrite (Hkeeps (c :: output) n); eauto.
  apply output_outside_region.
Qed.

(** X10: Writer and reader of the ledger.  After a run on a ledger that
    could be read, the ledger holds the rows it had, followed by just the
    rows that the run wrote, in order.  Where its fields are within the
    limit of [csv], the next run can read it, and what it reads as logged
    is what was read before together with the first cells of the rows
    written, each with its line ends translated: the bare names in
    [split_video.py], the file names in [transcribe.py].  So a video that
    got a row, and whose name holds no carriage return, is kept out of
    the to-do list of the next run. *)
Theorem written_rows_are_read_back :
  (forall input_folder output_folder csv_file header body cells w,
     ledger_is csv_file (header :: body) w ->
     first_cells (csv_reader body) = Some cells ->
     let w' :=
       (split_video_scenes input_folder output_folder csv_file w).2 in
     exists added names,
       let logged := cells ++ map universal_newlines names in
       trace w' = trace w ++ added
       /\ fs w' !! csv_file
          = Some (File ((header :: body) ++ rows_written csv_file added))
       /\ first_cells (rows_written csv_file added) = Some names
       /\ (within_field_limit
             ((header :: body) ++ rows_written csv_file added) ->
           read_processed csv_file w' = (Ok (list_to_set logged), w'))
       /\ forall vids video_file,
            (splitext video_file).1 ∈ names ->
            no_carriage_return (splitext video_file).1 = true ->
            video_file ∉ split_todo vids (list_to_set logged))
  /\ (forall folder output rows0 done w,
        let ledger := os_path_join output "scenes.csv" in
        is_Some (node_at (fs w) output) ->
        ledger_is ledger rows0 w ->
        first_cells (csv_reader rows0) = Some done ->
        let w' := (transcribe_script folder output w).2 in
        exists added names,
          let logged := done ++ map universal_newlines names in
          trace w' = trace w ++ added
          /\ fs w' !! ledger
             = Some (File (rows0 ++ rows_written ledger added))
          /\ first_cells (rows_written ledger added) = Some names
          /\ (within_field_limit (rows0 ++ rows_written ledger added) ->
              init_folder output w' = (Ok logged, w'))
          /\ forall files file,
               file ∈ names ->
               no_carriage_return file = true ->
               file ∉ transcribe_todo files logged).
Proof.
  assert (Hback : forall name names,
            name ∈ names -> no_carriage_return name = true ->
            name ∈ map universal_newlines names).
  { intros name names Hin Hplain. apply list_elem_of_fmap. exists name.
    split; [now rewrite universal_newlines_plain | assumption]. }
  split.
  - intros input_folder output_folder csv_file header body cells w Hledger
      Hcells. cbv zeta.
    destruct (ledger_is_lookup _ _ _ Hledger) as [Hne Hlookup].
    destruct (split_video_scenes_records input_folder output_folder csv_file
                w _ Hlookup) as (added & Htrace & Hfs).
    assert (Hrows : Forall (fun row => row <> [])
                      (rows_written csv_file added)).
    { eapply split_video_scenes_rows_written; [|exact Htrace].
      intros video_name idx bounds. discriminate. }
    destruct (first_cells_read_app body _ cells Hcells Hrows)
      as (names & Hnames & Hall).
    exists added, names. split; [assumption|]. split; [assumption|].
    split; [assumption|]. split.
    + intros _.
      apply (read_processed_run csv_file header
               (body ++ rows_written csv_file added)); [|exact Hall].
      unfold ledger_is. now rewrite node_at_lookup.
    + intros vids video_file Hin Hplain. rewrite split_todo_elem.
      intros (_ & _ & Hout). apply Hout, elem_of_list_to_set.
      apply elem_of_app. right. now apply Hback.
  - intros folder output rows0 done w. cbv zeta. intros Hdir Hledger Hcells.
    destruct (ledger_is_lookup _ _ _ Hledger) as [Hne Hlookup].
    destruct (transcribe_script_records folder output w Hdir _ Hlookup)
      as (added & Htrace & Hfs).
    assert (Hrows : Forall (fun row => row <> [])
                      (rows_written (os_path_join output "scenes.csv")
                         added)).
    { eapply transcribe_script_rows_written; [|exact Htrace].
      intros sc text. discriminate. }
    destruct (first_cells_read_app rows0 _ done Hcells Hrows)
      as (names & Hnames & Hall).
    exists added, names. split; [assumption|]. split; [assumption|].
    split; [assumption|]. split.
    + intros _.
      apply (init_folder_existing output
               (rows0 ++ rows_written (os_path_join output "scenes.csv")
                           added)).
      * now apply transcribe_script_keeps_output.
      * unfold ledger_is. now rewrite node_at_lookup.
      * exact Hall.
    + intros files file Hin Hplain. rewrite transcribe_todo_elem.
      intros (_ & _ & Hout). apply Hout, elem_of_app. right.
      now apply Hback.
Qed.

End RecordFacts.

(** ** What a run leaves in place *)

Section KeptFacts.

Context {frame_timecode : FrameTimecode} {collaborators : Collaborators}.

Lemma split_video_scenes_events (input_folder output_folder csv_file : path) :
  always (logs (split_event (os_path_join output_folder "images")
                  (os_path_join output_folder "videos")))
    (split_video_scenes input_folder output_folder csv_file).
Proof.
  unfold split_video_scenes.
  always_by always_bind; [now apply makedirs_logs | intros _].
  always_by always_bind; [now apply makedirs_logs | intros _].
  always_by always_bind; [now apply makedirs_logs | intros _].
  always_by always_bind; [apply quiet_logs, path_exists_quiet|].
  intros csv_exists. always_by always_bind.
  { always_by always_when. now apply open_w_logs. }
  intros _. always_by always_bind; [apply read_processed_logs|].
  intros processed. always_by always_bind.
  { eapply one_event_logs; [|apply listdir_only]. exact I. }
  intros vids. always_by always_for_each. intros video_file _.
  unfold split_step. destruct (split_skips processed video_file).
  { always_by always_ret. }
  unfold split_one. always_by always_bind.
  { eapply one_event_logs; [|apply detect_only]. exact I. }
  intros scene_list. always_by always_bind.
  { eapply one_event_logs; [|apply log_only]. reflexivity. }
  intros _. always_by always_bind.
  { eapply one_event_logs; [|apply log_only]. reflexivity. }
  intros _. always_by always_bind; [apply open_a_logs|].
  intros _. always_by always_for_each. intros entry _.
  now apply writerow_logs.
Qed.

(** X11: [split_video.py] removes nothing: a run of [split_video_scenes],
    however it ends, never calls for the removal of a directory tree,
    and sends its image writer to [output/images] and its clip writer to
    [output/videos] only.  Its own steps leave every entry of the file
    system in place and unchanged that is neither the ledger nor inside
    one of these two directories, and where the ledger was there it has
    only grown: no row it had is changed or lost. *)
Theorem split_video_scenes_removes_nothing
    (input_folder output_folder csv_file : path) (w : world) :
  let w' := (split_video_scenes input_folder output_folder csv_file w).2 in
  let images := os_path_join output_folder "images" in
  let videos := os_path_join output_folder "videos" in
  (exists added,
     trace w' = trace w ++ added
     /\ Forall no_rmtree added
     /\ (forall video scene_list dir template,
           ESaveImages video scene_list dir template ∈ added -> dir = images)
     /\ (forall video scene_list dir template,
           ESplitVideo video scene_list dir template ∈ added -> dir = videos))
  /\ (forall q n,
        q <> csv_file -> ~ images `prefix_of` q -> ~ videos `prefix_of` q ->
        fs w !! q = Some n -> fs w' !! q = Some n)
  /\ (forall rows,
        fs w !! csv_file = Some (File rows) ->
        exists new, fs w' !! csv_file = Some (File (rows ++ new))).
Proof.
  cbv zeta.
  destruct (split_video_scenes_step no_rmtree (eq csv_file) (fun e H => H)
              input_folder output_folder csv_file eq_refl w)
    as [_ Hkeeps].
  destruct (split_video_scenes_events input_folder output_folder csv_file w)
    as (added & Htrace & Hadded).
  rewrite Forall_forall in Hadded.
  split; [|split].
  - exists added. split; [assumption|]. split; [|split].
    + apply Forall_forall. intros e He. specialize (Hadded e He).
      now destruct e.
    + intros video scene_list dir template Hin. exact (Hadded _ Hin).
    + intros video scene_list dir template Hin. exact (Hadded _ Hin).
  - intros q n Hq _ _. apply Hkeeps. congruence.
  - intros rows Hrows.
    destruct (split_video_scenes_records input_folder output_folder csv_file
                w rows Hrows) as (added' & _ & Hfs).
    eexists. exact Hfs.
Qed.

(** X12: [transcribe.py] removes no directory tree but the directory of a
    video below [output/videos], and a run of the script, however it
    ends, leaves every entry of the file system in place and unchanged
    that is neither the ledger nor inside such a directory: the input
    folder among them, where it does not lie there.  On an output folder
    that is there, the ledger has only grown. *)
Theorem transcribe_removes_only_video_dirs (folder output : path) (w : world) :
  let w' := (transcribe_script folder output w).2 in
  (exists added,
     trace w' = trace w ++ added
     /\ forall dir, ERmtree dir ∈ added ->
          exists input_file, dir = video_dir_of output input_file)
  /\ (forall q n,
        q <> os_path_join output "scenes.csv" ->
        ~ (exists name,
             os_path_join (os_path_join output "videos") name `prefix_of` q) ->
        fs w !! q = Some n -> fs w' !! q = Some n)
  /\ (forall rows,
        is_Some (node_at (fs w) output) ->
        fs w !! os_path_join output "scenes.csv" = Some (File rows) ->
        exists new,
          fs w' !! os_path_join output "scenes.csv"
          = Some (File (rows ++ new))).
Proof.
  cbv zeta.
  destruct (transcribe_script_step folder output w)
    as [(added & Htrace & Hadded) Hkeeps].
  split; [|split].
  - exists added. split; [assumption|]. intros dir Hin.
    rewrite Forall_forall in Hadded. exact (Hadded _ Hin).
  - intros q n Hq Hout. apply Hkeeps. intros [-> | [input_file Hpre]].
    + now apply Hq.
    + apply Hout. now exists (splitext input_file).1.
  - intros rows Hdir Hrows.
    destruct (transcribe_script_records folder output w Hdir rows Hrows)
      as (added' & _ & Hfs).
    eexists. exact Hfs.
Qed.

(** X13: Every row that a run writes has as many cells as the header row of
    its ledger: four in [split_video.py], seven in [transcribe.py].  A
    ledger whose rows all had that many cells has only such rows after
    the run, however the run ends. *)
Theorem ledger_stays_rectangular :
  (forall input_folder output_folder csv_file rows w,
     let w' :=
       (split_video_scenes input_folder output_folder csv_file w).2 in
     fs w !! csv_file = Some (File rows) ->
     Forall (fun row => length row = length split_header) rows ->
     exists rows',
       fs w' !! csv_file = Some (File rows')
       /\ Forall (fun row => length row = length split_header) rows')
  /\ (forall folder output rows w,
        let ledger := os_path_join output "scenes.csv" in
        let w' := (transcribe_script folder output w).2 in
        is_Some (node_at (fs w) output) ->
        fs w !! ledger = Some (File rows) ->
        Forall (fun row => length row = length transcribe_header) rows ->
        exists rows',
          fs w' !! ledger = Some (File rows')
          /\ Forall (fun row => length row = length transcribe_header) rows').
Proof.
  split.
  - intros input_folder output_folder csv_file rows w. cbv zeta.
    intros Hrows Hshape.
    destruct (split_video_scenes_records input_folder output_folder csv_file
                w rows Hrows) as (added & Htrace & Hfs).
    eexists. split; [exact Hfs|]. apply Forall_app. split; [assumption|].
    eapply split_video_scenes_rows_written; [|exact Htrace]. reflexivity.
  - intros folder output rows w. cbv zeta. intros Hdir Hrows Hshape.
    destruct (transcribe_script_records folder output w Hdir rows Hrows)
      as (added & Htrace & Hfs).
    eexists. split; [exact Hfs|]. apply Forall_app. split; [assumption|].
    eapply transcribe_script_rows_written; [|exact Htrace]. reflexivity.
Qed.

(** [os.makedirs] on a path that is there. *)
Lemma makedirs_existing (p : path) (exist_ok : bool) (n : node) (w : world) :
  is_Some (node_at (fs w) (removelast p)) ->
  fs w !! p = Some n ->
  p <> [] ->
  makedirs p exist_ok w =
  (if exist_ok && bool_decide (n = Dir) then Ok tt else Raise FileExistsError,
   World (fs w) (trace w ++ [EMakedirs p])).
Proof.
  intros Hparent Hp Hne. unfold makedirs. rewrite run_bind, log_run.
  destruct (rev p) as [|tail rhead] eqn:Hrev.
  { apply (f_equal (@rev _)) in Hrev. rewrite rev_involutive in Hrev.
    contradiction. }
  assert (Hpath : p = rev (tail :: rhead))
    by now rewrite <- Hrev, rev_involutive.
  assert (Hlast : removelast p = rev rhead)
    by (rewrite Hpath; simpl; apply removelast_last).
  rewrite Hlast in Hparent.
  cbn [makedirs_rev]. rewrite run_bind. unfold path_exists at 1.
  cbn [fs]. rewrite bool_decide_eq_true_2 by assumption.
  cbn [negb when]. rewrite run_bind, run_ret.
  unfold mkdir_leaf, mkdir. rewrite run_bind. unfold get_fs.
  cbn beta iota. cbn [fs]. rewrite <- Hpath.
  rewrite node_at_lookup, Hp by assumption. cbn [raise fs].
  unfold is_dir. rewrite node_at_lookup, Hp by assumption.
  destruct exist_ok, n; reflexivity.
Qed.

(** Lines 13-17 on output directories that are there. *)
Lemma split_setup_existing (output_folder : path) (w : world) :
  output_folder <> [] ->
  is_Some (node_at (fs w) (removelast output_folder)) ->
  fs w !! output_folder = Some Dir ->
  fs w !! os_path_join output_folder "images" = Some Dir ->
  fs w !! os_path_join output_folder "videos" = Some Dir ->
  split_setup output_folder w
  = (Ok tt,
     World (fs w)
       (trace w ++ [EMakedirs output_folder;
                    EMakedirs (os_path_join output_folder "images");
                    EMakedirs (os_path_join output_folder "videos")])).
Proof.
  intros Hne Hparent Hout Himages Hvideos. unfold split_setup.
  assert (Hchild : forall name,
            removelast (os_path_join output_folder name) = output_folder)
    by (intros name; apply removelast_last).
  assert (Hnode : node_at (fs w) output_folder = Some Dir)
    by now rewrite node_at_lookup.
  rewrite run_bind, (makedirs_existing output_folder true Dir)
    by assumption.
  cbn [andb bool_decide decide_rel]. rewrite bool_decide_eq_true_2
    by reflexivity.
  rewrite run_bind, (makedirs_existing _ true Dir);
    [|cbn [fs]; rewrite Hchild, Hnode; eauto | exact Himages
     |unfold os_path_join; now destruct output_folder].
  rewrite bool_decide_eq_true_2 by reflexivity. cbn [andb fs trace].
  rewrite (makedirs_existing _ true Dir);
    [|cbn [fs]; rewrite Hchild, Hnode; eauto | exact Hvideos
     |unfold os_path_join; now destruct output_folder].
  rewrite bool_decide_eq_true_2 by reflexivity. cbn [andb fs trace].
  now rewrite <- !app_assoc.
Qed.

(** X15: Lines 13-17: output directories that are there are taken as
    they are ([exist_ok=True]), and nothing is changed; an output folder
    that is a regular file stops the function at its first step with
    [FileExistsError]. *)
Theorem existing_output_is_reused (input_folder output_folder csv_file : path)
    (w : world) :
  let images := os_path_join output_folder "images" in
  let videos := os_path_join output_folder "videos" in
  output_folder <> [] ->
  is_Some (node_at (fs w) (removelast output_folder)) ->
  (fs w !! output_folder = Some Dir ->
   fs w !! images = Some Dir ->
   fs w !! videos = Some Dir ->
   split_setup output_folder w
   = (Ok tt,
      World (fs w)
        (trace w ++ [EMakedirs output_folder; EMakedirs images;
                     EMakedirs videos])))
  /\ (forall rows,
        fs w !! output_folder = Some (File rows) ->
        split_video_scenes input_folder output_folder csv_file w
        = (Raise FileExistsError,
           World (fs w) (trace w ++ [EMakedirs output_folder]))).
Proof.
  cbv zeta. intros Hne Hparent. split.
  - now apply split_setup_existing.
  - intros rows Hfile. rewrite split_video_scenes_after_setup.
    unfold split_setup.
    rewrite run_bind, (makedirs_existing output_folder true (File rows))
      by assumption.
    now rewrite bool_decide_eq_false_2 by discriminate.
Qed.

(** [init_folder] where there is no output folder yet. *)
Lemma init_folder_fresh (output_folder : path) (w : world) :
  node_at (fs w) output_folder = None ->
  no_file_above (fs w) output_folder ->
  (forall name, fs w !! os_path_join output_folder name = None) ->
  exists m1,
    grows output_folder (fs w) m1
    /\ m1 !! output_folder = Some Dir
    /\ init_folder output_folder w
       = (Ok [],
          World (<[os_path_join output_folder "scenes.csv"
                   := File [transcribe_header]]>
                   (<[os_path_join output_folder "videos" := Dir]> m1))
            (trace w ++ [EMakedirs output_folder;
                         EMakedirs (os_path_join output_folder "videos");
                         ECreate (os_path_join output_folder "scenes.csv")])).
Proof.
  intros Hnone Hfiles Hbelow.
  destruct (node_at_None _ _ Hnone) as [Hne Hlookup].
  destruct (makedirs_ok output_folder false w Hnone Hfiles)
    as (m1 & Hrun1 & Hdir1 & Hgrows).
  assert (Hchild : forall name,
            m1 !! os_path_join output_folder name = None).
  { intros name. destruct (Hgrows (os_path_join output_folder name))
      as [-> | (_ & _ & Habs)]; [apply Hbelow|].
    now apply prefix_snoc_not in Habs. }
  assert (Hsnoc : forall name, output_folder ++ [name] <> output_folder).
  { intros name E. apply (f_equal length) in E. rewrite length_app in E.
    simpl in E. lia. }
  exists m1. split; [assumption|]. split; [assumption|].
  unfold os_path_join in *.
  unfold init_folder. rewrite run_bind. unfold path_exists.
  rewrite Hnone, bool_decide_eq_false_2 by (intros [? ?]; discriminate).
  cbn [negb]. rewrite run_bind, Hrun1.
  rewrite run_bind, (makedirs_child output_folder "videos");
    [|now rewrite node_at_lookup | apply Hchild].
  rewrite run_bind. unfold os_path_join, open_w. run_prim.
  rewrite node_at_lookup by now destruct output_folder.
  rewrite lookup_insert_ne
    by (intros E; now apply app_inj_tail in E as [_ ?]).
  rewrite Hchild. unfold parent_check. rewrite removelast_last.
  rewrite node_at_lookup by assumption.
  rewrite lookup_insert_ne by apply Hsnoc. rewrite Hdir1.
  rewrite run_ret. rewrite <- !app_assoc. reflexivity.
Qed.

Lemma transcribe_todo_nothing_done (files : list string) :
  transcribe_todo files []
  = filter (fun file => is_video_file file = true) files.
Proof.
  rewrite transcribe_todo_filter. apply list_filter_iff.
  intros file. split; [tauto|]. intros H. split; [assumption|].
  apply not_elem_of_nil.
Qed.

(** Line 105 and what follows it: the recogniser is loaded first; where
    that raises, [main] is over before the ledger is opened. *)
Lemma main_run (output_folder input_folder : path)
    (input_files : list string) (w : world) :
  let ledger := os_path_join output_folder "scenes.csv" in
  let w1 :=
    World (fs w)
      (trace w ++ [EPipeline "automatic-speech-recognition"
                     "distil-whisper/distil-large-v3"]) in
  main output_folder input_folder input_files w
  = match pipeline_error w with
    | Some e => (Raise e, w1)
    | None =>
        (open_a ledger ;;
         for_each input_files
           (transcribe_one output_folder input_folder ledger)) w1
    end.
Proof.
  cbv zeta. unfold main. rewrite run_bind. unfold pipeline at 1. cbv zeta.
  now destruct (pipeline_error w).
Qed.

(** X16: A first run of [transcribe.py], on an output folder that is not
    there: the folder, its [videos] directory and a ledger with the
    header row are made before the input folder is looked at.  Where the
    input folder is a directory, the recogniser is loaded next; where
    that raises the script is over, else every entry of the input folder
    that ends in an allowed extension is worked on, in listing order.
    Where the input folder is a regular file or does not resolve, the
    script stops with the error of [os.listdir], and the new output
    folder stays behind. *)
Theorem first_run_takes_every_video (folder output : path) (w : world) :
  let ledger := os_path_join output "scenes.csv" in
  let videos := os_path_join output "videos" in
  node_at (fs w) output = None ->
  no_file_above (fs w) output ->
  (forall name, fs w !! os_path_join output name = None) ->
  exists m',
    let w1 :=
      World m' (trace w ++ [EMakedirs output; EMakedirs videos;
                            ECreate ledger; EListdir folder]) in
    let w2 :=
      World m' (trace w1 ++ [EPipeline "automatic-speech-recognition"
                               "distil-whisper/distil-large-v3"]) in
    m' !! ledger = Some (File [transcribe_header])
    /\ m' !! videos = Some Dir
    /\ transcribe_script folder output w
       = match node_at m' folder with
         | Some Dir =>
             match pipeline_error w1 with
             | Some e => (Raise e, w2)
             | None =>
                 for_each
                   (filter (fun file => is_video_file file = true)
                      (entries m' folder))
                   (transcribe_one output folder ledger) w2
             end
         | Some (File _) => (Raise NotADirectoryError, w1)
         | None => (Raise (missing_error m' folder), w1)
         end
    /\ (no_file_above m' folder ->
        missing_error m' folder = FileNotFoundError)
    /\ (forall q rows,
          dirs_above m' q -> node_at m' q = Some (File rows) ->
          q `prefix_of` folder -> q <> folder ->
          missing_error m' folder = NotADirectoryError).
Proof.
  cbv zeta. intros Hnone Hfiles Hbelow.
  destruct (init_folder_fresh output w Hnone Hfiles Hbelow)
    as (m1 & _ & _ & Hinit).
  exists (<[os_path_join output "scenes.csv" := File [transcribe_header]]>
            (<[os_path_join output "videos" := Dir]> m1)).
  split; [|split; [|split; [|split]]].
  3:{ unfold transcribe_script. rewrite run_bind, Hinit, run_bind.
      unfold listdir. run_prim. rewrite <- !app_assoc. cbn [app].
      match goal with |- context [node_at ?m folder] =>
        destruct (node_at m folder) as [[|rows]|] eqn:Hfolder end;
        try reflexivity.
      rewrite run_ret, main_run. cbv zeta. cbn [fs trace].
      rewrite <- ?app_assoc. cbn [app].
      match goal with |- context [pipeline_error ?w0] =>
        destruct (pipeline_error w0) end; [reflexivity|].
      rewrite run_bind. unfold open_a. run_prim.
      assert (Hne : os_path_join output "scenes.csv" <> [])
        by (unfold os_path_join; now destruct output).
      rewrite node_at_lookup, lookup_insert_eq by assumption.
      now rewrite run_ret, transcribe_todo_nothing_done. }
  - apply lookup_insert_eq.
  - rewrite lookup_insert_ne
      by (unfold os_path_join; intros E;
          now apply app_inj_tail in E as [_ ?]).
    apply lookup_insert_eq.
  - apply missing_error_no_file.
  - intros q rows Hdirs Hfile Hq Hne.
    exact (missing_error_below_file _ q _ rows Hdirs Hfile Hq Hne).
Qed.

End KeptFacts.

(** ** Bare name and extension of a video file *)

Section ExtensionFacts.

Lemma rfind_from_range (i : Z) (s : string) (c : ascii) :
  PyStr.rfind_from i s c = -1
  \/ i <= PyStr.rfind_from i s c < i + Z.of_nat (PyStr.len s).
Proof.
  revert i; induction s as [|d s IH]; intros i; [now left|].
  cbn [PyStr.rfind_from PyStr.len String.length]. cbv zeta.
  destruct (IH (i + 1)) as [-> | Hr].
  - cbn. destruct (Ascii.eqb d c); [right; lia | now left].
  - unfold PyStr.len in Hr.
    destruct (PyStr.rfind_from (i + 1) s c >=? 0) eqn:E; [right; lia|].
    destruct (Ascii.eqb d c); [right; lia | now left].
Qed.

Lemma rfind_from_app (i : Z) (a b : string) (c : ascii) :
  0 <= i ->
  PyStr.rfind_from i (a +:+ b) c =
  if PyStr.rfind_from (i + Z.of_nat (PyStr.len a)) b c >=? 0
  then PyStr.rfind_from (i + Z.of_nat (PyStr.len a)) b c
  else PyStr.rfind_from i a c.
Proof.
  revert i; induction a as [|d a IH]; intros i Hi.
  - rewrite app_empty. cbn [PyStr.len String.length Z.of_nat].
    rewrite Z.add_0_r.
    destruct (rfind_from_range i b c) as [E | Hr]; [now rewrite E|].
    destruct (PyStr.rfind_from i b c >=? 0) eqn:E; [reflexivity|].
    rewrite Z.geb_leb, Z.leb_gt in E. lia.
  - rewrite app_cons. cbn [PyStr.rfind_from]. cbv zeta.
    rewrite IH by lia.
    replace (i + Z.of_nat (PyStr.len (String d a)))
      with (i + 1 + Z.of_nat (PyStr.len a))
      by (cbn [PyStr.len String.length]; unfold PyStr.len; lia).
    destruct (PyStr.rfind_from (i + 1 + Z.of_nat (PyStr.len a)) b c >=? 0)
      eqn:E; [now rewrite E | reflexivity].
Qed.

Lemma take_len_app (a b : string) : PyStr.take (PyStr.len a) (a +:+ b) = a.
Proof.
  induction a as [|c a IH]; [now destruct b|].
  rewrite app_cons. cbn [PyStr.len String.length PyStr.take].
  unfold PyStr.len in IH. now rewrite IH.
Qed.

(** In a name that ends in an allowed extension, the last dot is the dot
    of the extension, and no slash comes after it. *)
Lemma video_file_last_dot (base ext : string) :
  ext ∈ video_extensions ->
  PyStr.rfind (base +:+ ext) "." = Z.of_nat (PyStr.len base)
  /\ PyStr.rfind (base +:+ ext) "/" < Z.of_nat (PyStr.len base).
Proof.
  intros Hext. unfold PyStr.rfind. rewrite !rfind_from_app by lia.
  rewrite !Z.add_0_l.
  assert (Hdot : PyStr.rfind_from (Z.of_nat (PyStr.len base)) ext "."
                 = Z.of_nat (PyStr.len base)
                 /\ PyStr.rfind_from (Z.of_nat (PyStr.len base)) ext "/"
                    = -1).
  { unfold video_extensions in Hext.
    rewrite !elem_of_cons, elem_of_nil in Hext.
    destruct Hext as [-> | [-> | [-> | [-> | []]]]]; now cbn. }
  destruct Hdot as [-> ->]. split.
  - destruct (Z.of_nat (PyStr.len base) >=? 0) eqn:E; [reflexivity|].
    rewrite Z.geb_leb, Z.leb_gt in E. lia.
  - cbn [Z.geb Z.compare].
    destruct (rfind_from_range 0 base "/") as [-> | Hr]; lia.
Qed.

(** X17: Lines 37 and 52, on a file that passes the extension test: the file
    name is a base followed by an allowed extension; [os.path.splitext]
    gives that base as bare name and that extension, unless the name in
    front of the extension is nothing but dots (as in [.mp4]), where the
    bare name is the whole file name and the extension is empty. *)
Theorem video_file_name_splits (file : string) :
  is_video_file file = true ->
  exists base ext,
    file = base +:+ ext
    /\ ext ∈ video_extensions
    /\ splitext file
       = if PyStr.has_other "."
              (PyStr.slice (Z.to_nat (PyStr.rfind file "/" + 1))
                 (PyStr.len base) file)
         then (base, ext) else (file, "").
Proof.
  intros Hvideo. apply is_video_file_spec in Hvideo as (ext & Hext & Hends).
  apply endswith_spec in Hends as (base & ->).
  exists base, ext. split; [reflexivity|]. split; [assumption|].
  destruct (video_file_last_dot base ext Hext) as [Hdot Hsep].
  unfold splitext. cbv zeta. rewrite Hdot, Nat2Z.id.
  replace (Z.of_nat (PyStr.len base) >? PyStr.rfind (base +:+ ext) "/")
    with true by (symmetry; rewrite Z.gtb_ltb; now apply Z.ltb_lt).
  now rewrite take_len_app, drop_len_app.
Qed.

End ExtensionFacts.

(** ** Runs on a ledger that can be read *)

Section ReadableFacts.

Context {frame_timecode : FrameTimecode} {collaborators : Collaborators}.

(** Lines 19-77 on a ledger that can be read. *)
Lemma split_after_setup_readable (input_folder output_folder csv_file : path)
    (header : list string) (body : list (list string)) (cells : list string)
    (w : world) :
  ledger_is csv_file (header :: body) w ->
  first_cells (csv_reader body) = Some cells ->
  split_after_setup input_folder output_folder csv_file w =
  (vids ← listdir input_folder ;
   for_each (split_todo vids (list_to_set cells))
     (split_one input_folder (os_path_join output_folder "images")
        (os_path_join output_folder "videos") csv_file)) w.
Proof.
  intros Hledger Hcells.
  unfold split_after_setup. rewrite run_bind. unfold path_exists.
  rewrite Hledger, bool_decide_eq_true_2 by eauto. cbn [negb when].
  rewrite run_bind, run_ret.
  rewrite run_bind, (read_processed_run _ _ _ _ _ Hledger Hcells).
  rewrite !(run_bind (listdir input_folder)).
  destruct (listdir input_folder w) as [[vids|e] w2]; [|reflexivity].
  apply split_loop_todo.
Qed.

(** Lines 142-151 on an output folder whose ledger can be read. *)
Lemma transcribe_script_readable (folder output : path)
    (rows : list (list string)) (done : list string) (w : world) :
  is_Some (node_at (fs w) output) ->
  ledger_is (os_path_join output "scenes.csv") rows w ->
  first_cells (csv_reader rows) = Some done ->
  transcribe_script folder output w =
  (files ← listdir folder ;
   main output folder (transcribe_todo files done)) w.
Proof.
  intros Hdir Hledger Hcells. unfold transcribe_script.
  now rewrite run_bind, (init_folder_existing _ _ _ _ Hdir Hledger Hcells).
Qed.

Lemma listdir_existing (dir : path) (w : world) :
  node_at (fs w) dir = Some Dir ->
  listdir dir w
  = (Ok (entries (fs w) dir), World (fs w) (trace w ++ [EListdir dir])).
Proof. intros H. unfold listdir. run_prim. now rewrite H. Qed.

Lemma listdir_missing (dir : path) (w : world) :
  node_at (fs w) dir = None ->
  listdir dir w
  = (Raise (missing_error (fs w) dir),
     World (fs w) (trace w ++ [EListdir dir])).
Proof. intros H. unfold listdir. run_prim. now rewrite H. Qed.

End ReadableFacts.

(** ** Two runs in a row *)

Section SecondRunFacts.

Context {frame_timecode : FrameTimecode} {collaborators : Collaborators}.

Lemma first_cells_elem (rows : list (list string)) (cells : list string)
    (row : list string) (cell : string) :
  first_cells rows = Some cells ->
  row ∈ rows -> head row = Some cell -> cell ∈ cells.
Proof.
  revert cells; induction rows as [|[|c r] rows IH]; intros cells Hcells Hin.
  - now apply elem_of_nil in Hin.
  - discriminate.
  - cbn [first_cells] in Hcells.
    destruct (first_cells rows) as [cells'|]; [|discriminate].
    injection Hcells as <-. apply elem_of_cons in Hin as [-> | Hin].
    + intros [= ->]. left.
    + intros Hhead. right. now apply (IH cells').
Qed.

Lemma elem_of_prefix {A} (l1 l2 : list A) (x : A) :
  l1 `prefix_of` l2 -> x ∈ l1 -> x ∈ l2.
Proof. intros [k ->] Hx. apply elem_of_app. now left. Qed.

(** The videos that [split_video.py] opens on a ledger that can be read
    are files of the listing whose bare name is not logged. *)
Lemma split_video_scenes_opened (input_folder output_folder csv_file : path)
    (header : list string) (body : list (list string)) (cells : list string)
    (w : world) :
  ledger_is csv_file (header :: body) w ->
  first_cells (csv_reader body) = Some cells ->
  exists added,
    trace (split_video_scenes input_folder output_folder csv_file w).2
    = trace w ++ added
    /\ forall video,
         video ∈ videos_opened added ->
         exists video_file,
           video = os_path_join input_folder video_file
           /\ is_video_file video_file = true
           /\ (splitext video_file).1 ∉ cells.
Proof.
  intros Hledger Hcells. rewrite split_video_scenes_after_setup.
  destruct (split_setup_effect output_folder w) as [(a0 & Ht0 & Hd0) _].
  pose proof (split_setup_keeps_ledger output_folder csv_file _ w Hledger)
    as Hledger1.
  assert (Hquiet : videos_opened a0 = []).
  { apply videos_opened_none. eapply Forall_impl; [exact Hd0|].
    now intros e [dir ->]. }
  destruct (split_setup output_folder w) as [[[]|e] w1]; cbn [snd] in *.
  2:{ exists a0. split; [assumption|]. rewrite Hquiet. intros video Hin.
      now apply elem_of_nil in Hin. }
  rewrite (split_after_setup_readable _ _ _ header body cells)
    by assumption.
  rewrite run_bind.
  pose proof (listdir_only input_folder w1) as [_ Hlist].
  destruct (listdir input_folder w1) as [[vids|e] w2]; cbn [snd] in *.
  2:{ exists (a0 ++ [EListdir input_folder]).
      rewrite Hlist, Ht0, <- app_assoc. split; [reflexivity|].
      rewrite videos_opened_app, Hquiet. intros video Hin.
      now apply elem_of_nil in Hin. }
  rewrite <- split_loop_todo.
  destruct (split_loop_opened input_folder
              (os_path_join output_folder "images")
              (os_path_join output_folder "videos") csv_file
              (list_to_set cells) vids w2) as (a2 & Ht2 & Hpre & _).
  exists (a0 ++ [EListdir input_folder] ++ a2).
  rewrite Ht2, Hlist, Ht0, <- !app_assoc. split; [reflexivity|].
  rewrite !videos_opened_app, Hquiet. cbn [app videos_opened omap list_omap
                                            opened].
  intros video Hin. apply (elem_of_prefix _ _ _ Hpre) in Hin.
  apply list_elem_of_fmap in Hin as (video_file & -> & Hin).
  apply split_todo_elem in Hin as (_ & Hvideo & Hnew).
  exists video_file. split; [reflexivity|]. split; [assumption|].
  intros Habs. apply Hnew. now apply elem_of_list_to_set.
Qed.

(** The same for [transcribe.py], with file names. *)
Lemma transcribe_script_opened (folder output : path)
    (rows : list (list string)) (done : list string) (w : world) :
  is_Some (node_at (fs w) output) ->
  ledger_is (os_path_join output "scenes.csv") rows w ->
  first_cells (csv_reader rows) = Some done ->
  exists added,
    trace (transcribe_script folder output w).2 = trace w ++ added
    /\ forall video,
         video ∈ videos_opened added ->
         exists file,
           video = os_path_join folder file
           /\ is_video_file file = true
           /\ file ∉ done.
Proof.
  intros Hdir Hledger Hcells. unfold transcribe_script.
  rewrite run_bind, (init_folder_existing _ _ _ _ Hdir Hledger Hcells).
  rewrite run_bind.
  pose proof (listdir_only folder w) as [_ Hlist].
  destruct (listdir folder w) as [[files|e] w2]; cbn [snd] in *.
  2:{ exists [EListdir folder]. split; [assumption|].
      intros video Hin. now apply elem_of_nil in Hin. }
  destruct (main_opened output folder (transcribe_todo files done) w2)
    as (a2 & Ht2 & Hpre & _).
  exists ([EListdir folder] ++ a2).
  rewrite Ht2, Hlist, <- !app_assoc. split; [reflexivity|].
  rewrite videos_opened_app. cbn [app videos_opened omap list_omap opened].
  intros video Hin. apply (elem_of_prefix _ _ _ Hpre) in Hin.
  apply list_elem_of_fmap in Hin as (file & -> & Hin).
  apply transcribe_todo_elem in Hin as (_ & Hvideo & Hnew).
  now exists file.
Qed.

(** X18: Resuming works across runs.  Where a run on a ledger that could be
    read wrote a row for a video whose name holds no carriage return,
    the next run, started where the first one ended, does not open that
    video again: in [split_video.py] no file of the input folder with
    the bare name of the row, in [transcribe.py] not the file that the
    row names. *)
Theorem next_run_skips_logged_videos :
  (forall input_folder output_folder csv_file header body cells w,
     let w1 :=
       (split_video_scenes input_folder output_folder csv_file w).2 in
     let w2 :=
       (split_video_scenes input_folder output_folder csv_file w1).2 in
     ledger_is csv_file (header :: body) w ->
     first_cells (csv_reader body) = Some cells ->
     exists added1 added2,
       trace w1 = trace w ++ added1
       /\ trace w2 = trace w1 ++ added2
       /\ forall row video_name video_file,
            row ∈ rows_written csv_file added1 ->
            head row = Some video_name ->
            no_carriage_return video_name = true ->
            (splitext video_file).1 = video_name ->
            os_path_join input_folder video_file ∉ videos_opened added2)
  /\ (forall folder output rows0 done w,
        let ledger := os_path_join output "scenes.csv" in
        let w1 := (transcribe_script folder output w).2 in
        let w2 := (transcribe_script folder output w1).2 in
        is_Some (node_at (fs w) output) ->
        ledger_is ledger rows0 w ->
        first_cells (csv_reader rows0) = Some done ->
        exists added1 added2,
          trace w1 = trace w ++ added1
          /\ trace w2 = trace w1 ++ added2
          /\ forall row input_file,
               row ∈ rows_written ledger added1 ->
               head row = Some input_file ->
               no_carriage_return input_file = true ->
               os_path_join folder input_file ∉ videos_opened added2).
Proof.
  assert (Hback : forall rows names row name,
            first_cells rows = Some names ->
            row ∈ rows -> head row = Some name ->
            no_carriage_return name = true ->
            name ∈ map universal_newlines names).
  { intros rows names row name Hnames Hrow Hhead Hplain.
    apply list_elem_of_fmap. exists name.
    split; [now rewrite universal_newlines_plain|].
    now apply (first_cells_elem _ _ row name Hnames). }
  split.
  - intros input_folder output_folder csv_file header body cells w. cbv zeta.
    intros Hledger Hcells.
    destruct (ledger_is_lookup _ _ _ Hledger) as [Hne Hlookup].
    destruct (split_video_scenes_records input_folder output_folder csv_file
                w _ Hlookup) as (added1 & Htrace1 & Hfs).
    assert (Hrows : Forall (fun row => row <> [])
                      (rows_written csv_file added1)).
    { eapply split_video_scenes_rows_written; [|exact Htrace1].
      intros video_name idx bounds. discriminate. }
    destruct (first_cells_read_app body _ cells Hcells Hrows)
      as (names & Hnames & Hall).
    destruct (split_video_scenes_opened input_folder output_folder csv_file
                header (body ++ rows_written csv_file added1)
                (cells ++ map universal_newlines names)
                (split_video_scenes input_folder output_folder csv_file w).2)
      as (added2 & Htrace2 & Hopened).
    { unfold ledger_is. now rewrite node_at_lookup. }
    { exact Hall. }
    exists added1, added2. split; [assumption|]. split; [assumption|].
    intros row video_name video_file Hrow Hhead Hplain Hname Hin.
    destruct (Hopened _ Hin) as (file & Hfile & _ & Hnew).
    apply app_inj_tail in Hfile as [_ <-]. apply Hnew.
    apply elem_of_app. right. rewrite Hname.
    now apply (Hback _ _ row video_name Hnames).
  - intros folder output rows0 done w. cbv zeta. intros Hdir Hledger Hcells.
    destruct (ledger_is_lookup _ _ _ Hledger) as [Hne Hlookup].
    destruct (transcribe_script_records folder output w Hdir _ Hlookup)
      as (added1 & Htrace1 & Hfs).
    assert (Hrows : Forall (fun row => row <> [])
                      (rows_written (os_path_join output "scenes.csv")
                         added1)).
    { eapply transcribe_script_rows_written; [|exact Htrace1].
      intros sc text. discriminate. }
    destruct (first_cells_read_app rows0 _ done Hcells Hrows)
      as (names & Hnames & Hall).
    destruct (transcribe_script_opened folder output
                (rows0 ++ rows_written (os_path_join output "scenes.csv")
                            added1)
                (done ++ map universal_newlines names)
                (transcribe_script folder output w).2)
      as (added2 & Htrace2 & Hopened).
    { now apply transcribe_script_keeps_output. }
    { unfold ledger_is. now rewrite node_at_lookup. }
    { exact Hall. }
    exists added1, added2. split; [assumption|]. split; [assumption|].
    intros row input_file Hrow Hhead Hplain Hin.
    destruct (Hopened _ Hin) as (file & Hfile & _ & Hnew).
    apply app_inj_tail in Hfile as [_ <-]. apply Hnew.
    apply elem_of_app. right.
    now apply (Hback _ _ row input_file Hnames).
Qed.

End SecondRunFacts.

(** ** Runs with nothing to do, and runs without an input folder *)

Section IdleRunFacts.

Context {frame_timecode : FrameTimecode} {collaborators : Collaborators}.

(** X19: A run with nothing to do changes nothing.  Where the output
    directories and a readable ledger are there and no entry of the input
    folder is to do (none ends in an allowed extension without being
    logged), [split_video.py] returns, and nothing happened beyond the
    directory steps of lines 13-17 and the listing of the input folder.
    [transcribe.py] lists the input folder and then loads the recogniser
    (line 105) all the same: it returns where that returns, and raises
    where that raises.  In both scripts the file system is exactly as it
    was: no video is opened, no row written. *)
Theorem idle_run_changes_nothing :
  (forall input_folder output_folder csv_file header body cells w,
     output_folder <> [] ->
     is_Some (node_at (fs w) (removelast output_folder)) ->
     fs w !! output_folder = Some Dir ->
     fs w !! os_path_join output_folder "images" = Some Dir ->
     fs w !! os_path_join output_folder "videos" = Some Dir ->
     ledger_is csv_file (header :: body) w ->
     within_field_limit (header :: body) ->
     first_cells (csv_reader body) = Some cells ->
     node_at (fs w) input_folder = Some Dir ->
     split_todo (entries (fs w) input_folder) (list_to_set cells) = [] ->
     split_video_scenes input_folder output_folder csv_file w
     = (Ok tt,
        World (fs w)
          (trace w ++ [EMakedirs output_folder;
                       EMakedirs (os_path_join output_folder "images");
                       EMakedirs (os_path_join output_folder "videos");
                       EListdir input_folder])))
  /\ (forall folder output rows done w,
        let w1 := World (fs w) (trace w ++ [EListdir folder]) in
        let w2 :=
          World (fs w)
            (trace w ++ [EListdir folder;
                         EPipeline "automatic-speech-recognition"
                           "distil-whisper/distil-large-v3"]) in
        is_Some (node_at (fs w) output) ->
        ledger_is (os_path_join output "scenes.csv") rows w ->
        within_field_limit rows ->
        first_cells (csv_reader rows) = Some done ->
        node_at (fs w) folder = Some Dir ->
        transcribe_todo (entries (fs w) folder) done = [] ->
        transcribe_script folder output w
        = match pipeline_error w1 with
          | Some e => (Raise e, w2)
          | None => (Ok tt, w2)
          end).
Proof.
  split.
  - intros input_folder output_folder csv_file header body cells w
      Hne Hparent Hout Himages Hvideos Hledger _ Hcells Hinput Htodo.
    rewrite split_video_scenes_after_setup.
    rewrite (split_setup_existing output_folder w) by assumption.
    rewrite (split_after_setup_readable _ _ _ header body cells)
      by assumption.
    rewrite run_bind, listdir_existing by exact Hinput.
    cbn [fs trace]. rewrite Htodo. cbn [for_each]. rewrite run_ret.
    now rewrite <- app_assoc.
  - intros folder output rows done w. cbv zeta.
    intros Hdir Hledger _ Hcells Hfolder Htodo.
    rewrite (transcribe_script_readable folder output rows done)
      by assumption.
    rewrite run_bind, listdir_existing by exact Hfolder.
    cbn [fs]. rewrite Htodo, main_run. cbv zeta. cbn [fs trace].
    rewrite <- app_assoc. cbn [app].
    destruct (pipeline_error _); [reflexivity|].
    rewrite run_bind, (open_a_existing _ rows) by exact Hledger.
    reflexivity.
Qed.

(** X20: Where the input folder is not there, both scripts stop with the
    error of [os.listdir]: [split_video.py] after its output directories
    were made and its ledger was read, [transcribe.py] after
    [init_folder].  The error is [NotADirectoryError] where a regular
    file lies on the way to the folder, and [FileNotFoundError] where
    none does.  No video is opened and no row is written, and the file
    system is as those first steps left it. *)
Theorem missing_input_folder_stops_the_run :
  (forall input_folder output_folder csv_file header body cells w,
     let w1 := (split_setup output_folder w).2 in
     (split_setup output_folder w).1 = Ok tt ->
     ledger_is csv_file (header :: body) w ->
     within_field_limit (header :: body) ->
     first_cells (csv_reader body) = Some cells ->
     node_at (fs w1) input_folder = None ->
     split_video_scenes input_folder output_folder csv_file w
     = (Raise (missing_error (fs w1) input_folder),
        World (fs w1) (trace w1 ++ [EListdir input_folder])))
  /\ (forall folder output rows done w,
        is_Some (node_at (fs w) output) ->
        ledger_is (os_path_join output "scenes.csv") rows w ->
        within_field_limit rows ->
        first_cells (csv_reader rows) = Some done ->
        node_at (fs w) folder = None ->
        transcribe_script folder output w
        = (Raise (missing_error (fs w) folder),
           World (fs w) (trace w ++ [EListdir folder])))
  /\ (forall (m : gmap path node) folder,
        (no_file_above m folder -> missing_error m folder = FileNotFoundError)
        /\ (forall q rows,
              dirs_above m q -> node_at m q = Some (File rows) ->
              q `prefix_of` folder -> q <> folder ->
              missing_error m folder = NotADirectoryError)).
Proof.
  split; [|split].
  - intros input_folder output_folder csv_file header body cells w. cbv zeta.
    intros Hsetup Hledger _ Hcells Hinput.
    rewrite split_video_scenes_after_setup.
    pose proof (split_setup_keeps_ledger output_folder csv_file _ w Hledger)
      as Hledger1.
    destruct (split_setup output_folder w) as [[[]|e] w1];
      cbn [fst snd] in *; [|discriminate].
    rewrite (split_after_setup_readable _ _ _ header body cells)
      by assumption.
    now rewrite run_bind, listdir_missing by exact Hinput.
  - intros folder output rows done w Hdir Hledger _ Hcells Hfolder.
    rewrite (transcribe_script_readable folder output rows done)
      by assumption.
    now rewrite run_bind, listdir_missing by exact Hfolder.
  - intros m folder. split; [apply missing_error_no_file|].
    intros q rows Hdirs Hfile Hq Hne.
    exact (missing_error_below_file _ q _ rows Hdirs Hfile Hq Hne).
Qed.

End IdleRunFacts.

(** ** What a run of transcribe.py logs, event by event *)

Section RunEventFacts.

Context {frame_timecode : FrameTimecode} {collaborators : Collaborators}.

Global Instance unchanged_preorder (U : path -> Prop) : PreOrder (unchanged U).
Proof.
  split.
  - intros w q _. reflexivity.
  - intros w1 w2 w3 H12 H23 q Hq. rewrite (H23 q Hq). now apply H12.
Qed.

Lemma prefix_same_length {A} (a b q : list A) :
  a `prefix_of` q -> b `prefix_of` q -> length a = length b -> a = b.
Proof.
  intros [k1 ->] [k2 E] Hlen. now apply app_inj_1 in E as [-> _].
Qed.

Lemma length_video_dir (output_folder : path) (input_file : string) :
  length (video_dir_of output_folder input_file)
  = S (S (length output_folder)).
Proof.
  unfold video_dir_of, os_path_join. rewrite !length_app. simpl. lia.
Qed.

(** The directories of two videos of different bare names lie apart. *)
Lemma other_video_dir (output_folder : path) (f g : string) (q : path) :
  (splitext f).1 <> (splitext g).1 ->
  video_dir_of output_folder f `prefix_of` q ->
  ~ video_dir_of output_folder g `prefix_of` q.
Proof.
  intros Hne Hf Hg. apply Hne.
  assert (E : video_dir_of output_folder f = video_dir_of output_folder g).
  { apply (prefix_same_length _ _ q); try assumption.
    now rewrite !length_video_dir. }
  unfold video_dir_of, os_path_join in E.
  now apply app_inj_tail in E as [_ ?].
Qed.

Lemma not_around_other_video_dir (output_folder : path) (f g : string)
    (p : path) :
  (splitext f).1 <> (splitext g).1 ->
  video_dir_of output_folder f `prefix_of` p ->
  ~ p `prefix_of` video_dir_of output_folder g.
Proof.
  intros Hne Hf Hp.
  apply (other_video_dir output_folder f g (video_dir_of output_folder g) Hne);
    [now transitivity p | reflexivity].
Qed.

Lemma ledger_not_above_video_dir (output_folder : path) (g : string) :
  ~ os_path_join output_folder "scenes.csv"
      `prefix_of` video_dir_of output_folder g.
Proof.
  unfold video_dir_of, os_path_join. rewrite <- app_assoc. intros H.
  apply prefix_app_inv in H. cbn in H. apply prefix_cons_inv_1 in H.
  discriminate.
Qed.

Lemma below_video_dir (output_folder : path) (input_file name : string) :
  video_dir_of output_folder input_file
    `prefix_of` os_path_join (video_dir_of output_folder input_file) name.
Proof. now apply prefix_app_r. Qed.

(** An event of the work on [f] is no work on a video [g] of another
    bare name, and stays out of the directory of [g]. *)
Lemma video_event_apart (input_folder output_folder : path) (f g : string)
    (e : event) :
  (splitext f).1 <> (splitext g).1 ->
  video_event input_folder output_folder f e ->
  spares (eq (os_path_join input_folder g)) g e
  /\ stays_out_of (video_dir_of output_folder g) e.
Proof.
  intros Hne Hev.
  assert (Hfg : f <> g) by (intros ->; now apply Hne).
  assert (Hvideo : os_path_join input_folder g <> os_path_join input_folder f).
  { intros E. apply app_inj_tail in E as [_ E]. now apply Hfg. }
  assert (Hin : forall p,
            video_dir_of output_folder f `prefix_of` p ->
            ~ video_dir_of output_folder g `prefix_of` p
            /\ ~ p `prefix_of` video_dir_of output_folder g).
  { intros p Hp. split.
    - now apply (other_video_dir output_folder f g).
    - now apply (not_around_other_video_dir output_folder f g). }
  unfold spares, stays_out_of.
  destruct e as [dir|dir|file|dir|v s|v sl dir t|v sl dir t|i o|a|c row|? ?];
    cbn [video_event] in Hev; cbv zeta in Hev; try contradiction;
    cbn [event_video written_name event_paths].
  - (* makedirs *)
    split; [split; [intros v [=] | discriminate]|].
    repeat constructor; now apply Hin.
  - (* rmtree *)
    subst dir. split; [split; [intros v [=] | discriminate]|].
    repeat constructor; now apply Hin.
  - (* detect *)
    subst v. split; [split; [now intros v [= <-] | discriminate]|].
    constructor.
  - (* save_images *)
    destruct Hev as [-> Hdir].
    split; [split; [now intros v [= <-] | discriminate]|].
    repeat constructor; now apply Hin.
  - (* split_video_ffmpeg *)
    destruct Hev as [-> Hdir].
    split; [split; [now intros v [= <-] | discriminate]|].
    repeat constructor; now apply Hin.
  - (* video_to_audio *)
    destruct Hev as [Hi Ho].
    split; [split; [intros v [=] | discriminate]|].
    repeat constructor; now apply Hin.
  - (* transcribe *)
    split; [split; [intros v [=] | discriminate]|].
    repeat constructor; now apply Hin.
  - (* writerow *)
    destruct Hev as [-> Hhead].
    split; [split; [intros v [=] | rewrite Hhead; congruence]|].
    repeat constructor.
    + apply video_dir_not_above_ledger.
    + apply ledger_not_above_video_dir.
Qed.

Lemma make_video_dirs_events (P : event -> Prop)
    (video_dir scenes_dir images_dir audio_dir : path) :
  P (ERmtree video_dir) ->
  (forall dir, dir ∈ [video_dir; scenes_dir; images_dir; audio_dir] ->
     P (EMakedirs dir)) ->
  always (logs P) (make_video_dirs video_dir scenes_dir images_dir audio_dir).
Proof.
  intros Hrm Hmk. unfold make_video_dirs. always_by always_bind.
  { apply quiet_logs, path_exists_quiet. }
  intros video_dir_exists. always_by always_bind.
  - always_by always_when. now apply rmtree_logs.
  - intros _. always_by always_for_each. intros dir Hdir.
    apply makedirs_logs. now apply Hmk.
Qed.

(** Every event of the work on a video is an event of that video. *)
Lemma transcribe_one_events (output_folder input_folder : path)
    (input_file : string) :
  always (logs (video_event input_folder output_folder input_file))
    (transcribe_one output_folder input_folder
       (os_path_join output_folder "scenes.csv") input_file).
Proof.
  intros w. set (csv_file := os_path_join output_folder "scenes.csv").
  set (P := video_event input_folder output_folder input_file).
  destruct (transcribe_one_run output_folder input_folder csv_file
              input_file w) as (setup & Htrace & _ & Hrun).
  cbv zeta in *.
  assert (Hsub : forall name,
            P (EMakedirs
                 (os_path_join (video_dir_of output_folder input_file) name))).
  { intros name. apply below_video_dir. }
  match type of Htrace with context [make_video_dirs ?a ?b ?c ?d ?w0] =>
    destruct (make_video_dirs_events P a b c d) with (w := w0)
      as (setup' & Htrace' & Hsetup)
  end.
  { reflexivity. }
  { intros dir Hdir. rewrite !elem_of_cons, elem_of_nil in Hdir.
    destruct Hdir as [-> | [-> | [-> | [-> | []]]]];
      [subst P; cbn; reflexivity | apply Hsub..]. }
  rewrite Htrace' in Htrace. cbn [trace] in Htrace.
  rewrite <- app_assoc in Htrace. apply app_inv_head in Htrace.
  cbn [app] in Htrace. injection Htrace as ->.
  assert (Hdetect : P (EDetect (os_path_join input_folder input_file) true))
    by reflexivity.
  destruct (make_video_dirs _ _ _ _ _) as [[[]|e] w1]; cbn [fst snd] in *.
  - destruct Hrun as (texts & Hlen & ->). cbn [snd trace].
    eexists. split; [reflexivity|]. apply Forall_app. split.
    + unfold transcribe_artifacts. cbv zeta.
      constructor; [exact Hdetect|]. apply Forall_app. split; [exact Hsetup|].
      apply Forall_app. split.
      * repeat constructor; apply below_video_dir.
      * unfold scene_events. apply Forall_flat_map, Forall_forall.
        intros sc Hsc. unfold yielded_scenes in Hsc.
        apply list_elem_of_fmap in Hsc as (entry & -> & _).
        assert (Hfile : forall dir name,
                  video_dir_of output_folder input_file
                    `prefix_of` os_path_join
                                  (os_path_join
                                     (video_dir_of output_folder input_file)
                                     dir) name).
        { intros dir name. unfold os_path_join. rewrite <- app_assoc.
          now apply prefix_app_r. }
        repeat constructor; apply Hfile.
    + apply Forall_map. eapply Forall_impl; [apply transcribe_rows_names|].
      intros row Hrow. now split.
  - rewrite Hrun. cbn [snd].
    exists (EDetect (os_path_join input_folder input_file) true :: setup).
    split; [|now constructor].
    rewrite Htrace'. cbn [trace]. now rewrite <- app_assoc.
Qed.

Lemma main_events (output_folder input_folder : path)
    (input_files : list string) :
  always (logs (run_event input_folder output_folder input_files))
    (main output_folder input_folder input_files).
Proof.
  unfold main. always_by always_bind.
  { eapply one_event_logs; [|apply pipeline_only].
    right. left. now eexists _, _. }
  intros _. always_by always_bind; [apply open_a_logs|].
  intros _. always_by always_for_each. intros input_file Hin.
  eapply always_weaken; [|apply transcribe_one_events].
  intros w w' (added & Htrace & Hadded). exists added.
  split; [assumption|]. eapply Forall_impl; [exact Hadded|].
  intros e He. right. right. now exists input_file.
Qed.

(** A run on an output folder whose ledger can be read logs the listing,
    the loading of the recogniser, and events of the files to do. *)
Lemma transcribe_script_events (folder output : path)
    (rows : list (list string)) (done : list string) (w : world) :
  is_Some (node_at (fs w) output) ->
  ledger_is (os_path_join output "scenes.csv") rows w ->
  first_cells (csv_reader rows) = Some done ->
  logs (run_event folder output
          (transcribe_todo (entries (fs w) folder) done))
    w (transcribe_script folder output w).2.
Proof.
  intros Hdir Hledger Hcells.
  rewrite (transcribe_script_readable folder output rows done)
    by assumption.
  rewrite run_bind. pose proof (listdir_only folder w) as [_ Hlist].
  destruct (listdir folder w) as [[files|e] w1] eqn:Hrun; cbn [snd] in *.
  - apply listdir_run in Hrun as [-> ->].
    destruct (main_events output folder
                (transcribe_todo (entries (fs w) folder) done)
                (World (fs w) (trace w ++ [EListdir folder])))
      as (added & Htrace & Hadded).
    exists (EListdir folder :: added). cbn [trace] in Htrace.
    rewrite Htrace, <- app_assoc. split; [reflexivity|].
    constructor; [now left | exact Hadded].
  - exists [EListdir folder]. split; [assumption|].
    repeat constructor.
Qed.

(** *** What stays as it is *)

Lemma only_logs_unchanged (U : path -> Prop) (added : list event)
    (w w' : world) :
  only_logs added w w' -> unchanged U w w'.
Proof. intros [F _] q _. now rewrite F. Qed.

Lemma makedirs_unchanged (U : path -> Prop) (p : path) (exist_ok : bool) :
  (forall q, q `prefix_of` p -> ~ U q) ->
  always (unchanged U) (makedirs p exist_ok).
Proof.
  intros HU w q Hq. destruct (makedirs_effect p exist_ok w) as [G _].
  destruct (G q) as [E | (_ & _ & Hpre)]; [exact E|].
  now destruct (HU q Hpre).
Qed.

Lemma rmtree_unchanged (U : path -> Prop) (dir : path) :
  (forall q, dir `prefix_of` q -> ~ U q) ->
  always (unchanged U) (rmtree dir).
Proof.
  intros HU w q Hq. destruct (rmtree_effect dir w) as (_ & Hout & _).
  apply Hout. intros Hpre. now apply (HU q).
Qed.

Lemma open_a_unchanged (U : path -> Prop) (file : path) :
  ~ U file -> always (unchanged U) (open_a file).
Proof.
  intros HU w q Hq. unfold open_a. run_prim.
  destruct (node_at (fs w) file) as [[|rows]|]; try reflexivity.
  unfold parent_check.
  destruct (node_at (fs w) (removelast file)) as [[|rows]|];
    try reflexivity.
  cbn. apply lookup_insert_ne. intros ->. contradiction.
Qed.

Lemma writerow_unchanged (U : path -> Prop) (file : path)
    (row : list string) :
  ~ U file -> always (unchanged U) (writerow file row).
Proof.
  intros HU w q Hq. rewrite writerow_run. cbn [snd fs].
  apply append_rows_other. intros ->. contradiction.
Qed.

Lemma one_event_unchanged (U : path -> Prop) (e : event) {A} (m : M A) :
  always (only_logs [e]) m -> always (unchanged U) m.
Proof. apply always_weaken. intros w w'. apply only_logs_unchanged. Qed.

(** The work on a video leaves the directory of a video of another bare
    name as it is. *)
Lemma transcribe_one_unchanged (output_folder input_folder : path)
    (f g : string) :
  (splitext f).1 <> (splitext g).1 ->
  always (unchanged (prefix (video_dir_of output_folder g)))
    (transcribe_one output_folder input_folder
       (os_path_join output_folder "scenes.csv") f).
Proof.
  intros Hne.
  assert (Hdir : forall p,
            video_dir_of output_folder f `prefix_of` p ->
            always (unchanged (prefix (video_dir_of output_folder g)))
              (makedirs p false)).
  { intros p Hp. apply makedirs_unchanged. intros q Hq Hg.
    apply (other_video_dir output_folder f g p Hne Hp).
    now transitivity q. }
  unfold transcribe_one, scene_generator.
  always_by always_bind.
  2:{ intros rows. always_by always_for_each. intros row _.
      apply writerow_unchanged. apply video_dir_not_above_ledger. }
  always_by always_bind; [eapply one_event_unchanged, detect_only|].
  intros scene_list. always_by always_bind.
  { unfold make_video_dirs. always_by always_bind.
    { eapply always_weaken; [|apply path_exists_quiet].
      intros w w'. apply only_logs_unchanged. }
    intros video_dir_exists. always_by always_bind.
    - always_by always_when. apply rmtree_unchanged. intros q Hq.
      now apply (other_video_dir output_folder f g).
    - intros _. always_by always_for_each. intros dir Hin.
      apply Hdir. rewrite !elem_of_cons, elem_of_nil in Hin.
      destruct Hin as [-> | [-> | [-> | [-> | []]]]];
        [reflexivity | now apply prefix_app_r..]. }
  intros _. always_by always_bind; [eapply one_event_unchanged, log_only|].
  intros _. always_by always_bind; [eapply one_event_unchanged, log_only|].
  intros _. unfold yield_scenes. always_by always_fold_m.
  intros acc entry _.
  always_by always_bind; [eapply one_event_unchanged, log_only|].
  intros _. unfold transcribe_scene.
  always_by always_bind; [eapply one_event_unchanged, transcribe_only|].
  intros res. always_by always_ret.
Qed.

Lemma main_unchanged (output_folder input_folder : path)
    (input_files : list string) (g : string) :
  (forall f, f ∈ input_files -> (splitext f).1 <> (splitext g).1) ->
  always (unchanged (prefix (video_dir_of output_folder g)))
    (main output_folder input_folder input_files).
Proof.
  intros Hne. unfold main.
  always_by always_bind; [eapply one_event_unchanged, pipeline_only|].
  intros _. always_by always_bind.
  { apply open_a_unchanged. apply video_dir_not_above_ledger. }
  intros _. always_by always_for_each. intros f Hf.
  apply transcribe_one_unchanged. now apply Hne.
Qed.

End RunEventFacts.

(** ** The claims about the ledger as checkpoint *)

Section CheckpointFacts.

Context {frame_timecode : FrameTimecode} {collaborators : Collaborators}.

(** C1, as the code has it: both to-do lists are the directory listing,
    filtered: they hold, in listing order and once each, the files that
    end in an allowed extension and are not yet logged, and nothing
    else.  [split_video.py] reads the ledger below its header and looks
    for the bare name among the first cells; [transcribe.py] reads all
    rows and looks for the whole file name.  The cells are taken as
    [csv.reader] returns them. *)
Theorem scanner_todo_exact :
  (forall vids (processed : gset string),
     split_todo vids processed
     = filter (fun file =>
                 is_video_file file = true /\ (splitext file).1 ∉ processed)
         vids)
  /\ (forall files done,
        transcribe_todo files done
        = filter (fun file => is_video_file file = true /\ file ∉ done)
            files)
  /\ (forall dir w vids w', listdir dir w = (Ok vids, w') -> NoDup vids)
  /\ (forall vids (processed : gset string) done,
        NoDup vids ->
        NoDup (split_todo vids processed)
        /\ NoDup (transcribe_todo vids done))
  /\ (forall input_folder output_folder csv_file header body cells w,
        ledger_is csv_file (header :: body) w ->
        within_field_limit (header :: body) ->
        first_cells (csv_reader body) = Some cells ->
        read_processed csv_file w = (Ok (list_to_set cells), w)
        /\ (forall name,
              name ∈ (list_to_set cells : gset string) <-> name ∈ cells)
        /\ split_video_scenes input_folder output_folder csv_file w
           = match split_setup output_folder w with
             | (Ok _, w1) =>
                 (vids ← listdir input_folder ;
                  for_each (split_todo vids (list_to_set cells))
                    (split_one input_folder
                       (os_path_join output_folder "images")
                       (os_path_join output_folder "videos") csv_file)) w1
             | (Raise e, w1) => (Raise e, w1)
             end)
  /\ (forall folder output rows done w,
        is_Some (node_at (fs w) output) ->
        ledger_is (os_path_join output "scenes.csv") rows w ->
        within_field_limit rows ->
        first_cells (csv_reader rows) = Some done ->
        init_folder output w = (Ok done, w)
        /\ transcribe_script folder output w
           = (files ← listdir folder ;
              main output folder (transcribe_todo files done)) w).
Proof.
  split; [|split; [|split; [|split; [|split]]]].
  - intros vids processed. unfold split_todo. apply list_filter_iff.
    intros file. apply split_skips_false.
  - intros files done. apply transcribe_todo_filter.
  - intros dir w vids w' Hrun. apply listdir_run in Hrun as [-> _].
    apply NoDup_entries.
  - intros vids processed done Hnodup. split.
    + unfold split_todo. now apply NoDup_filter.
    + rewrite transcribe_todo_filter. now apply NoDup_filter.
  - intros input_folder output_folder csv_file header body cells w
      Hledger _ Hcells.
    split; [now apply (read_processed_run _ header body)|].
    split; [intros name; apply elem_of_list_to_set|].
    rewrite split_video_scenes_after_setup.
    pose proof (split_setup_keeps_ledger output_folder csv_file _ w Hledger)
      as Hledger1.
    destruct (split_setup output_folder w) as [[[]|e] w1]; cbn [snd] in *;
      [|reflexivity].
    now apply (split_after_setup_readable _ _ _ header body).
  - intros folder output rows done w Hdir Hledger _ Hcells.
    split; [now apply (init_folder_existing output rows)|].
    now apply (transcribe_script_readable folder output rows).
Qed.

(** C3, as the code has it: a run on an output folder whose ledger
    records a video keeps that video out of the to-do list, opens it for
    no detection, no images and no clips, writes no row for it, and
    leaves the rows the ledger had in place: the ledger has only grown,
    by rows of other videos.  [transcribe.py] keeps the artifacts of a
    video in a directory named by the bare name: that directory is
    left as it is, and no event of the run works in it, where no file
    that is to do has the bare name of the logged video. *)
Theorem logged_video_is_left_alone :
  (forall input_folder output_folder csv_file header body cells video_name w,
     let w' :=
       (split_video_scenes input_folder output_folder csv_file w).2 in
     ledger_is csv_file (header :: body) w ->
     within_field_limit (header :: body) ->
     first_cells (csv_reader body) = Some cells ->
     video_name ∈ cells ->
     (forall vids video_file,
        (splitext video_file).1 = video_name ->
        video_file ∉ split_todo vids (list_to_set cells))
     /\ exists added new,
          trace w' = trace w ++ added
          /\ Forall (spares (named input_folder video_name) video_name) added
          /\ fs w' !! csv_file = Some (File ((header :: body) ++ new))
          /\ Forall (fun row => head row <> Some video_name) new)
  /\ (forall folder output rows done input_file w,
        let ledger := os_path_join output "scenes.csv" in
        let video_dir := video_dir_of output input_file in
        let w' := (transcribe_script folder output w).2 in
        is_Some (node_at (fs w) output) ->
        ledger_is ledger rows w ->
        within_field_limit rows ->
        first_cells (csv_reader rows) = Some done ->
        input_file ∈ done ->
        (forall files, input_file ∉ transcribe_todo files done)
        /\ exists added new,
             trace w' = trace w ++ added
             /\ Forall (spares (eq (os_path_join folder input_file))
                          input_file) added
             /\ fs w' !! ledger = Some (File (rows ++ new))
             /\ Forall (fun row => head row <> Some input_file) new
             /\ ((forall file,
                    file ∈ transcribe_todo (entries (fs w) folder) done ->
                    (splitext file).1 <> (splitext input_file).1) ->
                 Forall (stays_out_of video_dir) added
                 /\ forall q,
                      video_dir `prefix_of` q -> fs w' !! q = fs w !! q)).
Proof.
  split.
  - intros input_folder output_folder csv_file header body cells video_name w.
    cbv zeta. intros Hledger _ Hcells Hin. split.
    + intros vids video_file Hname. rewrite split_todo_elem.
      intros (_ & _ & Hout). apply Hout. rewrite Hname.
      now apply elem_of_list_to_set.
    + destruct (split_video_scenes_leaves_alone input_folder output_folder
                  csv_file header body cells video_name Hcells Hin w Hledger)
        as [(added & Htrace & Hadded) Happ].
      apply ledger_is_lookup in Hledger as [_ Hlookup].
      destruct (Happ _ Hlookup) as (new & Hnew & Hq).
      now exists added, new.
  - intros folder output rows done input_file w. cbv zeta.
    intros Hdir Hledger _ Hcells Hin. split.
    + intros files. rewrite transcribe_todo_elem. tauto.
    + assert (Hrun : leaves_alone (eq (os_path_join folder input_file))
                input_file (os_path_join output "scenes.csv") w
                (transcribe_script folder output w).2).
      { unfold transcribe_script.
        rewrite run_bind, (init_folder_existing _ _ _ _ Hdir Hledger Hcells).
        apply (always_bind (leaves_alone _ _ _));
          [apply listdir_leaves_alone|].
        intros files. apply main_leaves_alone.
        rewrite transcribe_todo_elem. tauto. }
      destruct Hrun as [(added & Htrace & Hadded) Happ].
      destruct (ledger_is_lookup _ _ _ Hledger) as [_ Hlookup].
      destruct (Happ _ Hlookup) as (new & Hnew & Hq).
      exists added, new. split; [assumption|]. split; [assumption|].
      split; [assumption|]. split; [assumption|].
      intros Hother. split.
      * destruct (transcribe_script_events folder output rows done w
                    Hdir Hledger Hcells) as (added' & Htrace' & Hevents).
        rewrite Htrace in Htrace'. apply app_inv_head in Htrace'.
        subst added'. eapply Forall_impl; [exact Hevents|].
        intros e [-> | [(task & model & ->) | (file & Hfile & He)]];
          [constructor | constructor |].
        now apply (video_event_apart folder output file input_file e
                     (Hother file Hfile)).
      * rewrite (transcribe_script_readable folder output rows done)
          by assumption.
        rewrite run_bind.
        destruct (listdir folder w) as [[files|e] w1] eqn:Hlist.
        -- apply listdir_run in Hlist as [-> ->].
           intros q Hbelow.
           now rewrite (main_unchanged output folder _ input_file Hother
                          _ q Hbelow).
        -- pose proof (listdir_only folder w) as [Hfs _].
           rewrite Hlist in Hfs. cbn [snd] in *. intros q _. now rewrite Hfs.
Qed.

(** C10, as the code has it: [init_folder] touches nothing when the
    output folder exists; it makes the folder, its [videos] directory
    and a ledger that holds the header row when the folder does not
    exist.  Where the folder is a directory without its ledger it raises
    [FileNotFoundError], where the output path is a regular file
    [NotADirectoryError].  On a ledger that is there it returns the
    first cell of every row: the header cell ["video"] in front of the
    logged file names where the ledger starts with the header row, and
    the empty list where the ledger is empty. *)
Theorem init_folder_cases (output_folder : path) (w : world) :
  let ledger := os_path_join output_folder "scenes.csv" in
  let videos := os_path_join output_folder "videos" in
  (is_Some (node_at (fs w) output_folder) ->
   (init_folder output_folder w).2 = w)
  /\ (node_at (fs w) output_folder = None ->
      no_file_above (fs w) output_folder ->
      (forall name, fs w !! os_path_join output_folder name = None) ->
      exists m',
        init_folder output_folder w
        = (Ok [], World m' (trace w ++ [EMakedirs output_folder;
                                        EMakedirs videos; ECreate ledger]))
        /\ m' !! ledger = Some (File [transcribe_header])
        /\ m' !! output_folder = Some Dir
        /\ m' !! videos = Some Dir)
  /\ (node_at (fs w) output_folder = Some Dir ->
      dirs_above (fs w) output_folder ->
      node_at (fs w) ledger = None ->
      init_folder output_folder w = (Raise FileNotFoundError, w))
  /\ (forall rows,
        node_at (fs w) output_folder = Some (File rows) ->
        dirs_above (fs w) output_folder ->
        node_at (fs w) ledger = None ->
        init_folder output_folder w = (Raise NotADirectoryError, w))
  /\ (forall rows cells,
        is_Some (node_at (fs w) output_folder) ->
        ledger_is ledger rows w ->
        within_field_limit rows ->
        first_cells (csv_reader rows) = Some cells ->
        init_folder output_folder w = (Ok cells, w))
  /\ (forall body cells,
        is_Some (node_at (fs w) output_folder) ->
        ledger_is ledger (transcribe_header :: body) w ->
        within_field_limit (transcribe_header :: body) ->
        first_cells (csv_reader body) = Some cells ->
        init_folder output_folder w = (Ok ("video" :: cells), w))
  /\ (is_Some (node_at (fs w) output_folder) ->
      ledger_is ledger [] w ->
      init_folder output_folder w = (Ok [], w)).
Proof.
  cbv zeta.
  assert (Hmissing : forall e,
            is_Some (node_at (fs w) output_folder) ->
            node_at (fs w) (os_path_join output_folder "scenes.csv") = None ->
            missing_error (fs w) (os_path_join output_folder "scenes.csv") = e ->
            init_folder output_folder w = (Raise e, w)).
  { intros e Hdir Hnone <-. unfold init_folder. rewrite run_bind.
    unfold path_exists. rewrite bool_decide_eq_true_2 by assumption.
    cbn [negb]. rewrite run_bind. unfold read_csv. rewrite run_bind.
    unfold get_fs. cbn beta iota. now rewrite Hnone. }
  split; [|split; [|split; [|split; [|split; [|split]]]]].
  - apply init_folder_existing_world.
  - intros Hnone Hfiles Hbelow.
    destruct (init_folder_fresh output_folder w Hnone Hfiles Hbelow)
      as (m1 & _ & Hdir1 & Hinit).
    eexists. split; [exact Hinit|].
    assert (Hsnoc : forall name,
              os_path_join output_folder name <> output_folder).
    { intros name E. apply (f_equal length) in E. unfold os_path_join in E.
      rewrite length_app in E. simpl in E. lia. }
    split; [apply lookup_insert_eq|]. split.
    + now rewrite !lookup_insert_ne by apply Hsnoc.
    + rewrite lookup_insert_ne
        by (unfold os_path_join; intros E;
            now apply app_inj_tail in E as [_ ?]).
      apply lookup_insert_eq.
  - intros Hdir Hdirs Hnone. apply Hmissing; [rewrite Hdir; eauto | exact Hnone|].
    apply missing_error_no_file. intros q rows Hq Hne Hfile.
    destruct (decide (q = output_folder)) as [-> | Hqne]; [congruence|].
    rewrite Hdirs in Hfile; [discriminate | | exact Hqne].
    destruct Hq as [k Hk]. unfold os_path_join in Hk.
    destruct k as [|c k] using rev_ind.
    + rewrite app_nil_r in Hk. exfalso. apply Hne. now rewrite <- Hk.
    + rewrite app_assoc in Hk. apply app_inj_tail in Hk as [-> _].
      now apply prefix_app_r.
  - intros rows Hfile Hdirs Hnone.
    apply Hmissing; [rewrite Hfile; eauto | exact Hnone|].
    apply (missing_error_below_file _ output_folder _ rows);
      [exact Hdirs | exact Hfile | now apply prefix_app_r|].
    unfold os_path_join. intros E. apply (f_equal length) in E.
    rewrite length_app in E. simpl in E. lia.
  - intros rows cells Hdir Hledger _ Hcells.
    now apply (init_folder_existing output_folder rows).
  - intros body cells Hdir Hledger _ Hcells.
    apply (init_folder_existing _ _ _ _ Hdir Hledger).
    cbn [csv_reader map first_cells transcribe_header universal_newlines].
    fold (csv_reader body). now rewrite Hcells.
  - intros Hdir Hledger. now apply (init_folder_existing output_folder []).
Qed.

End CheckpointFacts.

(** ** The ledger holds whole videos *)

Section WholeVideoFacts.

Context {frame_timecode : FrameTimecode} {collaborators : Collaborators}.

Lemma clips_cut_app (l1 l2 : list event) :
  clips_cut (l1 ++ l2) = clips_cut l1 ++ clips_cut l2.
Proof. apply omap_app. Qed.


Section Groups.

Context {G : Type} (csv_file : path) (rows_of : G -> list (list string))
  (key : G -> path * list scene_bounds) (whole : G -> Prop).

Global Instance logs_whole_videos_preorder :
  PreOrder (logs_whole_videos csv_file rows_of key whole).
Proof.
  split.
  - intros w rows H. exists [], []. cbn. now rewrite !app_nil_r.
  - intros w1 w2 w3 R12 R23 rows H.
    destruct (R12 rows H) as (a1 & g1 & T1 & W1 & K1 & H2).
    destruct (R23 _ H2) as (a2 & g2 & T2 & W2 & K2 & H3).
    exists (a1 ++ a2), (g1 ++ g2).
    rewrite T2, T1, H3, clips_cut_app, K1, K2, !map_app, concat_app,
      <- !app_assoc.
    repeat split. now apply Forall_app.
Qed.







End Groups.






End WholeVideoFacts.

(** * The properties at work on sample inputs *)

Example splitext_a_mp4 : splitext "a.mp4" = ("a", ".mp4").
Proof. reflexivity. Qed.

Example splitext_two_dots : splitext "take.2.mov" = ("take.2", ".mov").
Proof. reflexivity. Qed.

Example splitext_hidden : splitext ".mp4" = (".mp4", "").
Proof. reflexivity. Qed.

Example splitext_no_dot : splitext "notes" = ("notes", "").
Proof. reflexivity. Qed.

Example is_video_file_upper : is_video_file "x.MP4" = false.
Proof. reflexivity. Qed.

Example is_video_file_lower : is_video_file (PyStr.lower "x.MP4") = true.
Proof. reflexivity. Qed.

Example zfill_7 : PyStr.zfill 3 (PyStr.str 7) = "007".
Proof. reflexivity. Qed.

Example zfill_1234 : PyStr.zfill 3 (PyStr.str 1234) = "1234".
Proof. reflexivity. Qed.

Example int_007 : PyStr.int "007" = Some 7%nat.
Proof. reflexivity. Qed.

Lemma sample_listing_nodup : NoDup ["a.mp4"; "notes.txt"; "x.MP4"].
Proof. repeat constructor; rewrite ?elem_of_cons, ?elem_of_nil; intuition discriminate. Defined.

(** Every field of a sample ledger is short. *)
Ltac cells_within_limit :=
  repeat (apply List.Forall_cons; [vm_compute; discriminate|]);
  apply List.Forall_nil.

Ltac within_limit_of_sample :=
  unfold within_field_limit;
  repeat (apply List.Forall_cons; [cells_within_limit|]);
  apply List.Forall_nil.

Lemma sample_logged_rows_within_limit :
  within_field_limit Sample.logged_rows.
Proof. within_limit_of_sample. Defined.

Lemma sample_out_exists : is_Some (node_at (fs Sample.logged_a) ["out"]).
Proof. vm_compute. eexists. reflexivity. Defined.

Lemma sample_logged_a_ledger :
  ledger_is (os_path_join ["out"] "scenes.csv") Sample.logged_rows
    Sample.logged_a.
Proof. vm_compute. reflexivity. Defined.

Lemma scanner_todo_exact_witness :
  NoDup ["a.mp4"; "notes.txt"; "x.MP4"]
  /\ NoDup (transcribe_todo ["a.mp4"; "notes.txt"; "x.MP4"] ["video"])
  /\ is_Some (node_at (fs Sample.logged_a) ["out"])
  /\ ledger_is (os_path_join ["out"] "scenes.csv") Sample.logged_rows
       Sample.logged_a
  /\ within_field_limit Sample.logged_rows
  /\ first_cells (csv_reader Sample.logged_rows) = Some ["video"; "a.mp4"]
  /\ init_folder ["out"] Sample.logged_a
     = (Ok ["video"; "a.mp4"], Sample.logged_a).
Proof.
  pose proof (scanner_todo_exact (collaborators := Sample.three_silent_scenes))
    as (_ & _ & _ & Hnodup & _ & Hread).
  split; [exact sample_listing_nodup|].
  split; [exact (proj2 (Hnodup ["a.mp4"; "notes.txt"; "x.MP4"] ∅ ["video"]
                          sample_listing_nodup))|].
  split; [exact sample_out_exists|].
  split; [exact sample_logged_a_ledger|].
  split; [exact sample_logged_rows_within_limit|].
  split; [reflexivity|].
  exact (proj1 (Hread ["vids"] ["out"] Sample.logged_rows ["video"; "a.mp4"]
                  Sample.logged_a sample_out_exists sample_logged_a_ledger
                  sample_logged_rows_within_limit eq_refl)).
Defined.

(** The claim C1 as stated, with the bare name looked up in the ledger
    of [transcribe.py], fails on a ledger that logged [a.mp4]: the bare
    name [a] is in no first cell, yet [a.mp4] is not in the to-do
    list. *)
Lemma scanner_bare_name_counterexample :
  ~ (forall file,
       file ∈ transcribe_todo ["a.mp4"] ["video"; "a.mp4"]
       <-> file ∈ ["a.mp4"] /\ is_video_file file = true
           /\ (splitext file).1 ∉ ["video"; "a.mp4"]).
Proof.
  intros H. destruct (H "a.mp4") as [_ Hin].
  assert (Habs : "a.mp4" ∈ transcribe_todo ["a.mp4"] ["video"; "a.mp4"]).
  { apply Hin. split; [left|]. split; [reflexivity|].
    rewrite !elem_of_cons, elem_of_nil. cbn. intuition discriminate. }
  vm_compute in Habs. now apply elem_of_nil in Habs.
Qed.

Lemma scanner_case_sensitive_witness :
  is_video_file (PyStr.lower "x.MP4") = true
  /\ is_video_file "x.MP4" = false
  /\ ("x.MP4" ∉ split_todo ["a.mp4"; "notes.txt"; "x.MP4"] ∅)
  /\ ("x.MP4" ∉ transcribe_todo ["a.mp4"; "notes.txt"; "x.MP4"] ["video"])
  /\ ("a.MP4" ∉ transcribe_todo ["a.MP4"; "a.mp4"] ["video"; "a.mp4"]).
Proof.
  pose proof (scanner_case_sensitive ["a.mp4"; "notes.txt"; "x.MP4"] ∅
                ["video"]) as (Hcase & _ & _).
  pose proof (scanner_case_sensitive ["a.MP4"; "a.mp4"] ∅
                ["video"; "a.mp4"]) as (_ & _ & Hlogged).
  split; [reflexivity|]. split; [reflexivity|].
  destruct (Hcase "x.MP4" eq_refl eq_refl) as [H1 H2].
  split; [exact H1|]. split; [exact H2|].
  apply (Hlogged "a" ".mp4" ".MP4").
  - left.
  - reflexivity.
  - right. left.
Defined.

Lemma rows_follow_artifacts_witness :
  exists l1 c row l2,
    trace (transcribe_script (collaborators := Sample.three_silent_scenes)
             ["vids"] ["out"] Sample.fresh).2
    = trace Sample.fresh ++ l1 ++ EWriteRow c row :: l2
    /\ c = os_path_join ["out"] "scenes.csv".
Proof.
  exists (take 18 Sample.first_run_trace), ["out"; "scenes.csv"],
    ["a.mp4"; "001"; "out/videos/a/scenes/001.mp4";
     "out/videos/a/images/001.jpg"; "0"; "5"; ""],
    (drop 19 Sample.first_run_trace).
  assert (H : trace (transcribe_script
                       (collaborators := Sample.three_silent_scenes)
                       ["vids"] ["out"] Sample.fresh).2
              = trace Sample.fresh ++ take 18 Sample.first_run_trace
                ++ EWriteRow ["out"; "scenes.csv"]
                     ["a.mp4"; "001"; "out/videos/a/scenes/001.mp4";
                      "out/videos/a/images/001.jpg"; "0"; "5"; ""]
                   :: drop 19 Sample.first_run_trace)
    by (vm_compute; reflexivity).
  split; [exact H|].
  exact (proj1 (proj2 rows_follow_artifacts _ _ _ _ _ _ _ H)).
Defined.

Lemma logged_video_is_left_alone_witness :
  is_Some (node_at (fs Sample.logged_a) ["out"])
  /\ ledger_is (os_path_join ["out"] "scenes.csv") Sample.logged_rows
       Sample.logged_a
  /\ within_field_limit Sample.logged_rows
  /\ "a.mp4" ∈ ["video"; "a.mp4"]
  /\ transcribe_todo (entries (fs Sample.logged_a) ["vids"])
       ["video"; "a.mp4"] = []
  /\ (forall files, "a.mp4" ∉ transcribe_todo files ["video"; "a.mp4"])
  /\ fs (transcribe_script (collaborators := Sample.three_silent_scenes)
           ["vids"] ["out"] Sample.logged_a).2
       !! ["out"; "videos"; "a"; "stale.txt"]
     = Some (File []).
Proof.
  assert (Hin : "a.mp4" ∈ ["video"; "a.mp4"]) by (right; left).
  assert (Htodo : transcribe_todo (entries (fs Sample.logged_a) ["vids"])
                    ["video"; "a.mp4"] = []) by (vm_compute; reflexivity).
  destruct (proj2 (logged_video_is_left_alone
                     (collaborators := Sample.three_silent_scenes))
              ["vids"] ["out"] Sample.logged_rows ["video"; "a.mp4"] "a.mp4"
              Sample.logged_a sample_out_exists sample_logged_a_ledger
              sample_logged_rows_within_limit eq_refl Hin)
    as (Hout & added & new & _ & _ & _ & _ & Hdir).
  split; [exact sample_out_exists|].
  split; [exact sample_logged_a_ledger|].
  split; [exact sample_logged_rows_within_limit|].
  split; [exact Hin|]. split; [exact Htodo|]. split; [exact Hout|].
  destruct Hdir as [_ Hsame].
  { intros file Hfile. rewrite Htodo in Hfile.
    now apply elem_of_nil in Hfile. }
  rewrite (Hsame ["out"; "videos"; "a"; "stale.txt"]).
  - vm_compute. reflexivity.
  - vm_compute. now exists ["stale.txt"].
Defined.

(** The claim C3 as stated, with no proviso on the files that are to do,
    fails in [transcribe.py] where [a.mov] lies next to the logged
    [a.mp4]: the run removes the directory [out/videos/a] that holds
    the artifacts of [a.mp4]. *)
Lemma same_bare_name_counterexample :
  ~ (forall folder output rows done input_file (w : @world Sample.seconds),
       is_Some (node_at (fs w) output) ->
       ledger_is (os_path_join output "scenes.csv") rows w ->
       first_cells (csv_reader rows) = Some done ->
       input_file ∈ done ->
       exists added,
         trace (transcribe_script
                  (collaborators := Sample.three_silent_scenes)
                  folder output w).2
         = trace w ++ added
         /\ Forall (stays_out_of (video_dir_of output input_file)) added).
Proof.
  intros H.
  destruct (H ["vids"] ["out"] Sample.logged_rows ["video"; "a.mp4"] "a.mp4"
              Sample.logged_a_beside_a_mov) as (added & Htrace & Hout).
  - vm_compute. eexists. reflexivity.
  - vm_compute. reflexivity.
  - reflexivity.
  - right. left.
  - vm_compute in Htrace. subst added.
    rewrite Forall_forall in Hout.
    assert (Hstay : stays_out_of (video_dir_of ["out"] "a.mp4")
                      (@ERmtree Sample.seconds ["out"; "videos"; "a"])).
    { apply Hout. apply list_elem_of_lookup. now exists 3%nat. }
    apply Forall_cons in Hstay as [[Hbelow _] _]. apply Hbelow.
    vm_compute. now exists [].
Qed.

(** The same run on the file system: the stale file of [a.mp4] is gone,
    and the rows of [a.mov] name the files of the shared directory. *)
Example same_bare_name_on_sample :
  let w' :=
    (transcribe_script (collaborators := Sample.three_silent_scenes)
       ["vids"] ["out"] Sample.logged_a_beside_a_mov).2 in
  fs Sample.logged_a_beside_a_mov !! ["out"; "videos"; "a"; "stale.txt"]
  = Some (File [])
  /\ fs w' !! ["out"; "videos"; "a"; "stale.txt"] = None
  /\ fs w' !! ["out"; "scenes.csv"]
     = Some (File (Sample.logged_rows
                   ++ [["a.mov"; "001"; "out/videos/a/scenes/001.mov";
                        "out/videos/a/images/001.jpg"; "0"; "5"; ""];
                       ["a.mov"; "002"; "out/videos/a/scenes/002.mov";
                        "out/videos/a/images/002.jpg"; "5"; "9"; ""];
                       ["a.mov"; "003"; "out/videos/a/scenes/003.mov";
                        "out/videos/a/images/003.jpg"; "9"; "12"; ""]])).
Proof. vm_compute. repeat split. Qed.

Lemma transcription_cell_witness :
  @transcriber Sample.seconds Sample.three_textless_scenes Sample.fresh
    Sample.scene_1.(audio) !! "text" = None
  /\ transcription_of
       (@transcriber Sample.seconds Sample.three_textless_scenes
          Sample.fresh Sample.scene_1.(audio))
     = "NO TRANSCRIPTION FOUND".
Proof.
  assert (H : @transcriber Sample.seconds Sample.three_textless_scenes
                Sample.fresh Sample.scene_1.(audio) !! "text" = None)
    by (vm_compute; reflexivity).
  split; [exact H|].
  destruct (transcription_cell (collaborators := Sample.three_textless_scenes)
              [] Sample.scene_1 Sample.fresh)
    as (row & w' & _ & _ & Hsentinel & _).
  exact (Hsentinel H).
Defined.

(** The claim C4 as stated fails where the recogniser returns the text
    [""]: the cell holds [""], not the sentinel. *)
Lemma empty_text_counterexample :
  ~ (forall rows sc w,
       @transcriber Sample.seconds Sample.three_silent_scenes w
         sc.(audio) !! "text" = Some "" ->
       exists row w',
         transcribe_scene (collaborators := Sample.three_silent_scenes)
           rows sc w = (Ok (rows ++ [row]), w')
         /\ row !! 6%nat = Some no_transcription).
Proof.
  intros H.
  destruct (H [] Sample.scene_1 Sample.fresh) as (row & w' & Hrun & Hcell).
  { vm_compute. reflexivity. }
  rewrite transcribe_scene_run in Hrun. injection Hrun as <- _.
  vm_compute in Hcell. discriminate.
Qed.

(** The same on a whole run: every row of the ledger ends in [""]. *)
Example empty_text_in_ledger :
  fs Sample.first_run !! ["out"; "scenes.csv"]
  = Some (File [transcribe_header;
                ["a.mp4"; "001"; "out/videos/a/scenes/001.mp4";
                 "out/videos/a/images/001.jpg"; "0"; "5"; ""];
                ["a.mp4"; "002"; "out/videos/a/scenes/002.mp4";
                 "out/videos/a/images/002.jpg"; "5"; "9"; ""];
                ["a.mp4"; "003"; "out/videos/a/scenes/003.mp4";
                 "out/videos/a/images/003.jpg"; "9"; "12"; ""]]).
Proof. vm_compute. reflexivity. Qed.

(** Line 80 on the folder of the claim C6. *)
Example split_video_script_on_sample :
  split_video_script (collaborators := Sample.three_silent_scenes)
    Sample.fresh
  = (Raise TypeError, Sample.fresh).
Proof. reflexivity. Qed.

(** What the claim C6 describes is what [split_video_scenes] does once it
    is given a ledger path. *)
Example split_video_scenes_with_ledger :
  fs (split_video_scenes (collaborators := Sample.three_silent_scenes)
        ["vids"] ["vids-split"] ["vids-split"; "scenes.csv"] Sample.fresh).2
  !! ["vids-split"; "scenes.csv"]
  = Some (File [split_header; ["a"; "1"; "0"; "5"]; ["a"; "2"; "5"; "9"];
                ["a"; "3"; "9"; "12"]]).
Proof. vm_compute. reflexivity. Qed.


(** Find the proper prefixes of a concrete path. *)
Ltac prefixes_of_sample :=
  repeat match goal with
    | H : _ `prefix_of` [] |- _ => apply prefix_nil_inv in H; subst
    | H : (_ :: _) `prefix_of` (_ :: _) |- _ =>
        pose proof (prefix_cons_inv_1 _ _ _ _ H);
        apply prefix_cons_inv_2 in H; subst
    | H : ?q `prefix_of` (_ :: _) |- _ => is_var q; destruct q
    end.



Lemma empty_ledger_stops_split_witness :
  ledger_is ["out"; "scenes.csv"] [] Sample.emptied_ledger
  /\ split_video_scenes (collaborators := Sample.three_silent_scenes)
       ["vids"] ["out"] ["out"; "scenes.csv"] Sample.emptied_ledger
     = (Raise StopIteration, (split_setup ["out"] Sample.emptied_ledger).2).
Proof.
  assert (Hledger : ledger_is ["out"; "scenes.csv"] [] Sample.emptied_ledger)
    by (vm_compute; reflexivity).
  split; [exact Hledger|].
  destruct (empty_ledger_stops_split
              (collaborators := Sample.three_silent_scenes)
              ["vids"] ["out"] ["out"; "scenes.csv"] Sample.emptied_ledger
              Hledger) as (e & added & Hrun & Hstop & _).
  rewrite Hrun. f_equal. f_equal. apply Hstop. vm_compute. reflexivity.
Defined.

Lemma sample_output_ancestors : no_file_above (fs Sample.fresh) ["out"].
Proof.
  intros q rows Hq Hne Hfile. prefixes_of_sample;
    vm_compute in Hfile; discriminate.
Defined.

Lemma init_folder_cases_witness :
  init_folder ["out"] Sample.lost_ledger
  = (Raise FileNotFoundError, Sample.lost_ledger)
  /\ init_folder ["vids"; "notes.txt"] Sample.fresh
     = (Raise NotADirectoryError, Sample.fresh)
  /\ init_folder ["out"] Sample.logged_a
     = (Ok ["video"; "a.mp4"], Sample.logged_a)
  /\ init_folder ["out"] Sample.emptied_ledger = (Ok [], Sample.emptied_ledger)
  /\ exists m',
       init_folder ["out"] Sample.fresh
       = (Ok [], World m' [EMakedirs ["out"]; EMakedirs ["out"; "videos"];
                           ECreate ["out"; "scenes.csv"]])
       /\ m' !! ["out"; "scenes.csv"] = Some (File [transcribe_header]).
Proof.
  assert (Hout : forall w : @world Sample.seconds,
            fs w !! ["out"] = Some Dir -> is_Some (node_at (fs w) ["out"])).
  { intros w H. cbn [node_at]. rewrite H. now eexists. }
  assert (Habove : forall (w : @world Sample.seconds) name,
            dirs_above (fs w) [name]).
  { intros w name q Hq Hne. prefixes_of_sample; [reflexivity | congruence]. }
  split; [|split; [|split; [|split]]].
  - apply (proj1 (proj2 (proj2 (init_folder_cases ["out"]
                                  Sample.lost_ledger)))).
    + vm_compute. reflexivity.
    + apply Habove.
    + vm_compute. reflexivity.
  - apply (proj1 (proj2 (proj2 (proj2 (init_folder_cases ["vids"; "notes.txt"]
                                         Sample.fresh)))) []).
    + vm_compute. reflexivity.
    + intros q Hq Hne. prefixes_of_sample;
        [reflexivity | vm_compute; reflexivity | congruence].
    + vm_compute. reflexivity.
  - apply (proj1 (proj2 (proj2 (proj2 (proj2 (proj2
             (init_folder_cases ["out"] Sample.logged_a))))))
             [["a.mp4"; "001"; "out/videos/a/scenes/001.mp4";
               "out/videos/a/images/001.jpg"; "0"; "5"; "hello"]]
             ["a.mp4"]).
    + exact sample_out_exists.
    + exact sample_logged_a_ledger.
    + exact sample_logged_rows_within_limit.
    + reflexivity.
  - apply (proj2 (proj2 (proj2 (proj2 (proj2 (proj2
             (init_folder_cases ["out"] Sample.emptied_ledger))))))).
    + apply Hout. vm_compute. reflexivity.
    + vm_compute. reflexivity.
  - destruct (proj1 (proj2 (init_folder_cases ["out"] Sample.fresh)))
      as (m' & Hrun & Hledger & _).
    + vm_compute. reflexivity.
    + exact sample_output_ancestors.
    + intros name. unfold os_path_join, Sample.fresh, Sample.vids_folder.
      cbn [app fs]. rewrite !lookup_insert_ne by discriminate.
      apply lookup_empty.
    + exists m'. split; [exact Hrun | exact Hledger].
Defined.

(** The claim C10 as stated fails on a ledger that was emptied: the
    ledger exists, and the list that [init_folder] returns does not hold
    the header cell. *)
Lemma emptied_ledger_counterexample :
  ~ (forall output rows (w : @world Sample.seconds),
       is_Some (node_at (fs w) output) ->
       ledger_is (os_path_join output "scenes.csv") rows w ->
       exists cells,
         init_folder output w = (Ok cells, w) /\ "video" ∈ cells).
Proof.
  intros H.
  destruct (H ["out"] [] Sample.emptied_ledger) as (cells & Hrun & Hin).
  - vm_compute. eexists. reflexivity.
  - vm_compute. reflexivity.
  - vm_compute in Hrun. injection Hrun as <-. now apply elem_of_nil in Hin.
Qed.

(** * The further properties at work on sample inputs *)

Lemma scene_files_are_distinct_witness :
  (0 <> 1)%nat
  /\ scene Sample.scene_1
     <> scene (make_scene "a.mp4" ".mp4" ["out"; "videos"; "a"; "scenes"]
                 ["out"; "videos"; "a"; "images"]
                 ["out"; "videos"; "a"; "audio"] 1 Sample.first_bounds).
Proof.
  assert (H : (0 <> 1)%nat) by discriminate.
  split; [exact H|].
  exact (proj1 (proj2 (scene_files_are_distinct
                         (frame_timecode := Sample.seconds) "a.mp4" ".mp4"
                         ["out"; "videos"; "a"; "scenes"]
                         ["out"; "videos"; "a"; "images"]
                         ["out"; "videos"; "a"; "audio"] 0 1
                         Sample.first_bounds Sample.first_bounds H))).
Defined.


Lemma missing_ledger_is_created_witness :
  (split_setup ["out"] Sample.lost_ledger).1 = Ok tt
  /\ node_at (fs (split_setup ["out"] Sample.lost_ledger).2)
       ["out"; "scenes.csv"] = None
  /\ fs (split_video_scenes (collaborators := Sample.three_silent_scenes)
           ["vids"] ["out"] ["out"; "scenes.csv"] Sample.lost_ledger).2
     !! ["out"; "scenes.csv"]
     = Some (File [split_header; ["a"; "1"; "0"; "5"]; ["a"; "2"; "5"; "9"];
                   ["a"; "3"; "9"; "12"]])
  /\ (split_video_scenes (collaborators := Sample.three_silent_scenes)
        ["vids"] ["out"] ["vids"; "notes.txt"; "x"; "scenes.csv"]
        Sample.lost_ledger).1
     = Raise NotADirectoryError.
Proof.
  assert (Hsetup : (split_setup ["out"] Sample.lost_ledger).1 = Ok tt)
    by (vm_compute; reflexivity).
  assert (Hnone : node_at (fs (split_setup ["out"] Sample.lost_ledger).2)
                    ["out"; "scenes.csv"] = None)
    by (vm_compute; reflexivity).
  assert (Hbelow : node_at (fs (split_setup ["out"] Sample.lost_ledger).2)
                     ["vids"; "notes.txt"; "x"; "scenes.csv"] = None)
    by (vm_compute; reflexivity).
  split; [exact Hsetup|]. split; [exact Hnone|]. split.
  - rewrite (proj1 (missing_ledger_is_created
                      (collaborators := Sample.three_silent_scenes)
                      ["vids"] ["out"] ["out"; "scenes.csv"]
                      Sample.lost_ledger Hsetup Hnone)).
    vm_compute. reflexivity.
  - rewrite (proj1 (missing_ledger_is_created
                      (collaborators := Sample.three_silent_scenes)
                      ["vids"] ["out"]
                      ["vids"; "notes.txt"; "x"; "scenes.csv"]
                      Sample.lost_ledger Hsetup Hbelow)).
    vm_compute. reflexivity.
Defined.

Lemma sceneless_video_is_not_logged_witness :
  ledger_is ["out"; "scenes.csv"] [split_header] Sample.header_only
  /\ split_one (collaborators := Sample.no_scenes)
       ["vids"] ["out"; "images"] ["out"; "videos"] ["out"; "scenes.csv"]
       "a.mp4" Sample.header_only
     = (Ok tt,
        World (fs Sample.header_only)
          (split_artifacts ["vids"] ["out"; "images"] ["out"; "videos"]
             "a.mp4" [])).
Proof.
  assert (Hledger : ledger_is ["out"; "scenes.csv"] [split_header]
                      Sample.header_only)
    by (vm_compute; reflexivity).
  split; [exact Hledger|].
  exact (proj1 (sceneless_video_is_not_logged
                  (collaborators := Sample.no_scenes))
           ["vids"] ["out"; "images"] ["out"; "videos"]
           ["out"; "scenes.csv"] "a.mp4" [split_header] Sample.header_only
           Hledger eq_refl).
Defined.

Lemma failed_video_writes_no_row_witness :
  exists w',
    make_video_dirs ["out"; "videos"; "a"] ["out"; "videos"; "a"; "scenes"]
      ["out"; "videos"; "a"; "images"] ["out"; "videos"; "a"; "audio"]
      (World (fs Sample.blocked_videos) [EDetect ["vids"; "a.mp4"] true])
    = (Raise NotADirectoryError, w')
    /\ transcribe_one (collaborators := Sample.three_silent_scenes)
         ["out"] ["vids"] ["out"; "scenes.csv"] "a.mp4" Sample.blocked_videos
       = (Raise NotADirectoryError, w')
    /\ fs w' !! ["out"; "scenes.csv"] = Some (File [transcribe_header]).
Proof.
  eexists.
  assert (Hdirs : make_video_dirs (video_dir_of ["out"] "a.mp4")
                    (scenes_dir_of ["out"] "a.mp4")
                    (images_dir_of ["out"] "a.mp4")
                    (audio_dir_of ["out"] "a.mp4")
                    (World (fs Sample.blocked_videos)
                       (trace Sample.blocked_videos
                        ++ [EDetect (os_path_join ["vids"] "a.mp4") true]))
                  = (Raise NotADirectoryError, _))
    by (vm_compute; reflexivity).
  split; [exact Hdirs|].
  destruct (failed_video_writes_no_row
              (collaborators := Sample.three_silent_scenes)
              ["out"] ["vids"] "a.mp4" NotADirectoryError
              Sample.blocked_videos _ Hdirs) as (Hrun & _ & Hledger).
  split; [exact Hrun|]. apply Hledger. vm_compute. reflexivity.
Defined.

Lemma same_name_videos_share_a_directory_witness :
  (splitext "a.mp4").1 = (splitext "a.mov").1
  /\ exists w1,
       transcribe_one (collaborators := Sample.three_silent_scenes)
         ["out"] ["vids"] ["out"; "scenes.csv"] "a.mp4" Sample.two_of_a_name
       = (Ok tt, w1)
       /\ exists rest,
            trace (transcribe_one
                     (collaborators := Sample.three_silent_scenes)
                     ["out"] ["vids"] ["out"; "scenes.csv"] "a.mov" w1).2
            = trace w1
              ++ EDetect ["vids"; "a.mov"] true
                 :: ERmtree ["out"; "videos"; "a"] :: rest.
Proof.
  split; [reflexivity|].
  assert (Hfirst : transcribe_one
                     (collaborators := Sample.three_silent_scenes)
                     ["out"] ["vids"] (os_path_join ["out"] "scenes.csv")
                     "a.mp4" Sample.two_of_a_name
                   = (Ok tt,
                      (transcribe_one
                         (collaborators := Sample.three_silent_scenes)
                         ["out"] ["vids"] ["out"; "scenes.csv"] "a.mp4"
                         Sample.two_of_a_name).2))
    by (vm_compute; reflexivity).
  eexists. split; [exact Hfirst|].
  exact (proj2 (proj2 (same_name_videos_share_a_directory
                         (collaborators := Sample.three_silent_scenes)
                         ["out"] ["vids"] "a.mp4" "a.mov"
                         Sample.two_of_a_name _ eq_refl Hfirst))).
Defined.

Lemma videos_are_opened_in_listing_order_witness :
  exists added,
    trace (main (collaborators := Sample.three_silent_scenes)
             ["out"] ["vids"] ["a.mp4"; "a.mov"] Sample.two_of_a_name).2
    = trace Sample.two_of_a_name ++ added
    /\ videos_opened added = [["vids"; "a.mp4"]; ["vids"; "a.mov"]].
Proof.
  destruct (proj2 (videos_are_opened_in_listing_order
                     (collaborators := Sample.three_silent_scenes))
              ["out"] ["vids"] ["a.mp4"; "a.mov"] Sample.two_of_a_name)
    as (added & Htrace & _ & Hall).
  exists added. split; [exact Htrace|]. apply Hall.
  vm_compute. reflexivity.
Defined.

Lemma todo_of_a_run_witness :
  init_folder ["out"] Sample.logged_a
  = (Ok ["video"; "a.mp4"], Sample.logged_a)
  /\ NoDup (transcribe_todo (entries (fs Sample.logged_a) ["vids"])
              ["video"; "a.mp4"])
  /\ ("notes.txt" ∉ transcribe_todo (entries (fs Sample.logged_a) ["vids"])
                      ["video"; "a.mp4"]).
Proof.
  assert (Hinit : init_folder ["out"] Sample.logged_a
                  = (Ok ["video"; "a.mp4"], Sample.logged_a))
    by (vm_compute; reflexivity).
  assert (Hlist : listdir ["vids"] Sample.logged_a
                  = (Ok (entries (fs Sample.logged_a) ["vids"]),
                     World (fs Sample.logged_a) [EListdir ["vids"]]))
    by (vm_compute; reflexivity).
  destruct (todo_of_a_run (collaborators := Sample.three_silent_scenes)
              ["vids"] ["out"] _ _ _ _ _ Hinit Hlist)
    as (_ & Hnodup & Htodo).
  split; [exact Hinit|]. split; [exact Hnodup|].
  intros Hin. apply Htodo in Hin as (_ & Hvideo & _). discriminate Hvideo.
Defined.

Lemma split_video_scenes_removes_nothing_witness :
  fs Sample.fresh !! ["vids"; "a.mp4"] = Some (File [])
  /\ fs (split_video_scenes (collaborators := Sample.three_silent_scenes)
           ["vids"] ["out"] ["out"; "scenes.csv"] Sample.fresh).2
     !! ["vids"; "a.mp4"] = Some (File []).
Proof.
  assert (Hfile : fs Sample.fresh !! ["vids"; "a.mp4"] = Some (File []))
    by (vm_compute; reflexivity).
  split; [exact Hfile|].
  apply (proj1 (proj2 (split_video_scenes_removes_nothing
                         (collaborators := Sample.three_silent_scenes)
                         ["vids"] ["out"] ["out"; "scenes.csv"]
                         Sample.fresh))); [discriminate | | | exact Hfile].
  - intros Hpre. apply prefix_cons_inv_1 in Hpre. discriminate.
  - intros Hpre. apply prefix_cons_inv_1 in Hpre. discriminate.
Defined.

Lemma transcribe_removes_only_video_dirs_witness :
  fs Sample.logged_a !! ["vids"; "a.mp4"] = Some (File [])
  /\ fs (transcribe_script (collaborators := Sample.three_silent_scenes)
           ["vids"] ["out"] Sample.logged_a).2
     !! ["vids"; "a.mp4"] = Some (File []).
Proof.
  assert (Hfile : fs Sample.logged_a !! ["vids"; "a.mp4"] = Some (File []))
    by (vm_compute; reflexivity).
  split; [exact Hfile|].
  apply (proj1 (proj2 (transcribe_removes_only_video_dirs
                         (collaborators := Sample.three_silent_scenes)
                         ["vids"] ["out"] Sample.logged_a)));
    [discriminate | | exact Hfile].
  intros [name Hpre]. apply prefix_cons_inv_1 in Hpre. discriminate.
Defined.

Lemma written_rows_are_read_back_witness :
  ledger_is ["out"; "scenes.csv"] [transcribe_header] Sample.two_of_a_name
  /\ exists names,
       init_folder ["out"]
         (transcribe_script (collaborators := Sample.three_silent_scenes)
            ["vids"] ["out"] Sample.two_of_a_name).2
       = (Ok (["video"] ++ map universal_newlines names),
          (transcribe_script (collaborators := Sample.three_silent_scenes)
             ["vids"] ["out"] Sample.two_of_a_name).2).
Proof.
  assert (Hledger : ledger_is (os_path_join ["out"] "scenes.csv")
                      [transcribe_header] Sample.two_of_a_name)
    by (vm_compute; reflexivity).
  split; [exact Hledger|].
  destruct (proj2 (written_rows_are_read_back
                     (collaborators := Sample.three_silent_scenes))
              ["vids"] ["out"] [transcribe_header] ["video"]
              Sample.two_of_a_name)
    as (added & names & _ & Hfs & _ & Hread & _).
  - vm_compute. eexists. reflexivity.
  - exact Hledger.
  - reflexivity.
  - exists names. apply Hread.
    assert (Hrows : fs (transcribe_script
                          (collaborators := Sample.three_silent_scenes)
                          ["vids"] ["out"] Sample.two_of_a_name).2
                      !! os_path_join ["out"] "scenes.csv"
                    = Some (File Sample.two_of_a_name_ledger))
      by (vm_compute; reflexivity).
    rewrite Hrows in Hfs. injection Hfs as <-. within_limit_of_sample.
Defined.

Lemma ledger_stays_rectangular_witness :
  fs Sample.two_of_a_name !! ["out"; "scenes.csv"]
  = Some (File [transcribe_header])
  /\ exists rows',
       fs (transcribe_script (collaborators := Sample.three_silent_scenes)
             ["vids"] ["out"] Sample.two_of_a_name).2
          !! ["out"; "scenes.csv"] = Some (File rows')
       /\ Forall (fun row => length row = 7%nat) rows'.
Proof.
  assert (Hledger : fs Sample.two_of_a_name !! os_path_join ["out"] "scenes.csv"
                    = Some (File [transcribe_header]))
    by (vm_compute; reflexivity).
  split; [exact Hledger|].
  apply (proj2 (ledger_stays_rectangular
                  (collaborators := Sample.three_silent_scenes))
           ["vids"] ["out"] [transcribe_header] Sample.two_of_a_name).
  - vm_compute. eexists. reflexivity.
  - exact Hledger.
  - now repeat constructor.
Defined.


Lemma existing_output_is_reused_witness :
  fs Sample.fresh !! ["vids"; "notes.txt"] = Some (File [])
  /\ split_video_scenes (collaborators := Sample.three_silent_scenes)
       ["vids"] ["vids"; "notes.txt"] ["ledger.csv"] Sample.fresh
     = (Raise FileExistsError,
        World (fs Sample.fresh) [EMakedirs ["vids"; "notes.txt"]])
  /\ split_setup ["out"] (split_setup ["out"] Sample.fresh).2
     = (Ok tt,
        World (fs (split_setup ["out"] Sample.fresh).2)
          (trace (split_setup ["out"] Sample.fresh).2
           ++ [EMakedirs ["out"]; EMakedirs ["out"; "images"];
               EMakedirs ["out"; "videos"]])).
Proof.
  assert (Hfile : fs Sample.fresh !! ["vids"; "notes.txt"] = Some (File []))
    by (vm_compute; reflexivity).
  split; [exact Hfile|]. split.
  - apply (proj2 (existing_output_is_reused
                    (collaborators := Sample.three_silent_scenes)
                    ["vids"] ["vids"; "notes.txt"] ["ledger.csv"]
                    Sample.fresh ltac:(discriminate)
                    ltac:(vm_compute; eexists; reflexivity)) [] Hfile).
  - apply (proj1 (existing_output_is_reused
                    (collaborators := Sample.three_silent_scenes)
                    ["vids"] ["out"] ["ledger.csv"]
                    (split_setup ["out"] Sample.fresh).2
                    ltac:(discriminate)
                    ltac:(vm_compute; eexists; reflexivity)));
      vm_compute; reflexivity.
Defined.

Lemma first_run_takes_every_video_witness :
  node_at (fs Sample.fresh) ["out"] = None
  /\ exists m' : gmap path node,
       m' !! ["out"; "scenes.csv"] = Some (File [transcribe_header])
       /\ m' !! ["out"; "videos"] = Some Dir.
Proof.
  assert (Hnone : node_at (fs Sample.fresh) ["out"] = None)
    by (vm_compute; reflexivity).
  split; [exact Hnone|].
  destruct (first_run_takes_every_video
              (collaborators := Sample.three_silent_scenes)
              ["vids"] ["out"] Sample.fresh Hnone sample_output_ancestors)
    as (m' & Hledger & Hvideos & _).
  - intros name. unfold os_path_join, Sample.fresh, Sample.vids_folder.
    cbn [app fs]. rewrite !lookup_insert_ne by discriminate.
    apply lookup_empty.
  - exists m'. split; [exact Hledger | exact Hvideos].
Defined.

Lemma video_file_name_splits_witness :
  is_video_file "take.2.mov" = true
  /\ exists base ext,
       "take.2.mov" = base +:+ ext /\ ext ∈ video_extensions.
Proof.
  assert (Hvideo : is_video_file "take.2.mov" = true) by reflexivity.
  split; [exact Hvideo|].
  destruct (video_file_name_splits "take.2.mov" Hvideo)
    as (base & ext & Hfile & Hext & _).
  now exists base, ext.
Defined.

Lemma next_run_skips_logged_videos_witness :
  ledger_is ["out"; "scenes.csv"] [transcribe_header] Sample.two_of_a_name
  /\ exists added1 added2,
       trace (transcribe_script (collaborators := Sample.three_silent_scenes)
                ["vids"] ["out"] Sample.two_of_a_name).2
       = trace Sample.two_of_a_name ++ added1
       /\ trace (transcribe_script
                   (collaborators := Sample.three_silent_scenes)
                   ["vids"] ["out"]
                   (transcribe_script
                      (collaborators := Sample.three_silent_scenes)
                      ["vids"] ["out"] Sample.two_of_a_name).2).2
          = trace (transcribe_script
                     (collaborators := Sample.three_silent_scenes)
                     ["vids"] ["out"] Sample.two_of_a_name).2
            ++ added2
       /\ forall row input_file,
            row ∈ rows_written ["out"; "scenes.csv"] added1 ->
            head row = Some input_file ->
            no_carriage_return input_file = true ->
            os_path_join ["vids"] input_file ∉ videos_opened added2.
Proof.
  assert (Hledger : ledger_is (os_path_join ["out"] "scenes.csv")
                      [transcribe_header] Sample.two_of_a_name)
    by (vm_compute; reflexivity).
  split; [exact Hledger|].
  apply (proj2 (next_run_skips_logged_videos
                  (collaborators := Sample.three_silent_scenes))
           ["vids"] ["out"] [transcribe_header] ["video"]
           Sample.two_of_a_name).
  - vm_compute. eexists. reflexivity.
  - exact Hledger.
  - reflexivity.
Defined.

Lemma idle_run_changes_nothing_witness :
  transcribe_todo (entries (fs Sample.logged_a) ["vids"]) ["video"; "a.mp4"]
  = []
  /\ transcribe_script (collaborators := Sample.three_silent_scenes)
       ["vids"] ["out"] Sample.logged_a
     = (Ok tt,
        World (fs Sample.logged_a)
          (trace Sample.logged_a
           ++ [EListdir ["vids"];
               EPipeline "automatic-speech-recognition"
                 "distil-whisper/distil-large-v3"])).
Proof.
  assert (Htodo : transcribe_todo (entries (fs Sample.logged_a) ["vids"])
                    ["video"; "a.mp4"] = [])
    by (vm_compute; reflexivity).
  split; [exact Htodo|].
  apply (proj2 (idle_run_changes_nothing
                  (collaborators := Sample.three_silent_scenes))
           ["vids"] ["out"] Sample.logged_rows ["video"; "a.mp4"]
           Sample.logged_a).
  - exact sample_out_exists.
  - exact sample_logged_a_ledger.
  - exact sample_logged_rows_within_limit.
  - reflexivity.
  - vm_compute. reflexivity.
  - exact Htodo.
Defined.

Lemma missing_input_folder_stops_the_run_witness :
  node_at (fs Sample.logged_a) ["nowhere"] = None
  /\ transcribe_script (collaborators := Sample.three_silent_scenes)
       ["nowhere"] ["out"] Sample.logged_a
     = (Raise FileNotFoundError,
        World (fs Sample.logged_a)
          (trace Sample.logged_a ++ [EListdir ["nowhere"]]))
  /\ transcribe_script (collaborators := Sample.three_silent_scenes)
       ["vids"; "notes.txt"; "x"] ["out"] Sample.logged_a
     = (Raise NotADirectoryError,
        World (fs Sample.logged_a)
          (trace Sample.logged_a ++ [EListdir ["vids"; "notes.txt"; "x"]])).
Proof.
  assert (Hnone : node_at (fs Sample.logged_a) ["nowhere"] = None)
    by (vm_compute; reflexivity).
  assert (Hbelow : node_at (fs Sample.logged_a) ["vids"; "notes.txt"; "x"]
                   = None)
    by (vm_compute; reflexivity).
  pose proof (proj1 (proj2 (missing_input_folder_stops_the_run
                              (collaborators := Sample.three_silent_scenes))))
    as Hstop.
  split; [exact Hnone|]. split.
  - rewrite (Hstop ["nowhere"] ["out"] Sample.logged_rows ["video"; "a.mp4"]
               Sample.logged_a sample_out_exists sample_logged_a_ledger
               sample_logged_rows_within_limit eq_refl Hnone).
    reflexivity.
  - rewrite (Hstop ["vids"; "notes.txt"; "x"] ["out"] Sample.logged_rows
               ["video"; "a.mp4"] Sample.logged_a sample_out_exists
               sample_logged_a_ledger sample_logged_rows_within_limit
               eq_refl Hbelow).
    reflexivity.
Defined.
